(** * ModernTrend ("Trends" Office add-in): the configuration store, the data
      binder and convertor, the theme provider, the layouter's split-pane
      resize and the line-chart plotter's data reconciliation.

    Source: ref/ModernTrend/ModernTrendWeb/scripts/ModernTrend.js.

    JavaScript values are embedded as follows.
    - A number is [NaN], an infinity or a finite rational.  The code under
      study only compares numbers and takes maxima and minima of them, which
      is exact on IEEE doubles; signed zeros are identified.
    - An exception is the [Throw] branch of [result]; stateful code is a
      function from the state to a result paired with the state reached.
    - An object used as a dictionary is a [gmap string _] of the properties
      it holds itself, with what JavaScript does under [length] and
      [__proto__] written out: the settings of the configuration live in an
      array, the timer ids of [delaySet] in a plain object.  Arrays are
      lists, with the out-of-range behaviour of JavaScript written out.
    - Settings are primitives and arrays of primitives.  What the host
      decides (the number a string stands for, what [Array.prototype] hands
      down) is a field of the world, on which nothing is assumed. *)

From Stdlib Require Import ZArith QArith Ascii String List Lia Lqa Permutation.
From stdpp Require Import base option list gmap strings sorting pretty.

Local Open Scope string_scope.
Local Open Scope list_scope.
Local Open Scope nat_scope.

(** ** JavaScript values *)

Module Js.

Inductive number : Type :=
  | NaN
  | NegInf
  | Fin (q : Q)
  | PosInf.

Definition isNaN (n : number) : bool :=
  match n with NaN => true | _ => false end.

Definition ofZ (z : Z) : number := Fin (inject_Z z).

(** Numeric comparison; [None] when an operand is [NaN] (every relational
    operator and [===] then answers false). *)
Definition cmp (a b : number) : option comparison :=
  match a, b with
  | NaN, _ | _, NaN => None
  | NegInf, NegInf => Some Eq
  | NegInf, _ => Some Lt
  | _, NegInf => Some Gt
  | PosInf, PosInf => Some Eq
  | PosInf, _ => Some Gt
  | _, PosInf => Some Lt
  | Fin x, Fin y => Some (x ?= y)%Q
  end.

(** [a < b], [a > b], [a === b] on numbers. *)
Definition ltb (a b : number) : bool :=
  match cmp a b with Some Lt => true | _ => false end.
Definition gtb (a b : number) : bool := ltb b a.
Definition eqb (a b : number) : bool :=
  match cmp a b with Some Eq => true | _ => false end.

(** [Math.max(a, b)] and [Math.min(a, b)]: [NaN] as soon as one operand is. *)
Definition mathMax (a b : number) : number :=
  match cmp a b with
  | None => NaN
  | Some Lt => b
  | Some _ => a
  end.
Definition mathMin (a b : number) : number :=
  match cmp a b with
  | None => NaN
  | Some Gt => b
  | Some _ => a
  end.

(** The primitive values a spreadsheet cell or a setting can hold. *)
Inductive prim : Type :=
  | Undefined
  | Null
  | Bool (b : bool)
  | Num (n : number)
  | Str (s : string).

(** [v !== null && v !== undefined]. *)
Definition isPresent (v : prim) : bool :=
  match v with Undefined | Null => false | _ => true end.

(** A setting: a primitive or an array of primitives. *)
Inductive value : Type :=
  | Prim (p : prim)
  | Arr (a : list prim).

Definition notNull (v : value) : bool :=
  match v with Prim p => isPresent p | Arr _ => true end.

(** Truthiness, as [if (v)] and [!v] test it. *)
Definition truthy (v : value) : bool :=
  match v with
  | Prim Undefined | Prim Null => false
  | Prim (Bool b) => b
  | Prim (Num n) =>
      match n with
      | NaN => false
      | Fin q => negb (Qeq_bool q 0)
      | _ => true
      end
  | Prim (Str s) => negb (bool_decide (s = ""))
  | Arr _ => true
  end.

Inductive error : Type :=
  | TypeError              (* property read on undefined or null *)
  | RangeError             (* an array length that is no length *)
  | ParameterIsNull        (* Validator.parameterIsNullError *)
  | ParameterIsEmpty.      (* Validator.parameterIsEmptyError *)

Inductive result (A : Type) : Type :=
  | Ok (a : A)
  | Throw (e : error).
Arguments Ok {A} a.
Arguments Throw {A} e.

Definition bind {A B} (m : result A) (f : A -> result B) : result B :=
  match m with
  | Ok a => f a
  | Throw e => Throw e
  end.

(** A [for] loop whose body may throw: the body runs on the indices in
    order and the first exception ends the loop. *)
Fixpoint forM {A I} (body : A -> I -> result A) (idx : list I) (a : A)
  : result A :=
  match idx with
  | [] => Ok a
  | i :: rest => bind (body a i) (forM body rest)
  end.

(** Decimal digits at the head of a string: their value, how many there
    are, and what follows them. *)
Definition digitOf (c : Ascii.ascii) : option Z :=
  let n := Z.of_nat (Ascii.nat_of_ascii c) in
  if ((48 <=? n) && (n <=? 57))%Z then Some (n - 48)%Z else None.

Fixpoint readDigits (s : string) (acc : Z) (count : nat)
  : Z * nat * string :=
  match s with
  | String c rest =>
      match digitOf c with
      | Some dgt => readDigits rest (10 * acc + dgt)%Z (S count)
      | None => (acc, count, s)
      end
  | EmptyString => (acc, count, s)
  end.

(** An array index, as a property name: the canonical numeral of an integer
    below [2^32 - 1]. *)
Definition isArrayIndex (s : string) : bool :=
  let '(n, count, rest) := readDigits s 0%Z 0 in
  bool_decide (rest = "") && (0 <? count) && (n <? 2 ^ 32 - 1)%Z
  && (bool_decide (s = "0")
      || match s with String c _ => negb (Ascii.eqb c "0") | _ => false end).

(** [a[i]] on an array: [undefined] out of range. *)
Definition at_ (a : list prim) (i : nat) : prim := default Undefined (a !! i).

(** [a[i] = v] on an array: inside the array the element is replaced, past
    its end the array grows, the skipped places reading [undefined]. *)
Definition assign (a : list prim) (i : nat) (v : prim) : list prim :=
  if decide (i < length a) then <[i := v]> a
  else a ++ replicate (i - length a) Undefined ++ [v].

(** [a.length = n] on an array: it is cut, or grows by places that read
    [undefined]. *)
Definition setLength (a : list prim) (n : nat) : list prim :=
  take n a ++ replicate (n - length a) Undefined.

(** [m[i]] on an array of rows, then a property read on the result: a
    [TypeError] when there is no such row. *)
Definition row (m : list (list prim)) (i : nat) : result (list prim) :=
  match m !! i with
  | Some r => Ok r
  | None => Throw TypeError
  end.

End Js.

#[global] Instance result_ret : MRet Js.result := @Js.Ok.
#[global] Instance result_bind : MBind Js.result :=
  fun A B f m => Js.bind m f.

(** ** Configuration constants (DataViz.Config.Trends) *)

Module TrendsConfig.

(** "We can only render five lines at most". *)
Definition MaxLineNumber : nat := 5.
(** One "column" is one x position of the chart. *)
Definition MaxColumnNumber : nat := 50.

End TrendsConfig.

(** ** Trends.Data.DataConvertor *)

Module DataConvertor.
Import Js TrendsConfig.

Record RawData := {
  hasHeader : bool;
  formatted : option (list (list prim));   (* [None]: null or undefined *)
  unformatted : option (list (list prim))
}.

Record PointDataOnLine := {
  originalIndex : nat;
  pformatted : prim;
  punformatted : number
}.

Record LineDataConverted := {
  validDataCount : nat;
  data : list PointDataOnLine
}.

Record BindingData := {
  header : list prim;
  xData : list prim;
  yData : option (list LineDataConverted)   (* [None]: null *)
}.

Definition emptyBindingData : BindingData :=
  {| header := []; xData := []; yData := None |}.

Section Convert.

(** The host's [parseFloat] on a string; only that it answers a number or
    [NaN] matters here. *)
Variable parseFloatString : string -> number.

(** [parseFloat(v)]: the argument is first turned into a string, so a number
    parses to itself and [undefined], [null] and booleans to [NaN]. *)
Definition parseFloat (v : prim) : number :=
  match v with
  | Num n => n
  | Str s => parseFloatString s
  | Undefined | Null | Bool _ => NaN
  end.

(** [Math.min(data.formatted[0].length - 1, MaxLineNumber)], and the number
    of turns of a loop [for (i = 0; i < lineNumber; i++)]: none when the
    bound is negative. *)
Definition lineNumberOf (row0 : list prim) : Z :=
  Z.min (Z.of_nat (length row0) - 1) (Z.of_nat MaxLineNumber).

(** The loop filling [convertedData.header]. *)
Definition fillHeader (row0 : list prim) (lineNumber : nat) : list prim :=
  foldl (fun h i => assign h i (at_ row0 (i + 1))) [] (seq 0 lineNumber).

(** The loop pushing one empty series per line. *)
Definition emptySeries (lineNumber : nat) : list LineDataConverted :=
  foldl (fun y _ => y ++ [{| validDataCount := 0; data := [] |}]) []
        (seq 0 lineNumber).

(** Body of the inner loop, for row [i] and line [j]. *)
Definition convertCell (fm un : list (list prim)) (start i : nat)
    (y : list LineDataConverted) (j : nat) : result (list LineDataConverted) :=
  urow ← row un i;
  let temp := parseFloat (at_ urow (j + 1)) in
  if isNaN temp then Ok y
  else
    match y !! j with
    | None => Throw TypeError
    | Some s =>
        frow ← row fm i;
        Ok (<[j := {| validDataCount := S (validDataCount s);
                      data := data s ++
                        [{| originalIndex := i - start;
                            pformatted := at_ frow (j + 1);
                            punformatted := temp |}] |}]> y)
    end.

(** Body of the outer loop, for row [i]. *)
Definition convertRow (fm un : list (list prim)) (start lineNumber : nat)
    (acc : list prim * list LineDataConverted) (i : nat)
  : result (list prim * list LineDataConverted) :=
  frow ← row fm i;
  let x := assign acc.1 (i - start) (at_ frow 0) in
  y ← forM (convertCell fm un start i) (seq 0 lineNumber) acc.2;
  Ok (x, y).

(** [convert(data)].  The guard [isDataValid] lets through whatever is
    neither null nor undefined, here [Some]. *)
Definition convert (d : RawData) : result BindingData :=
  match formatted d, unformatted d with
  | Some fm, Some un =>
      row0 ← row fm 0;
      let lineNumber := Z.to_nat (lineNumberOf row0) in
      let hdr := if hasHeader d then fillHeader row0 lineNumber else [] in
      let columnNumber := Nat.min (length fm) MaxColumnNumber in
      let start := if hasHeader d then 1 else 0 in
      xy ← forM (convertRow fm un start lineNumber)
                 (seq start (columnNumber - start))
                 ([], emptySeries lineNumber);
      Ok {| header := hdr; xData := xy.1; yData := Some xy.2 |}
  | _, _ => Ok emptyBindingData
  end.

End Convert.

(** A reader of plain decimal numerals (an optional minus sign, digits, an
    optional fraction), on which it agrees with [parseFloat]; it is used to
    run the conversion on concrete sheets. *)
Definition readUnsigned (s : string) : number :=
  let '(ip, ni, rest) := readDigits s 0%Z 0 in
  match rest with
  | String "."%char frac =>
      let '(fp, nf, _) := readDigits frac 0%Z 0 in
      if decide (ni + nf = 0) then NaN
      else Fin (Qred (inject_Z ip + Qmake fp (Pos.of_nat (10 ^ nf))))
  | _ => if decide (ni = 0) then NaN else Fin (inject_Z ip)
  end.

Definition negate (n : number) : number :=
  match n with
  | NaN => NaN
  | NegInf => PosInf
  | PosInf => NegInf
  | Fin q => Fin (- q)
  end.

Definition decimalNumeral (s : string) : number :=
  match s with
  | String "-"%char rest => negate (readUnsigned rest)
  | _ => readUnsigned s
  end.

End DataConvertor.


(** ** Trends.Data.Agave.DataBinder: header detection *)

Module DataBinder.
Import Js.

Section DetectHeader.

(** [Number.prototype.toString] and jQuery's [$.isNumeric] on a string. *)
Variable numberToString : number -> string.
Variable isNumeric : string -> bool.

(** [v.toString()]; a [TypeError] on [undefined] and [null]. *)
Definition toString (v : prim) : result string :=
  match v with
  | Undefined | Null => Throw TypeError
  | Bool true => Ok "true"
  | Bool false => Ok "false"
  | Num n => Ok (numberToString n)
  | Str s => Ok s
  end.

(** Body of the loop over the cells of row 0. *)
Definition detectHeaderCell (row0 : list prim) (hasHeader : bool) (i : nat)
  : result bool :=
  if isPresent (at_ row0 i) then
    stringData ← toString (at_ row0 i);
    if (0 <? String.length stringData) && isNumeric stringData
    then Ok false
    else Ok hasHeader
  else Ok hasHeader.

Definition detectHeader (data : option (list (list prim))) : result bool :=
  match data with
  | None => Throw ParameterIsNull
  | Some m =>
      row0 ← row m 0;
      forM (detectHeaderCell row0) (seq 1 (length row0 - 1)) true
  end.

(** A cell that holds a value whose text is not empty and reads as a
    number. *)
Definition numericLooking (v : prim) : bool :=
  match toString v with
  | Ok s => (0 <? String.length s) && isNumeric s
  | Throw _ => false
  end.

End DetectHeader.

End DataBinder.

(** ** DataViz.Decoration.ThemeProvider *)

Module ThemeProvider.
Import Js.

Record Theme := {
  id : string;
  sku : string;
  css : string
}.

Record t := {
  definitions : option (list Theme);   (* [None]: null, nothing loaded yet *)
  currentThemeId : value
}.

(** [new ThemeProvider]. *)
Definition create : t :=
  {| definitions := None; currentThemeId := Prim (Str "") |}.

(** The getter [Themes]: the validator throws while nothing is loaded. *)
Definition Themes (p : t) : result (list Theme) :=
  match definitions p with
  | None => Throw ParameterIsNull
  | Some d => Ok d
  end.

(** The getter [Default]: [this.Themes[0]], which is [undefined] (here
    [None]) on an empty catalog. *)
Definition Default (p : t) : result (option Theme) :=
  themes ← Themes p;
  Ok (themes !! 0).

(** [value.id === id]. *)
Definition idIs (i : value) (th : Theme) : bool :=
  match i with
  | Prim (Str s) => bool_decide (id th = s)
  | _ => false
  end.

(** [getThemeById]: the first match, or [null] (here [None]). *)
Definition getThemeById (p : t) (i : value) : result (option Theme) :=
  themes ← Themes p;
  let matched := List.filter (idIs i) themes in
  Ok (if 0 <? length matched then matched !! 0 else None).

(** The getter [CurrentTheme]. *)
Definition CurrentTheme (p : t) : result (option Theme) :=
  theme ← getThemeById p (currentThemeId p);
  match theme with
  | Some th => Ok (Some th)
  | None => Default p
  end.

End ThemeProvider.

(** ** Layouter: dragging the handle of a resizable element *)

Module Layouter.

(** What [ElementWithFixedProperties] exposes of an element.  Lengths are
    whole pixels, on which the arithmetic of doubles is exact and
    [Math.floor] is the identity. *)
Record ElementWithFixedProperties := {
  ElementMinWidth : Z;          (* min-width + non-content width + border *)
  ElementNonContentWidth : Z;   (* paddings and margins *)
  getBorderWidth : Z;
  outerWidth : Z                (* Element.outerWidth() *)
}.

Definition deviationWidth : Z := 3.

(** The outcome of one [resize] event: the two [width] arguments of the
    calls to [setWidth], for the peer and for the dragged element.  These
    are widths with paddings, margins and borders, as the minimum widths
    are; [setWidth] takes those off again before it sizes the element. *)
Record Resized := {
  peerElement1Width : Z;
  elementWidth : Z
}.

(** [onElementResize]; [body] is [Body.Element.width()], and [None] stands
    for a missing (null) layout element.  The answer is [None] when the
    function returns before any width is set. *)
Definition onElementResize (body : option Z)
    (element : option ElementWithFixedProperties)
    (elementWidth0 elementOriginWidth0 : Z)
    (peerElement1 peerElement2 : option ElementWithFixedProperties)
  : option Resized :=
  match body, element, peerElement1 with
  | Some bodyWidth, Some el, Some peer1 =>
      let bodyWidthNoPadding := (bodyWidth - deviationWidth)%Z in
      let peerElement2Width :=
        match peerElement2 with Some p2 => outerWidth p2 | None => 0%Z end in
      let extra := (ElementNonContentWidth el + getBorderWidth el)%Z in
      let width := (elementWidth0 + extra)%Z in
      let originWidth := (elementOriginWidth0 + extra)%Z in
      let finish (w : Z) :=
        Some {| peerElement1Width :=
                  (bodyWidthNoPadding - w - peerElement2Width)%Z;
                elementWidth := w |} in
      if (originWidth <? width)%Z then
        let maxWidth :=
          (bodyWidthNoPadding - ElementMinWidth peer1 - peerElement2Width)%Z in
        finish (if (width <? maxWidth)%Z then width else maxWidth)
      else if (originWidth =? ElementMinWidth el)%Z then None
      else
        finish (if (ElementMinWidth el <? width)%Z then width
                else ElementMinWidth el)
  | _, _, _ => None
  end.

End Layouter.

(** ** DataViz.Config.Configuration, its Trends configurator and the timers
       of the host *)

Module Configuration.
Import Js.

(** The listeners registered on the configuration.  [Observer] stands for a
    listener whose handler leaves the configuration store and the timers
    alone (the data convertor's handler, for one, is empty). *)
Inductive listener : Type :=
  | TheConfigurator
  | TheThemeProvider
  | Observer (n : nat).

#[global] Instance listener_eq_dec : EqDecision listener.
Proof. solve_decision. Defined.

(** What happened, in order: a value stored, a listener called, a value
    saved to the document ([settings.set] then [saveAsync]). *)
Inductive event : Type :=
  | Written (key : string) (v : value)
  | Notified (l : listener) (key : string) (v : value)
  | Saved (key : string) (v : value).

(** A pending [setTimeout] of [delaySet]: its callback stores [tvalue] under
    [tkey]. *)
Record Timer := {
  tid : positive;
  due : nat;
  tkey : string;
  tvalue : value
}.

(** What the script leaves to the engine it runs in, and the model leaves
    open: the theorems hold whatever these two are. *)
Record Host := {
  (* [ToNumber] on a string, read only by an assignment to [length] *)
  stringToNumber : string -> number;
  (* [Array.prototype[name]], through [Object.prototype]: what an array
     hands down under a name it has no property of its own for;
     [undefined] for the names the prototypes do not hold *)
  inheritedByArrays : string -> value
}.

(** [this.settings] is an array that serves as a dictionary: its properties
    other than [length] are [settings], and [settingsLength] and
    [settingsProto] are its length and its prototype.  [this.delaySetTimeOutIDs]
    is a plain object: its properties are [delaySetTimeOutIDs], and
    [timeOutIDsProto] tells whether it still has its prototype. *)
Record World := {
  settings : gmap string value;          (* Configuration.settings *)
  keys : list string;                    (* Configuration.keys *)
  changeListeners : list listener;
  delaySetTimeOutIDs : gmap string (option positive);  (* [Some None]: null *)
  reentryFlag : bool;                    (* Configurator.reentryFlag *)
  documentSettings : option (gmap string value);
                                         (* Office.context.document.settings *)
  themeProvider : ThemeProvider.t;
  timers : list Timer;
  now : nat;
  nextTimerId : positive;
  trace : list event;
  settingsLength : nat;                  (* Configuration.settings.length *)
  settingsProto : option (list prim);    (* [None]: Array.prototype *)
  timeOutIDsProto : bool;                (* [true]: Object.prototype *)
  host : Host
}.

Definition withSettings (f : gmap string value -> gmap string value)
    (w : World) : World :=
  {| settings := f (settings w); keys := keys w;
     changeListeners := changeListeners w;
     delaySetTimeOutIDs := delaySetTimeOutIDs w;
     reentryFlag := reentryFlag w; documentSettings := documentSettings w;
     themeProvider := themeProvider w; timers := timers w; now := now w;
     nextTimerId := nextTimerId w; trace := trace w;
     settingsLength := settingsLength w; settingsProto := settingsProto w;
     timeOutIDsProto := timeOutIDsProto w; host := host w |}.

Definition withChangeListeners (f : list listener -> list listener)
    (w : World) : World :=
  {| settings := settings w; keys := keys w;
     changeListeners := f (changeListeners w);
     delaySetTimeOutIDs := delaySetTimeOutIDs w;
     reentryFlag := reentryFlag w; documentSettings := documentSettings w;
     themeProvider := themeProvider w; timers := timers w; now := now w;
     nextTimerId := nextTimerId w; trace := trace w;
     settingsLength := settingsLength w; settingsProto := settingsProto w;
     timeOutIDsProto := timeOutIDsProto w; host := host w |}.

Definition withTimeOutIDs
    (f : gmap string (option positive) -> gmap string (option positive))
    (w : World) : World :=
  {| settings := settings w; keys := keys w;
     changeListeners := changeListeners w;
     delaySetTimeOutIDs := f (delaySetTimeOutIDs w);
     reentryFlag := reentryFlag w; documentSettings := documentSettings w;
     themeProvider := themeProvider w; timers := timers w; now := now w;
     nextTimerId := nextTimerId w; trace := trace w;
     settingsLength := settingsLength w; settingsProto := settingsProto w;
     timeOutIDsProto := timeOutIDsProto w; host := host w |}.

Definition withReentryFlag (b : bool) (w : World) : World :=
  {| settings := settings w; keys := keys w;
     changeListeners := changeListeners w;
     delaySetTimeOutIDs := delaySetTimeOutIDs w; reentryFlag := b;
     documentSettings := documentSettings w;
     themeProvider := themeProvider w; timers := timers w; now := now w;
     nextTimerId := nextTimerId w; trace := trace w;
     settingsLength := settingsLength w; settingsProto := settingsProto w;
     timeOutIDsProto := timeOutIDsProto w; host := host w |}.

Definition withDocumentSettings (d : option (gmap string value))
    (w : World) : World :=
  {| settings := settings w; keys := keys w;
     changeListeners := changeListeners w;
     delaySetTimeOutIDs := delaySetTimeOutIDs w;
     reentryFlag := reentryFlag w; documentSettings := d;
     themeProvider := themeProvider w; timers := timers w; now := now w;
     nextTimerId := nextTimerId w; trace := trace w;
     settingsLength := settingsLength w; settingsProto := settingsProto w;
     timeOutIDsProto := timeOutIDsProto w; host := host w |}.

Definition withThemeProvider (p : ThemeProvider.t) (w : World) : World :=
  {| settings := settings w; keys := keys w;
     changeListeners := changeListeners w;
     delaySetTimeOutIDs := delaySetTimeOutIDs w;
     reentryFlag := reentryFlag w; documentSettings := documentSettings w;
     themeProvider := p; timers := timers w; now := now w;
     nextTimerId := nextTimerId w; trace := trace w;
     settingsLength := settingsLength w; settingsProto := settingsProto w;
     timeOutIDsProto := timeOutIDsProto w; host := host w |}.

Definition withTimers (f : list Timer -> list Timer) (w : World) : World :=
  {| settings := settings w; keys := keys w;
     changeListeners := changeListeners w;
     delaySetTimeOutIDs := delaySetTimeOutIDs w;
     reentryFlag := reentryFlag w; documentSettings := documentSettings w;
     themeProvider := themeProvider w; timers := f (timers w); now := now w;
     nextTimerId := nextTimerId w; trace := trace w;
     settingsLength := settingsLength w; settingsProto := settingsProto w;
     timeOutIDsProto := timeOutIDsProto w; host := host w |}.

Definition withNow (t : nat) (w : World) : World :=
  {| settings := settings w; keys := keys w;
     changeListeners := changeListeners w;
     delaySetTimeOutIDs := delaySetTimeOutIDs w;
     reentryFlag := reentryFlag w; documentSettings := documentSettings w;
     themeProvider := themeProvider w; timers := timers w; now := t;
     nextTimerId := nextTimerId w; trace := trace w;
     settingsLength := settingsLength w; settingsProto := settingsProto w;
     timeOutIDsProto := timeOutIDsProto w; host := host w |}.

Definition withNextTimerId (i : positive) (w : World) : World :=
  {| settings := settings w; keys := keys w;
     changeListeners := changeListeners w;
     delaySetTimeOutIDs := delaySetTimeOutIDs w;
     reentryFlag := reentryFlag w; documentSettings := documentSettings w;
     themeProvider := themeProvider w; timers := timers w; now := now w;
     nextTimerId := i; trace := trace w; settingsLength := settingsLength w;
     settingsProto := settingsProto w; timeOutIDsProto := timeOutIDsProto w;
     host := host w |}.

Definition record (e : event) (w : World) : World :=
  {| settings := settings w; keys := keys w;
     changeListeners := changeListeners w;
     delaySetTimeOutIDs := delaySetTimeOutIDs w;
     reentryFlag := reentryFlag w; documentSettings := documentSettings w;
     themeProvider := themeProvider w; timers := timers w; now := now w;
     nextTimerId := nextTimerId w; trace := trace w ++ [e];
     settingsLength := settingsLength w; settingsProto := settingsProto w;
     timeOutIDsProto := timeOutIDsProto w; host := host w |}.

Definition withSettingsLength (n : nat) (w : World) : World :=
  {| settings := settings w; keys := keys w;
     changeListeners := changeListeners w;
     delaySetTimeOutIDs := delaySetTimeOutIDs w;
     reentryFlag := reentryFlag w; documentSettings := documentSettings w;
     themeProvider := themeProvider w; timers := timers w; now := now w;
     nextTimerId := nextTimerId w; trace := trace w; settingsLength := n;
     settingsProto := settingsProto w; timeOutIDsProto := timeOutIDsProto w;
     host := host w |}.

Definition withSettingsProto (p : option (list prim)) (w : World) : World :=
  {| settings := settings w; keys := keys w;
     changeListeners := changeListeners w;
     delaySetTimeOutIDs := delaySetTimeOutIDs w;
     reentryFlag := reentryFlag w; documentSettings := documentSettings w;
     themeProvider := themeProvider w; timers := timers w; now := now w;
     nextTimerId := nextTimerId w; trace := trace w;
     settingsLength := settingsLength w; settingsProto := p;
     timeOutIDsProto := timeOutIDsProto w; host := host w |}.

Definition withTimeOutIDsProto (b : bool) (w : World) : World :=
  {| settings := settings w; keys := keys w;
     changeListeners := changeListeners w;
     delaySetTimeOutIDs := delaySetTimeOutIDs w;
     reentryFlag := reentryFlag w; documentSettings := documentSettings w;
     themeProvider := themeProvider w; timers := timers w; now := now w;
     nextTimerId := nextTimerId w; trace := trace w;
     settingsLength := settingsLength w; settingsProto := settingsProto w;
     timeOutIDsProto := b; host := host w |}.

(** A method: it runs from a world and ends, normally or by an exception,
    in the world reached so far. *)
Definition M (A : Type) : Type := World -> result A * World.

Definition ret {A} (a : A) : M A := fun w => (Ok a, w).
Definition raise {A} (e : error) : M A := fun w => (Throw e, w).
Definition bindM {A B} (m : M A) (f : A -> M B) : M B :=
  fun w =>
    match m w with
    | (Ok a, w') => f a w'
    | (Throw e, w') => (Throw e, w')
    end.
Definition modify (f : World -> World) : M unit := fun w => (Ok tt, f w).

(** [array.forEach(body)]. *)
Fixpoint forEach {I} (body : I -> M unit) (l : list I) : M unit :=
  match l with
  | [] => ret tt
  | i :: rest => bindM (body i) (fun _ => forEach body rest)
  end.

Notation "m1 >> m2" := (bindM m1 (fun _ => m2))
  (at level 62, right associativity).

(** [Configurator.save]: nothing happens without document settings. *)
Definition save (key : string) (v : value) : M unit := fun w =>
  match documentSettings w with
  | Some d =>
      (Ok tt,
       record (Saved key v) (withDocumentSettings (Some (<[key := v]> d)) w))
  | None => (Ok tt, w)
  end.

(** [Configurator.onConfigurationChanged]. *)
Definition configuratorChanged (key : string) (v : value) : M unit := fun w =>
  if reentryFlag w then (Ok tt, w) else save key v w.

(** [ThemeProvider.onConfigurationChanged]: the key must not be empty and
    the value not null; the theme key moves the current theme. *)
Definition themeProviderChanged (key : string) (v : value) : M unit :=
  fun w =>
    if bool_decide (key = "") then (Throw ParameterIsEmpty, w)
    else if negb (notNull v) then (Throw ParameterIsNull, w)
    else if bool_decide (key = "theme") then
      (Ok tt,
       withThemeProvider
         {| ThemeProvider.definitions :=
              ThemeProvider.definitions (themeProvider w);
            ThemeProvider.currentThemeId := v |} w)
    else (Ok tt, w).

Definition onConfigurationChanged (l : listener) (key : string) (v : value)
  : M unit :=
  modify (record (Notified l key v)) >>
  match l with
  | TheConfigurator => configuratorChanged key v
  | TheThemeProvider => themeProviderChanged key v
  | Observer _ => ret tt
  end.

(** *** The array of the settings *)

(** The index that an array-index property name stands for. *)
Definition indexOfKey (key : string) : nat :=
  Z.to_nat (readDigits key 0%Z 0).1.1.

(** A number as the length of an array: an integer from 0 to 2^32 - 1;
    [None] for any other number. *)
Definition asArrayLength (n : number) : option nat :=
  match n with
  | Fin q =>
      let d := Z.pos (Qden q) in
      if ((Qnum q mod d =? 0) && (0 <=? Qnum q)
          && (Qnum q / d <=? 2 ^ 32 - 1))%Z
      then Some (Z.to_nat (Qnum q / d))
      else None
  | _ => None
  end.

(** [ToNumber(v)].  An array is first turned into text, its elements joined
    by commas, [null] and [undefined] giving no text; the empty text is 0,
    and a text with a comma, [true] and [false] are no numerals. *)
Definition toNumber (h : Host) (v : value) : number :=
  match v with
  | Prim Undefined => NaN
  | Prim Null => ofZ 0
  | Prim (Bool b) => ofZ (if b then 1 else 0)
  | Prim (Num n) => n
  | Prim (Str s) => stringToNumber h s
  | Arr [] => ofZ 0
  | Arr [Undefined] | Arr [Null] => ofZ 0
  | Arr [Bool _] => NaN
  | Arr [Num n] => n
  | Arr [Str s] => stringToNumber h s
  | Arr (_ :: _ :: _) => NaN
  end.

(** [array.length = n] on the settings: the array-index properties from [n]
    on are deleted. *)
Definition cutSettings (n : nat) (w : World) : World :=
  withSettingsLength n
    (withSettings
       (filter (fun kv => isArrayIndex kv.1 = false \/ indexOfKey kv.1 < n))
       w).

(** [array[key] = v] for a key that is neither [length] nor [__proto__]: the
    array gets the property, or a new value for it, and grows to hold an
    array index. *)
Definition storeSetting (key : string) (v : value) (w : World) : World :=
  withSettingsLength
    (if isArrayIndex key
     then Nat.max (settingsLength w) (S (indexOfKey key))
     else settingsLength w)
    (withSettings <[key := v]> w).

(** [this.settings[key] = value], for a value that is not null.  Under
    [length] the value has to be a length, to which the array is cut, or
    the assignment throws.  Under [__proto__] the setter of
    [Object.prototype] makes an object the prototype of the array and does
    nothing with a primitive: no property is stored. *)
Definition assignSetting (key : string) (v : value) : M unit := fun w =>
  if bool_decide (key = "length") then
    match asArrayLength (toNumber (host w) v) with
    | Some n =>
        (Ok tt,
         record (Written key (Prim (Num (ofZ (Z.of_nat n)))))
           (cutSettings n w))
    | None => (Throw RangeError, w)
    end
  else if bool_decide (key = "__proto__") then
    match v with
    | Arr a => (Ok tt, withSettingsProto (Some a) w)
    | Prim _ => (Ok tt, w)
    end
  else (Ok tt, record (Written key v) (storeSetting key v w)).

(** What the array hands down under a key it has no property of its own
    for: an element of the array that was made its prototype, or what
    [Array.prototype] holds. *)
Definition inheritedSetting (key : string) (w : World) : value :=
  match settingsProto w with
  | Some a =>
      if isArrayIndex key && (indexOfKey key <? length a)
      then Prim (at_ a (indexOfKey key))
      else inheritedByArrays (host w) key
  | None => inheritedByArrays (host w) key
  end.

(** [Configuration.set(key, value, notifyListeners)]; a call that leaves
    the third argument out passes [true]. *)
Definition set (key : string) (v : value) (notifyListeners : bool) : M unit :=
  fun w =>
    if negb (notNull v) then (Throw ParameterIsNull, w)
    else
      (assignSetting key v
       >> if notifyListeners
          then fun w' =>
                 forEach (fun l => onConfigurationChanged l key v)
                         (changeListeners w') w'
          else ret tt) w.

(** [Configuration.get(key)], which is [this.settings[key]]: the length of
    the array, its prototype, a property of its own or what it hands
    down. *)
Definition get (key : string) (w : World) : value :=
  if bool_decide (key = "length") then
    Prim (Num (ofZ (Z.of_nat (settingsLength w))))
  else if bool_decide (key = "__proto__") then
    match settingsProto w with
    | Some a => Arr a
    | None => inheritedByArrays (host w) key
    end
  else default (inheritedSetting key w) (settings w !! key).

(** [Configuration.registerListener]. *)
Definition registerListener (l : listener) (w : World) : World :=
  if bool_decide (l ∈ changeListeners w) then w
  else withChangeListeners (fun ls => ls ++ [l]) w.

(** [new Configuration(keys, configurator)] in a host, before anything
    ran. *)
Definition create (h : Host) (ks : list string)
    (doc : option (gmap string value)) : World :=
  {| settings := ∅; keys := ks; changeListeners := [TheConfigurator];
     delaySetTimeOutIDs := ∅; reentryFlag := false; documentSettings := doc;
     themeProvider := ThemeProvider.create; timers := []; now := 0;
     nextTimerId := 1%positive; trace := [];
     settingsLength := 0; settingsProto := None; timeOutIDsProto := true;
     host := h |}.

(** [Configuration.clear]: [this.settings.length = 0] on the array that
    serves as the dictionary removes its array-index properties only. *)
Definition clear : M unit := modify (cutSettings 0).

(** Body of the loop of [Configurator.loadAll]. *)
Definition loadKey (key : string) : M unit := fun w =>
  match documentSettings w with
  | None => (Throw TypeError, w)
  | Some d =>
      match d !! key with
      | Some v => if notNull v then set key v true w else (Ok tt, w)
      | None => (Ok tt, w)
      end
  end.

(** [Configurator.loadAll(configuration)], to which
    [Configuration.loadAll] delegates. *)
Definition loadAll : M unit := fun w =>
  match documentSettings w with
  | None => (Ok tt, w)
  | Some _ =>
      (clear >> modify (withReentryFlag true) >>
       forEach loadKey (keys w) >> modify (withReentryFlag false)) w
  end.

(** *** Timers *)

(** [clearTimeout(id)]. *)
Definition clearTimeout (i : positive) : World -> World :=
  withTimers (filter (fun x => tid x ≠ i)).

(** [setTimeout(callback, delay)] for the callback of [delaySet]; timer ids
    are positive, hence truthy. *)
Definition setTimeout (key : string) (v : value) (delay : nat) (w : World)
  : positive * World :=
  let i := nextTimerId w in
  (i, withNextTimerId (Pos.succ i)
        (withTimers
           (fun q => q ++ [{| tid := i; due := now w + delay;
                              tkey := key; tvalue := v |}]) w)).

(** Whether [key] is [__proto__] on an object that has its prototype: a
    read gives the prototype and a write goes to the setter of
    [Object.prototype]. *)
Definition isProtoOfTimeOutIDs (key : string) (w : World) : bool :=
  bool_decide (key = "__proto__") && timeOutIDsProto w.

(** [this.delaySetTimeOutIDs[key]], for [if (...) clearTimeout(...)]: the
    timer id found there, if any.  What the prototype hands down, or the
    prototype itself under [__proto__], is truthy but no id of a timer, and
    [clearTimeout] does nothing with it. *)
Definition recordedTimer (key : string) (w : World) : option positive :=
  if isProtoOfTimeOutIDs key w then None
  else
    match delaySetTimeOutIDs w !! key with
    | Some (Some i) => Some i
    | _ => None
    end.

(** [this.delaySetTimeOutIDs[key] = x] for a timer id or [null].  Under
    [__proto__] the setter does nothing with an id, which is a number, and
    takes the prototype away on [null]; from then on [__proto__] is a key
    like the others. *)
Definition recordTimer (key : string) (x : option positive) (w : World)
  : World :=
  if isProtoOfTimeOutIDs key w then
    match x with
    | Some _ => w
    | None => withTimeOutIDsProto false w
    end
  else withTimeOutIDs <[key := x]> w.

(** [Configuration.delaySet(key, value, delay)]. *)
Definition delaySet (key : string) (v : value) (delay : nat) (w : World)
  : World :=
  let w1 :=
    match recordedTimer key w with
    | Some i => clearTimeout i w
    | None => w
    end in
  let '(i, w2) := setTimeout key v delay w1 in
  recordTimer key (Some i) w2.

(** The callback [delaySet] hands to [setTimeout]. *)
Definition delaySetCallback (key : string) (v : value) : M unit :=
  set key v true >> modify (recordTimer key None).

(** The event loop runs a callback; an exception leaving it ends that
    callback only. *)
Definition fire (x : Timer) (w : World) : World :=
  (delaySetCallback (tkey x) (tvalue x) w).2.

(** Timers fire by due time, and in the order of their creation when due
    together. *)
Definition firesBefore (a b : Timer) : Prop :=
  due a < due b ∨ (due a = due b ∧ (tid a <= tid b)%positive).

#[global] Instance firesBefore_dec : RelDecision firesBefore.
Proof. intros a b. unfold firesBefore. apply _. Defined.

(** Time passes until [t]: every timer due by then fires. *)
Definition advance (t : nat) (w : World) : World :=
  let ready := merge_sort firesBefore (filter (fun x => due x <= t) (timers w)) in
  let w0 := withTimers (filter (fun x => t < due x)) w in
  withNow (Nat.max (now w) t) (foldl (fun w x => fire x w) w0 ready).

End Configuration.

(** ** DataViz.Config.Trends: the resets of the per-line chart state *)

Module Trends.
Import Js TrendsConfig Configuration.

Definition clickedPointIdArray : string := "clicked-pointid-array".
Definition lineOrder : string := "line-order".
Definition lineDisplay : string := "line-display".
Definition lineTitleArray : string := "line-title-array".
Definition isLegendEdited : string := "is-legend-edited".

Section Resets.

(** [stringFormat(Resources.UI.defaultLegendName, n)]: the localized default
    title of line [n]; the resource string is not part of the script. *)
Variable defaultLegendName : nat -> string.

Definition resetClickedPointIdArrays : M unit :=
  set clickedPointIdArray (Arr []) true.

Definition resetLineOrder : M unit :=
  let tempLineOrder :=
    foldl (fun a i => assign a i (Num (ofZ (Z.of_nat i)))) []
          (seq 0 MaxLineNumber) in
  set lineOrder (Arr tempLineOrder) true.

Definition resetLineDisplay : M unit :=
  let tempLineDisplay :=
    foldl (fun a i => assign a i (Bool true)) [] (seq 0 MaxLineNumber) in
  set lineDisplay (Arr tempLineDisplay) true.

Definition resetLineTitleArray : M unit :=
  let tempLineTitleArray :=
    foldl (fun a i => assign a i (Str (defaultLegendName (i + 1)))) []
          (seq 0 MaxLineNumber) in
  set lineTitleArray (Arr tempLineTitleArray) true >>
  set isLegendEdited (Prim (Bool false)) true.

End Resets.

End Trends.

(** ** Trends.Chart.LineChartPlotter *)

Module LineChartPlotter.
Import Js TrendsConfig DataConvertor Configuration.

Record Plotter := {
  bindingData : option BindingData;   (* [None]: not set yet *)
  lineNumber : nat;
  columnNumber : nat;
  max : option number;                (* [None]: not set yet *)
  min : option number
}.

(** *** The range of the y axis *)

(** [data[j].unformatted], a [TypeError] when there is no [data[j]]. *)
Definition pointAt (s : LineDataConverted) (j : nat) : result PointDataOnLine :=
  match data s !! j with
  | Some pt => Ok pt
  | None => Throw TypeError
  end.

(** Body of the inner loop of [setMaxAndMin].  The state is [None] while
    [isFirstNumber] holds, and then the pair of [this.max] and [this.min]:
    the first number overwrites both fields before they are read. *)
Definition maxMinStep (s : LineDataConverted)
    (st : option (number * number)) (j : nat)
  : result (option (number * number)) :=
  pt ← pointAt s j;
  let temp := punformatted pt in
  let '(mx, mn) := match st with None => (temp, temp) | Some mm => mm end in
  Ok (Some (mathMax mx temp, mathMin mn temp)).

(** Body of the outer loop: a line that is not there is skipped. *)
Definition maxMinLine (y : list LineDataConverted)
    (st : option (number * number)) (i : nat)
  : result (option (number * number)) :=
  match y !! i with
  | Some s => forM (maxMinStep s) (seq 0 (validDataCount s)) st
  | None => Ok st
  end.

(** The branches after the loops, giving [(max, min)]. *)
Definition settle (st : option (number * number)) : number * number :=
  match st with
  | None => (ofZ 1, ofZ 0)
  | Some (mx, mn) =>
      if eqb mn mx then
        if gtb mn (ofZ 0) then (mx, ofZ 0)
        else if ltb mn (ofZ 0) then (ofZ 0, mn)
        else (mx, ofZ (-1))
      else (mx, mn)
  end.

(** [this.bindingData.yData], read once the loop over the lines is
    entered. *)
Definition linesOf (p : Plotter) : result (list LineDataConverted) :=
  match bindingData p with
  | Some bd =>
      match yData bd with
      | Some y => Ok y
      | None => Throw TypeError
      end
  | None => Throw TypeError
  end.

Definition setMaxAndMin (p : Plotter) : result Plotter :=
  st ← match lineNumber p with
       | 0 => Ok None
       | _ => y ← linesOf p;
              forM (maxMinLine y) (seq 0 (lineNumber p)) None
       end;
  let '(mx, mn) := settle st in
  Ok {| bindingData := bindingData p; lineNumber := lineNumber p;
        columnNumber := columnNumber p; max := Some mx; min := Some mn |}.

(** *** Percentages *)

(** [s.lastIndexOf("%") !== -1]. *)
Fixpoint hasPercent (s : string) : bool :=
  match s with
  | EmptyString => false
  | String c rest => Ascii.eqb c "%" || hasPercent rest
  end.

(** Body of the counting loop; [lastIndexOf] is a method of strings
    only. *)
Definition countStep (s : LineDataConverted) (count : nat) (j : nat)
  : result nat :=
  pt ← pointAt s j;
  match pformatted pt with
  | Str f => Ok (if hasPercent f then S count else count)
  | _ => Throw TypeError
  end.

(** The loop over the lines, which returns [false] at the first line that
    fails the test; [count < j / 2] is [2 * count < j]. *)
Fixpoint percentageLines (y : list LineDataConverted) (idx : list nat)
  : result bool :=
  match idx with
  | [] => Ok true
  | i :: rest =>
      match y !! i with
      | Some s =>
          count ← forM (countStep s) (seq 0 (validDataCount s)) 0;
          if (2 * count <? validDataCount s) || (count =? 0)
          then Ok false
          else percentageLines y rest
      | None => percentageLines y rest
      end
  end.

Definition isPercentageFormat (p : Plotter) : result bool :=
  match lineNumber p with
  | 0 => Ok true
  | _ => y ← linesOf p;
         percentageLines y (seq 0 (lineNumber p))
  end.

(** *** Reconciling the stored per-line state with new data *)

Section Reconcile.

Variable defaultLegendName : nat -> string.

(** [onDataChanged(newData)]; reading [.length] of a null [yData]
    throws. *)
Definition onDataChanged (p : Plotter) (newData : option BindingData)
  : M unit :=
  match bindingData p, newData with
  | Some old, Some new =>
      (if bool_decide (length (xData new) ≠ length (xData old))
       then Trends.resetClickedPointIdArrays else ret tt) >>
      match yData new, yData old with
      | Some yn, Some yo =>
          if bool_decide (length yn ≠ length yo) then
            Trends.resetClickedPointIdArrays >>
            Trends.resetLineOrder >>
            Trends.resetLineDisplay >>
            Trends.resetLineTitleArray defaultLegendName
          else ret tt
      | _, _ => raise TypeError
      end
  | _, _ => ret tt
  end.

(** [this.isLegendEdited], which [initData] reads and sets to [false] when it
    is missing. *)
Definition readLegendEdited : M value := fun w =>
  let v := get Trends.isLegendEdited w in
  if notNull v then (Ok v, w)
  else (set Trends.isLegendEdited (Prim (Bool false)) true >>
        ret (Prim (Bool false))) w.

(** [if (!configuration.get(key)) reset()]. *)
Definition resetUnlessSaved (key : string) (reset : M unit) : M unit :=
  fun w => if truthy (get key w) then (Ok tt, w) else reset w.

(** [this.lineOrder.length = n], where the field holds the very array the
    configuration stores under [key]: the stored array changes with it, and
    no listener hears of it.  On [null] and [undefined] the assignment
    throws; on another primitive it does nothing, the plotter not being in
    strict mode. *)
Definition resizeStored (key : string) (n : nat) : M unit := fun w =>
  match get key w with
  | Arr a => (Ok tt, withSettings <[key := Arr (setLength a n)]> w)
  | Prim Undefined | Prim Null => (Throw TypeError, w)
  | Prim _ => (Ok tt, w)
  end.

Definition liftResult {A} (r : result A) : M A := fun w => (r, w).

(** [initData(convertedData)], up to the reads of the size of the chart. *)
Definition initData (p : Plotter) (convertedData : BindingData) : M Plotter :=
  match yData convertedData with
  | None => ret p
  | Some y =>
      bindM readLegendEdited (fun edited =>
      (if negb (truthy edited) && (0 <? length (header convertedData))
       then set Trends.lineTitleArray (Arr (header convertedData)) true
       else ret tt) >>
      resetUnlessSaved Trends.clickedPointIdArray
        Trends.resetClickedPointIdArrays >>
      resetUnlessSaved Trends.lineOrder Trends.resetLineOrder >>
      resetUnlessSaved Trends.lineDisplay Trends.resetLineDisplay >>
      resetUnlessSaved Trends.lineTitleArray
        (Trends.resetLineTitleArray defaultLegendName) >>
      resizeStored Trends.lineOrder (length y) >>
      resizeStored Trends.lineDisplay (length y) >>
      liftResult
        (setMaxAndMin
           {| bindingData := Some convertedData; lineNumber := length y;
              columnNumber := length (xData convertedData);
              max := max p; min := min p |}))
  end.

(** [plot(data)], up to the drawing. *)
Definition plot (p : Plotter) (data : option BindingData) : M Plotter :=
  match data with
  | None => ret p
  | Some d =>
      if 0 <? length (xData d) then
        match yData d with
        | None => raise TypeError
        | Some y =>
            if 0 <? length y
            then onDataChanged p data >> initData p d
            else ret p
        end
      else ret p
  end.

End Reconcile.

End LineChartPlotter.

(** ** What the claims say, as predicates *)

Module Spec.
Import Js DataConvertor.

(** A series counts exactly the points it stores, none of them holds [NaN],
    and their row indices increase strictly. *)
Definition seriesInvariant (s : LineDataConverted) : Prop :=
  validDataCount s = length (data s)
  /\ Forall (fun pt => isNaN (punformatted pt) = false) (data s)
  /\ StronglySorted lt (originalIndex <$> data s).

(** The same, with every row index below [b]. *)
Definition seriesBelow (b : nat) (s : LineDataConverted) : Prop :=
  seriesInvariant s /\ Forall (fun pt => originalIndex pt < b) (data s).

(** The inner loop at row [i]: the lines already visited hold the point of
    this row, the others do not yet. *)
Definition cellInvariant (n b j : nat) (y : list LineDataConverted) : Prop :=
  length y = n
  /\ forall k s, y !! k = Some s ->
       seriesBelow (if decide (k < j) then S b else b) s.

(** The outer loop, before row [i]: the chart has at most [i - start]
    columns and every series lies below [i - start]. *)
Definition rowInvariant (n start i : nat)
    (acc : list prim * list LineDataConverted) : Prop :=
  length acc.1 <= i - start
  /\ length acc.2 = n
  /\ Forall (seriesBelow (i - start)) acc.2.

(** *** Traces of the configuration *)

(** The key an event is about. *)
Definition keyOf (e : Configuration.event) : string :=
  match e with
  | Configuration.Written k _
  | Configuration.Notified _ k _
  | Configuration.Saved k _ => k
  end.

(** The events about one key, and the timers pending for it. *)
Definition eventsAbout (k : string) (evs : list Configuration.event)
  : list Configuration.event :=
  filter (fun e => keyOf e = k) evs.

Definition pendingFor (k : string) (w : Configuration.World)
  : list Configuration.Timer :=
  filter (fun x => Configuration.tkey x = k) (Configuration.timers w).

Definition isSaved (e : Configuration.event) : bool :=
  match e with Configuration.Saved _ _ => true | _ => false end.

Definition hasDocument (w : Configuration.World) : bool :=
  match Configuration.documentSettings w with
  | Some _ => true
  | None => false
  end.

(** A change reaches the document: the configurator is not loading and the
    host has document settings. *)
Definition persists (w : Configuration.World) : bool :=
  negb (Configuration.reentryFlag w) && hasDocument w.

(** What one call of a listener leaves in the trace. *)
Definition listenerEvents (persist : bool) (k : string) (v : value)
    (l : Configuration.listener) : list Configuration.event :=
  Configuration.Notified l k v
  :: match l with
     | Configuration.TheConfigurator =>
         if persist then [Configuration.Saved k v] else []
     | _ => []
     end.

(** What one notifying [set] leaves in the trace when no listener throws:
    one write, then every listener once, in the order of registration. *)
Definition setEvents (ls : list Configuration.listener) (persist : bool)
    (k : string) (v : value) : list Configuration.event :=
  Configuration.Written k v :: flat_map (listenerEvents persist k v) ls.

(** The part of the world that neither [set] nor a listener touches. *)
Definition skeleton (w : Configuration.World) :=
  (Configuration.keys w, Configuration.changeListeners w,
   Configuration.reentryFlag w, Configuration.delaySetTimeOutIDs w,
   Configuration.timers w, Configuration.now w,
   Configuration.nextTimerId w, hasDocument w,
   Configuration.timeOutIDsProto w, Configuration.host w).

(** The array of the settings, which no listener touches. *)
Definition store (w : Configuration.World) :=
  (Configuration.settings w, Configuration.settingsLength w,
   Configuration.settingsProto w).

(** A key under which the array of the settings holds a property like any
    other: [length] is the length of the array, and [__proto__] its
    prototype. *)
Definition settingKey (k : string) : Prop :=
  k <> "length" /\ k <> "__proto__".

#[global] Instance settingKey_dec (k : string) : Decision (settingKey k).
Proof. unfold settingKey. apply _. Defined.

(** Nothing pending can cut the property [k] off the array of the
    settings: [k] is no array index, or no delayed write of the length is
    pending. *)
Definition keptBy (k : string) (w : Configuration.World) : Prop :=
  isArrayIndex k = false \/ pendingFor "length" w = [].

(** At most one timer is pending for [k], and it is the one that
    [delaySetTimeOutIDs] records for [k]. *)
Definition tracked (k : string) (w : Configuration.World) : Prop :=
  match pendingFor k w with
  | [] => True
  | [x] => Configuration.delaySetTimeOutIDs w !! k
           = Some (Some (Configuration.tid x))
  | _ => False
  end.

(** The part of the world that no timer callback touches. *)
Definition stage (w : Configuration.World) :=
  (Configuration.changeListeners w, persists w, Configuration.timers w,
   Configuration.now w, Configuration.nextTimerId w, Configuration.host w).

(** What [loadAll] leaves in the trace for one key. *)
Definition loadEvents (ls : list Configuration.listener)
    (host : gmap string value) (k : string) : list Configuration.event :=
  match host !! k with
  | Some v => if notNull v then setEvents ls false k v else []
  | None => []
  end.

(** The length of the array stored under a key, if an array is stored
    there. *)
Definition storedLength (key : string) (w : Configuration.World)
  : option nat :=
  match Configuration.get key w with
  | Arr a => Some (length a)
  | Prim _ => None
  end.

(** The points the loops of the plotter visit: those of the first
    [lineNumber] lines, line after line. *)
Definition pointsRead (n : nat) (y : list LineDataConverted)
  : list PointDataOnLine :=
  flat_map data (take n y).

(** One more number taken into the running maximum and minimum. *)
Definition maxMinAcc (st : option (number * number)) (t : number)
  : option (number * number) :=
  let '(mx, mn) := match st with None => (t, t) | Some mm => mm end in
  Some (mathMax mx t, mathMin mn t).

Definition accPoint (st : option (number * number)) (pt : PointDataOnLine)
  : option (number * number) :=
  maxMinAcc st (punformatted pt).

(** [a <= b] on numbers that are not [NaN]. *)
Definition numLe (a b : number) : Prop :=
  cmp a b = Some Lt \/ cmp a b = Some Eq.

(** How many of the points have a [%] in their formatted text. *)
Definition percentCount (pts : list PointDataOnLine) : nat :=
  length (List.filter
            (fun pt => match pformatted pt with
                       | Str f => LineChartPlotter.hasPercent f
                       | _ => false
                       end) pts).

(** The formatted text of every point is a string. *)
Definition formattedAsText (s : LineDataConverted) : Prop :=
  Forall (fun pt => exists f, pformatted pt = Str f) (data s).

(** The test a line has to pass: its formatted values are text and at least
    half of its points, and at least one, are percentages. *)
Definition passes (s : LineDataConverted) : Prop :=
  formattedAsText s
  /\ validDataCount s <= 2 * percentCount (data s)
  /\ percentCount (data s) <> 0.

End Spec.

(** ** Concrete inputs *)

Module Examples.
Import Js DataConvertor.

(** The sheet [[Time, A, B], [Jan, 10, 20], [Feb, 30, 40]]. *)
Definition sheet : list (list prim) :=
  [[Str "Time"; Str "A"; Str "B"];
   [Str "Jan"; Str "10"; Str "20"];
   [Str "Feb"; Str "30"; Str "40"]].

Definition sheetData : RawData :=
  {| hasHeader := true; formatted := Some sheet; unformatted := Some sheet |}.

Definition point (i : nat) (f : string) (v : Z) : PointDataOnLine :=
  {| originalIndex := i; pformatted := Str f; punformatted := ofZ v |}.

Definition seriesA : LineDataConverted :=
  {| validDataCount := 2; data := [point 0 "10" 10; point 1 "30" 30] |}.
Definition seriesB : LineDataConverted :=
  {| validDataCount := 2; data := [point 0 "20" 20; point 1 "40" 40] |}.

Definition sheetBinding : BindingData :=
  {| header := [Str "A"; Str "B"];
     xData := [Str "Jan"; Str "Feb"];
     yData := Some [seriesA; seriesB] |}.

(** A selection with no row at all. *)
Definition noRows : RawData :=
  {| hasHeader := false; formatted := Some []; unformatted := Some [] |}.

(** A catalog of two themes, and a provider whose current id names none of
    them. *)
Definition catalog : list ThemeProvider.Theme :=
  [{| ThemeProvider.id := "default-windows"; ThemeProvider.sku := "";
      ThemeProvider.css := "default.css" |};
   {| ThemeProvider.id := "dark"; ThemeProvider.sku := "trends-default";
      ThemeProvider.css := "dark.css" |}].

Definition strayProvider : ThemeProvider.t :=
  {| ThemeProvider.definitions := Some catalog;
     ThemeProvider.currentThemeId := Prim (Str "no-such-theme") |}.

(** A plotter holding the converted sheet. *)
Definition sheetPlotter : LineChartPlotter.Plotter :=
  {| LineChartPlotter.bindingData := Some sheetBinding;
     LineChartPlotter.lineNumber := 2;
     LineChartPlotter.columnNumber := 2;
     LineChartPlotter.max := None;
     LineChartPlotter.min := None |}.

(** One line of two points, one of them a percentage. *)
Definition halfPercent : LineDataConverted :=
  {| validDataCount := 2;
     data := [{| originalIndex := 0; pformatted := Str "50%";
                 punformatted := Fin (1 # 2) |};
              {| originalIndex := 1; pformatted := Str "3";
                 punformatted := ofZ 3 |}] |}.

Definition halfPercentPlotter : LineChartPlotter.Plotter :=
  {| LineChartPlotter.bindingData :=
       Some {| header := []; xData := [Str "a"; Str "b"];
               yData := Some [halfPercent] |};
     LineChartPlotter.lineNumber := 1;
     LineChartPlotter.columnNumber := 2;
     LineChartPlotter.max := None;
     LineChartPlotter.min := None |}.

(** A document that remembers the theme "dark", opened in an app whose
    configuration has the configurator and the theme provider for
    listeners. *)
Definition darkDocument : gmap string value :=
  {[ "theme" := Prim (Str "dark") ]}.

(** A host for the examples.  Of the texts that the examples have turned
    into numbers, a plain decimal numeral gives its number and a text
    without a digit gives [NaN], as [ToNumber] does; and the arrays hand
    nothing down under the names that the examples read. *)
Definition plainHost : Configuration.Host :=
  {| Configuration.stringToNumber := decimalNumeral;
     Configuration.inheritedByArrays := fun _ => Prim Undefined |}.

Definition freshApp : Configuration.World :=
  Configuration.registerListener Configuration.TheThemeProvider
    (Configuration.create plainHost ["theme"; "sku"] (Some darkDocument)).

(** The default legend titles, as an English resource would give them. *)
Definition legendName (n : nat) : string := "Line " +:+ pretty n.

(** New data of three lines and two columns, without a header, for a
    plotter that holds the two lines of the sheet. *)
Definition threeLines : BindingData :=
  {| header := [];
     xData := [Str "Jan"; Str "Feb"];
     yData := Some [seriesA; seriesB; seriesA] |}.

(** The short description group, of minimum width 100 and now 100 wide,
    beside the long description group, of minimum width 150: a background
    203 wide is too narrow for both. *)
Definition shortdes1Group : Layouter.ElementWithFixedProperties :=
  {| Layouter.ElementMinWidth := 100; Layouter.ElementNonContentWidth := 0;
     Layouter.getBorderWidth := 0; Layouter.outerWidth := 100 |}.
Definition longdesGroup : Layouter.ElementWithFixedProperties :=
  {| Layouter.ElementMinWidth := 150; Layouter.ElementNonContentWidth := 0;
     Layouter.getBorderWidth := 0; Layouter.outerWidth := 150 |}.

End Examples.

(** ** DataViz.Utils.removeItemFromArray and the listeners of the
       configuration *)

Module Utils.

(** [array.indexOf(item)] on an array of objects, which [===] compares by
    identity: the first place the item is found at, [None] for [-1]. *)
Fixpoint indexOf {A} `{EqDecision A} (array : list A) (item : A)
  : option nat :=
  match array with
  | [] => None
  | x :: rest =>
      if decide (x = item) then Some 0 else S <$> indexOf rest item
  end.

(** The loop [while ((index = array.indexOf(item)) !== -1)] with its body
    [array.splice(index, 1); removed = true]; [None] when the turns run
    out. *)
Fixpoint removeLoop {A} `{EqDecision A} (turns : nat) (array : list A)
    (item : A) (removed : bool) : option (bool * list A) :=
  match turns with
  | 0 => None
  | S turns =>
      match indexOf array item with
      | Some index => removeLoop turns (delete index array) item true
      | None => Some (removed, array)
      end
  end.

(** [removeItemFromArray(array, item)]: what it returns and the array it
    leaves.  The loop is given one turn more than the array has elements. *)
Definition removeItemFromArray {A} `{EqDecision A} (array : list A) (item : A)
  : option (bool * list A) :=
  removeLoop (S (length array)) array item false.

End Utils.

Module Listeners.
Import Js Configuration.

(** [Configuration.unregisterListener]. *)
Definition unregisterListener (l : listener) (w : World) : option World :=
  r ← Utils.removeItemFromArray (changeListeners w) l;
  Some (withChangeListeners (fun _ => r.2) w).

(** [Configuration.reset]: both arrays are cut to length zero, which empties
    the listeners and takes the array-index properties off the settings. *)
Definition reset (w : World) : World :=
  cutSettings 0 (withChangeListeners (fun _ => []) w).

End Listeners.

(** ** ThemeProvider.enumerateForSku *)

Module ThemeEnumeration.
Import Js ThemeProvider.

(** [enumerateForSku(skuId)] for a string [skuId]: the validator refuses the
    empty string before the catalog is read. *)
Definition enumerateForSku (p : t) (skuId : string) : result (list Theme) :=
  if bool_decide (skuId = "") then Throw ParameterIsEmpty
  else
    themes ← Themes p;
    Ok (List.filter
          (fun theme =>
             bool_decide (sku theme = skuId)
             || bool_decide (sku theme = "")
             || negb (truthy (Prim (Str (sku theme)))))
          themes).

End ThemeEnumeration.

(** ** The table a conversion reads, cell by cell *)

Module Sheet.
Import Js DataConvertor.

(** [m[i][j]] for a row [i] that is there; [undefined] past the end of the
    row. *)
Definition cell (m : list (list prim)) (i j : nat) : prim :=
  at_ (default [] (m !! i)) j.

Section Points.

Variable parseFloatString : string -> number.

(** The point that row [i] of the sheet gives to line [j]: none when the
    unformatted cell does not read as a number. *)
Definition pointOf (fm un : list (list prim)) (start j i : nat)
  : option PointDataOnLine :=
  let t := parseFloat parseFloatString (cell un i (j + 1)) in
  if isNaN t then None
  else Some {| originalIndex := i - start;
               pformatted := cell fm i (j + 1);
               punformatted := t |}.

(** Line [j] over the given rows. *)
Definition seriesOf (fm un : list (list prim)) (start j : nat)
    (rows : list nat) : LineDataConverted :=
  let pts := omap (pointOf fm un start j) rows in
  {| validDataCount := length pts; data := pts |}.

(** The binding data of a sheet: the labels of the lines from row 0 when
    there is a header, the first cell of every row read for the x axis, and
    one series per line. *)
Definition tableOf (hasHeader : bool) (fm un : list (list prim))
    (row0 : list prim) : BindingData :=
  let lineNumber := Z.to_nat (lineNumberOf row0) in
  let start := if hasHeader then 1 else 0 in
  let rows :=
    seq start (Nat.min (length fm) TrendsConfig.MaxColumnNumber - start) in
  {| header := if hasHeader
               then (fun j => at_ row0 (j + 1)) <$> seq 0 lineNumber
               else [];
     xData := (fun i => cell fm i 0) <$> rows;
     yData := Some ((fun j => seriesOf fm un start j rows)
                      <$> seq 0 lineNumber) |}.

End Points.

End Sheet.

(** ** What the plotter needs of the stored per-line arrays *)

Module Stored.
Import Js Configuration.

(** An array is stored under [key]. *)
Definition isArray (key : string) (w : World) : Prop :=
  exists a, get key w = Arr a.

(** An array is stored under [key], or a value that [initData] takes for
    missing (a falsy one) and replaces by the default array. *)
Definition arrayOrFalsy (key : string) (w : World) : Prop :=
  match get key w with
  | Arr _ => True
  | Prim _ => truthy (get key w) = false
  end.

(** From [w] to [w'] the order and the visibility of the lines have stayed
    what they should be. *)
Definition keepsArrays (w w' : World) : Prop :=
  forall key, key = Trends.lineOrder \/ key = Trends.lineDisplay ->
    (arrayOrFalsy key w -> arrayOrFalsy key w')
    /\ (isArray key w -> isArray key w').

(** From [w] to [w'] only the keys [ks] may read differently. *)
Definition onlyWrites (ks : list string) (w w' : World) : Prop :=
  forall key, key ∉ ks -> get key w' = get key w.

End Stored.

(** ** Strings of the host: indexOf, substring, parseInt and the decimal
       numeral of an index *)

Module JsText.
Import Js.

(** [s.indexOf(pat)], the scan being at place [i] of the string: the first
    place where [pat] starts, [-1] when there is none. *)
Fixpoint indexOfFrom (pat s : string) (i : Z) : Z :=
  if String.prefix pat s then i
  else
    match s with
    | EmptyString => (-1)%Z
    | String _ rest => indexOfFrom pat rest (i + 1)%Z
    end.

Definition indexOf (s pat : string) : Z := indexOfFrom pat s 0%Z.

(** [s.substring(start, end)]: both places are brought into the string, and
    swapped when [start] comes after [end]. *)
Definition substring (s : string) (start end_ : Z) : string :=
  let len := Z.of_nat (String.length s) in
  let clamp (i : Z) := Z.max 0 (Z.min i len) in
  let from := Z.min (clamp start) (clamp end_) in
  let to := Z.max (clamp start) (clamp end_) in
  String.substring (Z.to_nat from) (Z.to_nat (to - from)) s.

(** White space and line ends, among the characters of ASCII. *)
Definition isWhiteSpace (c : Ascii.ascii) : bool :=
  let n := Ascii.nat_of_ascii c in
  (n =? 32) || ((9 <=? n) && (n <=? 13)).

Fixpoint trimStart (s : string) : string :=
  match s with
  | String c rest => if isWhiteSpace c then trimStart rest else s
  | EmptyString => s
  end.

Definition hexDigitOf (c : Ascii.ascii) : option Z :=
  let n := Z.of_nat (Ascii.nat_of_ascii c) in
  if ((48 <=? n) && (n <=? 57))%Z then Some (n - 48)%Z
  else if ((65 <=? n) && (n <=? 70))%Z then Some (n - 55)%Z
  else if ((97 <=? n) && (n <=? 102))%Z then Some (n - 87)%Z
  else None.

Fixpoint readHexDigits (s : string) (acc : Z) (count : nat) : Z * nat :=
  match s with
  | String c rest =>
      match hexDigitOf c with
      | Some dgt => readHexDigits rest (16 * acc + dgt)%Z (S count)
      | None => (acc, count)
      end
  | EmptyString => (acc, count)
  end.

(** [parseInt(s)] without a radix: white space is skipped, then a sign,
    then [0x] or [0X] announces hexadecimal digits; the digits are read as
    far as they go, and there being none gives [NaN].  (The integers met
    here are exact as doubles.) *)
Definition parseInt (s : string) : number :=
  let s1 := trimStart s in
  let neg :=
    match s1 with String c _ => Ascii.eqb c "-" | EmptyString => false end in
  let signed :=
    match s1 with
    | String c _ => Ascii.eqb c "-" || Ascii.eqb c "+"
    | EmptyString => false
    end in
  let s2 :=
    match s1 with
    | String _ rest => if signed then rest else s1
    | EmptyString => s1
    end in
  let hex :=
    match s2 with
    | String c0 (String c1 _) =>
        Ascii.eqb c0 "0" && (Ascii.eqb c1 "x" || Ascii.eqb c1 "X")
    | _ => false
    end in
  let '(n, count) :=
    if hex
    then match s2 with
         | String _ (String _ digits) => readHexDigits digits 0%Z 0
         | _ => (0%Z, 0)
         end
    else let '(n, count, _) := readDigits s2 0%Z 0 in (n, count) in
  if count =? 0 then NaN else ofZ (if neg then - n else n)%Z.

(** The text of an index, as [+] and [toString] give it for the integers
    from 0 on that print without an exponent (those below [10^21]): its
    decimal digits, without a leading zero. *)
Definition digitChar (d : nat) : Ascii.ascii := Ascii.ascii_of_nat (48 + d).

Fixpoint digitsOf (turns n : nat) (acc : string) : string :=
  match turns with
  | 0 => acc
  | S turns =>
      let acc' := String (digitChar (n mod 10)) acc in
      if n <? 10 then acc' else digitsOf turns (n / 10) acc'
  end.

Definition natToString (n : nat) : string := digitsOf (S n) n "".

(** A string of decimal digits only. *)
Fixpoint allDigits (s : string) : bool :=
  match s with
  | EmptyString => true
  | String c rest =>
      match digitOf c with
      | Some _ => allDigits rest
      | None => false
      end
  end.

End JsText.

(** ** LineChartPlotter: the ids of the points, check boxes and titles, and
       the order of the lines *)

Module LineIds.
Import Js JsText.

(** ["#point" + "line" + lineId + "column" + data.originalIndex + "end"]. *)
Definition pointId (lineId column : nat) : string :=
  "#point" +:+ "line" +:+ natToString lineId +:+ "column"
  +:+ natToString column +:+ "end".

(** ["checkbox" + i + "end"] and ["line-title" + i + "end"]. *)
Definition checkboxId (i : nat) : string :=
  "checkbox" +:+ natToString i +:+ "end".
Definition lineTitleId (i : nat) : string :=
  "line-title" +:+ natToString i +:+ "end".

Definition getNumberFromString (orgString startString endString : string)
  : number :=
  let endIndex := indexOf orgString endString in
  let startIndex :=
    (indexOf orgString startString
     + Z.of_nat (String.length startString))%Z in
  let num := substring orgString startIndex endIndex in
  parseInt num.

Definition getLineIdFromLineTitleId (lineTitleId : string) : number :=
  getNumberFromString lineTitleId "line-title" "end".
Definition getLineIdFromCheckboxId (checkboxId : string) : number :=
  getNumberFromString checkboxId "checkbox" "end".
Definition getLineIdFromPointId (pointId : string) : number :=
  getNumberFromString pointId "line" "column".
Definition getColumnFromPointId (pointId : string) : number :=
  getNumberFromString pointId "column" "end".

(** [lineId === x] for a number [lineId]. *)
Definition strictEqNumber (lineId : number) (x : prim) : bool :=
  match x with
  | Num m => eqb lineId m
  | _ => false
  end.

(** [lineOrder.indexOf(lineId)], [-1] when it is not found. *)
Fixpoint indexOfNumber (lineOrder : list prim) (lineId : number) (i : Z) : Z :=
  match lineOrder with
  | [] => (-1)%Z
  | x :: rest =>
      if strictEqNumber lineId x then i
      else indexOfNumber rest lineId (i + 1)%Z
  end.

(** [a.splice(start, 1)]: a negative [start] counts from the end. *)
Definition splice1 (a : list prim) (start : Z) : list prim :=
  let len := Z.of_nat (length a) in
  let from :=
    if (start <? 0)%Z then Z.max (len + start) 0 else Z.min start len in
  delete (Z.to_nat from) a.

(** [promoteLineToTop(lineId)], without the drawing: the array then passed
    to [configuration.set] for the line order, [None] when the line is on
    top already and nothing is done. *)
Definition promoteLineToTop (lineOrder : list prim) (lineId : number)
  : option (list prim) :=
  if strictEqNumber lineId (at_ lineOrder (length lineOrder - 1)) then None
  else
    let index := indexOfNumber lineOrder lineId 0%Z in
    Some (splice1 lineOrder index ++ [Num lineId]).

(** The line order as it is stored: the ids of the lines, as numbers. *)
Definition orderOf (ids : list nat) : list prim :=
  (fun i => Num (ofZ (Z.of_nat i))) <$> ids.

End LineIds.

(** ** Layouter.handleWindowResizeWidth *)

Module WindowLayout.
Import Layouter.

(** The [width] arguments of the calls of [setWidth] that one resize of the
    window makes.  The widths of the two description groups are quotients:
    [None] stands for the [NaN] or infinity that a zero divisor gives. *)
Record WindowWidths := {
  firstRowContainerWidth : Z;
  secondRowContainerWidth : Z;
  lineChartWidth : Z;
  legendWidth : Z;
  titleWidth : Z;
  shortdes1Width : option Z;
  longdesWidth : option Z
}.

(** [handleWindowResizeWidth(windowWidth)].  An element's [outerWidth()] is
    read from its record: sizing one element is taken not to resize
    another.  Lengths are whole pixels, on which [Math.floor] of a quotient
    is the integer quotient. *)
Definition handleWindowResizeWidth (windowWidth : Z)
    (body lineChart titleParent legend shortdes1Group longdesGroup
       : ElementWithFixedProperties) : WindowWidths :=
  let drawAreaWidth :=
    if (ElementMinWidth body <? windowWidth)%Z
    then (windowWidth - deviationWidth)%Z
    else ElementMinWidth body in
  let drawAreaContentWidth :=
    (drawAreaWidth - ElementNonContentWidth body)%Z in
  let lineChartWidth0 :=
    (drawAreaContentWidth - outerWidth titleParent - outerWidth legend)%Z in
  let lineChartWidth1 :=
    if (ElementMinWidth lineChart <? lineChartWidth0)%Z
    then lineChartWidth0 else ElementMinWidth lineChart in
  let legendWidth0 :=
    (drawAreaContentWidth - outerWidth titleParent - lineChartWidth1)%Z in
  let legendWidth1 :=
    if (ElementMinWidth legend <? legendWidth0)%Z
    then legendWidth0 else ElementMinWidth legend in
  let titleWidth0 :=
    (drawAreaContentWidth - lineChartWidth1 - legendWidth1)%Z in
  let titleWidth1 :=
    if (ElementMinWidth titleParent <? titleWidth0)%Z
    then titleWidth0 else ElementMinWidth titleParent in
  let shortdes1WidthOrigin := outerWidth shortdes1Group in
  let longdesWidthOrigin := outerWidth longdesGroup in
  let originWidth := (shortdes1WidthOrigin + longdesWidthOrigin)%Z in
  let share (w : Z) : option Z :=
    if (originWidth =? 0)%Z then None
    else Some (w * drawAreaContentWidth / originWidth)%Z in
  {| firstRowContainerWidth := drawAreaContentWidth;
     secondRowContainerWidth := drawAreaContentWidth;
     lineChartWidth := lineChartWidth1;
     legendWidth := legendWidth1;
     titleWidth := titleWidth1;
     shortdes1Width := share shortdes1WidthOrigin;
     longdesWidth := share longdesWidthOrigin |}.

End WindowLayout.

(** ** LineChartPlotter.drawCircleGroup: the point a pin stands for *)

Module Pins.
Import Js DataConvertor LineIds.

(** A number used as the index of an array: the integers from 0 on are
    indices, for anything else ([NaN], a negative number, a fraction) the
    array has no such property and [a[n]] is [undefined]. *)
Definition asIndex (n : number) : option nat :=
  match n with
  | Fin q =>
      let d := Z.pos (Qden q) in
      if ((Qnum q mod d =? 0) && (0 <=? Qnum q / d))%Z
      then Some (Z.to_nat (Qnum q / d))
      else None
  | _ => None
  end.

(** The loop over the points of the line, which stops at the first point
    whose [originalIndex === column]. *)
Fixpoint findColumn (data : list PointDataOnLine) (column : number)
  : option PointDataOnLine :=
  match data with
  | [] => None
  | pt :: rest =>
      if eqb (ofZ (Z.of_nat (originalIndex pt))) column then Some pt
      else findColumn rest column
  end.

(** [drawCircleGroup(pointId)], up to the drawing: the point whose values
    the circle and its label show, [None] when the function returns before
    it draws (no such line, no such point, or a formatted value that is
    [null]).  A formatted value that is [undefined] passes the test
    [=== null], and reading its [length] for the radius of the circle
    throws. *)
Definition pinnedPoint (yData : list LineDataConverted) (pointId : string)
  : result (option PointDataOnLine) :=
  let lineId := getLineIdFromPointId pointId in
  let column := getColumnFromPointId pointId in
  match asIndex lineId ≫= (fun i => yData !! i) with
  | None => Ok None
  | Some line =>
      match findColumn (data line) column with
      | Some pt =>
          match pformatted pt with
          | Null => Ok None
          | Undefined => Throw TypeError
          | _ => Ok (Some pt)
          end
      | None => Ok None
      end
  end.

End Pins.

(** ** DataViz.Utils.formatNumberWithThousandSeparators *)

Module NumberFormat.
Import Js JsText.

(** [s.substr(start, length)], and [s.substr(start)] for [None]: a negative
    [start] counts from the end, and the length is cut to what the string
    has. *)
Definition substr (s : string) (start : Z) (len : option Z) : string :=
  let size := Z.of_nat (String.length s) in
  let from :=
    if (start <? 0)%Z then Z.max (size + start) 0 else Z.min start size in
  let n :=
    match len with
    | None => (size - from)%Z
    | Some l => Z.min (Z.max l 0) (size - from)
    end in
  String.substring (Z.to_nat from) (Z.to_nat n) s.

(** [/^[0-9]+(\.[0-9]+)?$/.test(value)]. *)
Definition matchesNumber (value : string) : bool :=
  let '(_, n1, rest) := readDigits value 0%Z 0 in
  (0 <? n1)
  && match rest with
     | EmptyString => true
     | String c frac =>
         Ascii.eqb c "."
         && (let '(_, n2, rest2) := readDigits frac 0%Z 0 in
             (0 <? n2) && bool_decide (rest2 = ""))
     end.

(** The loop [while (index - 3 > startPos)]; [None] when the turns run
    out. *)
Fixpoint separate (turns : nat) (value : string) (startPos index : Z)
    (result : string) : option (Z * string) :=
  match turns with
  | 0 => None
  | S turns =>
      if (startPos <? index - 3)%Z
      then separate turns value startPos (index - 3)%Z
             ("," +:+ substr value (index - 3)%Z (Some 3%Z) +:+ result)
      else Some (index, result)
  end.

(** [formatNumberWithThousandSeparators(value)] for a string; the loop is
    given one turn more than the string has characters. *)
Definition formatNumberWithThousandSeparators (value : string)
  : option string :=
  if matchesNumber value then
    let decimalPointPosition :=
      if (0 <=? indexOf value ".")%Z then indexOf value "."
      else Z.of_nat (String.length value) in
    let result := substr value decimalPointPosition None in
    let startPos := (indexOf value "-" + 1)%Z in
    r ← separate (S (String.length value)) value startPos
          decimalPointPosition result;
    Some (substr value 0%Z (Some r.1) +:+ r.2)
  else Some value.

(** Groups of digits, written one after the other, and the same with a
    comma before each. *)
Definition joined (groups : list string) : string :=
  foldr String.append "" groups.
Definition commaGroups (groups : list string) : string :=
  foldr (fun g acc => "," +:+ g +:+ acc) "" groups.

End NumberFormat.

(** ** The ids of the timers *)

Module TimerIds.
Import Js Configuration.

(** The host hands out fresh timer ids: every pending timer and every id
    that [delaySet] has recorded is older than the next id, and a recorded
    id that is the id of a pending timer is recorded under the key of that
    timer. *)
Definition timersFresh (w : World) : Prop :=
  Forall (fun x => (tid x < nextTimerId w)%positive) (timers w)
  /\ (forall k i, delaySetTimeOutIDs w !! k = Some (Some i) ->
                  (i < nextTimerId w)%positive)
  /\ (forall x k, x ∈ timers w ->
                  delaySetTimeOutIDs w !! k = Some (Some (tid x)) ->
                  tkey x = k).

End TimerIds.

(** ** The states a configuration goes through *)

Module Reach.
Import Js Configuration.

(** The states reached from a new configuration by registering listeners,
    setting and loading values, delaying writes and letting time pass; a
    call that throws leaves the state it had reached. *)
Inductive reachable : World -> Prop :=
  | reach_create (h : Host) (ks : list string)
      (doc : option (gmap string value)) :
      reachable (create h ks doc)
  | reach_registerListener (l : listener) (w : World) :
      reachable w -> reachable (registerListener l w)
  | reach_set (k : string) (v : value) (notifyListeners : bool) (w : World) :
      reachable w -> reachable (set k v notifyListeners w).2
  | reach_loadAll (w : World) :
      reachable w -> reachable (loadAll w).2
  | reach_delaySet (k : string) (v : value) (delay : nat) (w : World) :
      reachable w -> reachable (delaySet k v delay w)
  | reach_advance (t : nat) (w : World) :
      reachable w -> reachable (advance t w).

End Reach.

(** ** DataViz.Utils.stringFormat *)

Module StringFormat.
Import Js JsText.

Section Format.

(** [Number.prototype.toString], by which [replace] turns a number that the
    callback returns into text. *)
Variable numberToString : number -> string.

(** What [replace] writes for a value that the callback returns; the
    callback itself answers [''] for [null] and [undefined]. *)
Definition textOf (v : prim) : string :=
  match v with
  | Undefined | Null => ""
  | Bool true => "true"
  | Bool false => "false"
  | Num n => numberToString n
  | Str s => s
  end.

(** The callback, for a match [{number}]: [parseInt(number, 10)] of a
    string of digits is its value; [args] holds the source and then the
    parameters, so that [args.length] is one more than their number. *)
Definition replacement (params : list prim) (number : string) : string :=
  let '(n, _, _) := readDigits number 0%Z 0 in
  let index := (n + 1)%Z in
  if (Z.of_nat (length params) + 1 <=? index)%Z
  then "{" +:+ number +:+ "}"
  else textOf (default Undefined (params !! Z.to_nat n)).

(** [source.replace(/{(\d+)}/gm, callback)], character by character:
    [pending] holds the digits read since an opening brace.  When what
    follows them is not a closing brace, or when there is no digit, there
    is no match at that brace: the brace and the digits stay as they are,
    and the search goes on. *)
Fixpoint scan (params : list prim) (s : string) (pending : option string)
  : string :=
  match s with
  | EmptyString =>
      match pending with
      | Some digits => "{" +:+ digits
      | None => ""
      end
  | String c rest =>
      let outside :=
        if Ascii.eqb c "{" then scan params rest (Some "")
        else String c (scan params rest None) in
      match pending with
      | None => outside
      | Some digits =>
          match digitOf c with
          | Some _ => scan params rest (Some (digits +:+ String c ""))
          | None =>
              if Ascii.eqb c "}" && negb (bool_decide (digits = ""))
              then replacement params digits +:+ scan params rest None
              else "{" +:+ digits +:+ outside
          end
      end
  end.

(** [stringFormat(source, ...params)]. *)
Definition stringFormat (source : string) (params : list prim) : string :=
  scan params source None.

End Format.

(** A text without an opening brace. *)
Fixpoint braceFree (s : string) : bool :=
  match s with
  | EmptyString => true
  | String c rest => negb (Ascii.eqb c "{") && braceFree rest
  end.

End StringFormat.

(** ** DataViz.Chart.Visualizer: requests to visualize *)

Module Visualizer.

Record VTimer := {
  vid : positive;
  vdue : nat
}.

Section Requests.

(** The data to draw. *)
Variable D : Type.

Record state := {
  cachedData : option D;              (* [None]: null *)
  visualizationRequestPending : bool;
  vtimers : list VTimer;              (* the timers of [revisualize] *)
  vnow : nat;
  vnextId : positive;
  drawn : list D                      (* the data handed to the layouter *)
}.

(** [new Visualizer(layouter, plotter)], before anything ran. *)
Definition create : state :=
  {| cachedData := None; visualizationRequestPending := false;
     vtimers := []; vnow := 0; vnextId := 1%positive; drawn := [] |}.

(** [resetTool], for what it does to the visualizer itself. *)
Definition resetTool (v : state) : state :=
  {| cachedData := None; visualizationRequestPending := false;
     vtimers := vtimers v; vnow := vnow v; vnextId := vnextId v;
     drawn := drawn v |}.

(** [revisualize]: the request is noted and a timer of 100 ms is set. *)
Definition revisualize (v : state) : state :=
  {| cachedData := cachedData v; visualizationRequestPending := true;
     vtimers := vtimers v ++ [{| vid := vnextId v; vdue := vnow v + 100 |}];
     vnow := vnow v; vnextId := Pos.succ (vnextId v);
     drawn := drawn v |}.

(** [visualize(data)]. *)
Definition visualize (data : option D) (v : state) : state :=
  let v1 :=
    {| cachedData := data;
       visualizationRequestPending := visualizationRequestPending v;
       vtimers := vtimers v; vnow := vnow v; vnextId := vnextId v;
       drawn := drawn v |} in
  revisualize (match data with Some _ => v1 | None => resetTool v1 end).

(** The callback of the timer: nothing when no request is pending;
    otherwise the request is taken and the cached data, if any, are laid
    out and plotted. *)
Definition callback (v : state) : state :=
  if visualizationRequestPending v then
    {| cachedData := cachedData v; visualizationRequestPending := false;
       vtimers := vtimers v; vnow := vnow v; vnextId := vnextId v;
       drawn := match cachedData v with
                | Some d => drawn v ++ [d]
                | None => drawn v
                end |}
  else v.

Definition firesBefore (a b : VTimer) : Prop :=
  vdue a < vdue b ∨ (vdue a = vdue b ∧ (vid a <= vid b)%positive).

#[global] Instance firesBefore_dec : RelDecision firesBefore.
Proof. intros a b. unfold firesBefore. apply _. Defined.

(** Time passes until [t]: every timer due by then fires, in the order of
    the due times. *)
Definition advance (t : nat) (v : state) : state :=
  let ready :=
    merge_sort firesBefore (filter (fun x => vdue x <= t) (vtimers v)) in
  let v0 :=
    {| cachedData := cachedData v;
       visualizationRequestPending := visualizationRequestPending v;
       vtimers := filter (fun x => t < vdue x) (vtimers v);
       vnow := Nat.max (vnow v) t; vnextId := vnextId v;
       drawn := drawn v |} in
  foldl (fun v _ => callback v) v0 ready.

(** Calls of [visualize], each at its time. *)
Fixpoint requests (rs : list (nat * D)) (v : state) : state :=
  match rs with
  | [] => v
  | r :: rest => requests rest (visualize (Some r.2) (advance r.1 v))
  end.

End Requests.

Arguments cachedData {D} _.
Arguments visualizationRequestPending {D} _.
Arguments vtimers {D} _.
Arguments vnow {D} _.
Arguments vnextId {D} _.
Arguments drawn {D} _.
Arguments resetTool {D} _.
Arguments revisualize {D} _.
Arguments visualize {D} _ _.
Arguments callback {D} _.
Arguments advance {D} _ _.
Arguments requests {D} _ _.

End Visualizer.

(** * Properties *)

(** ** Loops and arrays *)

Section JsFacts.
Import Js.

Lemma bind_Ok {A B} (m : result A) (f : A -> result B) (b : B) :
  m ≫= f = Ok b -> exists a, m = Ok a /\ f a = Ok b.
Proof.
  destruct m as [a|e]; simpl; intros H; [eauto | discriminate].
Qed.

Lemma forM_snoc {A I} (body : A -> I -> result A) (l : list I) (i : I) (a : A) :
  forM body (l ++ [i]) a = forM body l a ≫= fun a' => body a' i.
Proof.
  revert a. induction l as [|x l IH]; intros a; simpl.
  - destruct (body a i); reflexivity.
  - destruct (body a x) as [a'|e]; simpl; [apply IH | reflexivity].
Qed.

(** A loop invariant that the indices drive: it holds at the start, every
    turn that does not throw moves it from [i] to [S i]. *)
Lemma forM_invariant {A} (P : nat -> A -> Prop)
    (body : A -> nat -> result A) (from n : nat) (a a' : A) :
  (forall i x x', from <= i < from + n -> P i x -> body x i = Ok x' -> P (S i) x') ->
  P from a ->
  forM body (seq from n) a = Ok a' ->
  P (from + n) a'.
Proof.
  revert from a. induction n as [|n IH]; intros from a Hstep Ha Hrun; simpl in *.
  - injection Hrun as <-. by rewrite Nat.add_0_r.
  - apply bind_Ok in Hrun as (x & Hx & Hrest).
    replace (from + S n) with (S from + n) by lia.
    apply (IH (S from) x); [| |exact Hrest].
    + intros i y y' Hi. apply Hstep. lia.
    + apply (Hstep from a x); [lia | exact Ha | exact Hx].
Qed.

(** A loop whose turns never throw under the invariant runs to its end. *)
Lemma forM_total {A} (P : nat -> A -> Prop)
    (body : A -> nat -> result A) (from n : nat) (a : A) :
  (forall i x, from <= i < from + n -> P i x ->
     exists x', body x i = Ok x' /\ P (S i) x') ->
  P from a ->
  exists a', forM body (seq from n) a = Ok a' /\ P (from + n) a'.
Proof.
  revert from a. induction n as [|n IH]; intros from a Hstep Ha; simpl.
  - exists a. by rewrite Nat.add_0_r.
  - destruct (Hstep from a) as (x & Hx & HP); [lia | exact Ha |].
    rewrite Hx. simpl.
    replace (from + S n) with (S from + n) by lia.
    apply IH; [| exact HP].
    intros i y Hi. apply Hstep. lia.
Qed.

(** A loop over the indices of a list that reads the element at each is a
    fold over the list. *)
Lemma forM_seq_lookup {A X} (l : list X) (body : A -> nat -> result A)
    (f : A -> X -> A) (a : A) :
  (forall a j x, l !! j = Some x -> body a j = Ok (f a x)) ->
  forM body (seq 0 (length l)) a = Ok (foldl f a l).
Proof.
  induction l as [|x l IH] using rev_ind; intros Hbody; [reflexivity|].
  rewrite length_app, Nat.add_1_r, seq_S, forM_snoc, foldl_app. simpl.
  rewrite IH.
  - cbn [mbind result_bind Js.bind]. apply Hbody.
    by rewrite lookup_app_r, Nat.sub_diag.
  - intros a' j x' Hj. apply Hbody. by apply lookup_app_l_Some.
Qed.

Lemma length_assign (a : list prim) (i : nat) (v : prim) :
  length (assign a i v) = Nat.max (length a) (S i).
Proof.
  unfold assign. destruct (decide (i < length a)).
  - rewrite length_insert. lia.
  - rewrite !length_app, length_replicate. simpl. lia.
Qed.

Lemma length_fold_assign (f : nat -> prim) (n : nat) :
  length (foldl (fun a i => assign a i (f i)) [] (seq 0 n)) = n.
Proof.
  induction n as [|n IH]; [reflexivity|].
  rewrite seq_S, foldl_app. simpl. rewrite length_assign, IH. lia.
Qed.

End JsFacts.

(** ** DataConvertor.convert *)

Section ConvertFacts.
Import Js TrendsConfig DataConvertor Spec.

Variable parseFloatString : string -> number.

Lemma seriesBelow_mono (b b' : nat) (s : LineDataConverted) :
  b <= b' -> seriesBelow b s -> seriesBelow b' s.
Proof.
  intros Hle [Hinv Hb]. split; [exact Hinv|].
  eapply Forall_impl; [exact Hb|]. simpl. intros pt Hpt. lia.
Qed.

Lemma StronglySorted_snoc_lt (l : list nat) (x : nat) :
  StronglySorted lt l -> Forall (fun y => y < x) l ->
  StronglySorted lt (l ++ [x]).
Proof.
  induction 1 as [|y l Hs IH Hy]; intros Hall; simpl.
  - repeat constructor.
  - apply Forall_cons in Hall as [Hyx Hall].
    constructor; [by apply IH|].
    apply Forall_app. split; [exact Hy | by repeat constructor].
Qed.

Lemma seriesBelow_push (b : nat) (s : LineDataConverted) (f : prim) (t : number) :
  seriesBelow b s -> isNaN t = false ->
  seriesBelow (S b)
    {| validDataCount := S (validDataCount s);
       data := data s ++ [{| originalIndex := b; pformatted := f;
                             punformatted := t |}] |}.
Proof.
  intros [(Hc & Hn & Hs) Hb] Ht. repeat split; simpl.
  - rewrite length_app. simpl. lia.
  - apply Forall_app. split; [exact Hn | by repeat constructor].
  - rewrite fmap_app. simpl. apply StronglySorted_snoc_lt; [exact Hs|].
    by apply Forall_fmap.
  - apply Forall_app. split.
    + eapply Forall_impl; [exact Hb|]. simpl. intros; lia.
    + constructor; [simpl; lia | constructor].
Qed.

Lemma convertCell_invariant fm un start i n j y y' :
  j < n ->
  cellInvariant n (i - start) j y ->
  convertCell parseFloatString fm un start i y j = Ok y' ->
  cellInvariant n (i - start) (S j) y'.
Proof.
  intros Hj [Hlen Hy]. unfold convertCell.
  intros H. apply bind_Ok in H as (urow & _ & H).
  destruct (isNaN (parseFloat parseFloatString (at_ urow (j + 1)))) eqn:Hnan.
  - injection H as <-. split; [exact Hlen|].
    intros k s Hk. specialize (Hy k s Hk).
    destruct (decide (k < j)), (decide (k < S j)); try lia; try exact Hy.
    eapply seriesBelow_mono; [|exact Hy]. lia.
  - destruct (y !! j) as [sj|] eqn:Hsj; [|discriminate].
    apply bind_Ok in H as (frow & _ & H). injection H as <-.
    split; [by rewrite length_insert|].
    intros k s Hk. destruct (decide (k = j)) as [->|Hne].
    + rewrite list_lookup_insert_eq in Hk by (apply lookup_lt_Some in Hsj; lia).
      injection Hk as <-.
      destruct (decide (j < S j)); [|lia].
      apply seriesBelow_push; [|exact Hnan].
      specialize (Hy j sj Hsj). destruct (decide (j < j)); [lia | exact Hy].
    + rewrite list_lookup_insert_ne in Hk by congruence.
      specialize (Hy k s Hk).
      destruct (decide (k < j)), (decide (k < S j)); try lia; exact Hy.
Qed.

Lemma convertRow_invariant fm un start n i acc acc' :
  start <= i ->
  rowInvariant n start i acc ->
  convertRow parseFloatString fm un start n acc i = Ok acc' ->
  rowInvariant n start (S i) acc'.
Proof.
  intros Hi (Hx & Hlen & Hy). unfold convertRow. intros H.
  apply bind_Ok in H as (frow & _ & H).
  apply bind_Ok in H as (y & Hrun & H). injection H as <-. simpl.
  assert (Hinv : cellInvariant n (i - start) (0 + n) y).
  { refine (forM_invariant (cellInvariant n (i - start)) _ 0 n acc.2 y
              _ _ Hrun).
    - intros j x x' Hj. apply convertCell_invariant. lia.
    - split; [exact Hlen|]. intros k s Hk.
      destruct (decide (k < 0)); [lia|].
      by eapply Forall_lookup_1 in Hy. }
  destruct Hinv as [Hlen' Hy'].
  unfold rowInvariant. simpl.
  split; [|split; [exact Hlen'|]].
  - rewrite length_assign. lia.
  - apply Forall_lookup_2. intros k s Hk. specialize (Hy' k s Hk).
    apply lookup_lt_Some in Hk.
    destruct (decide (k < 0 + n)); [|lia].
    replace (S i - start) with (S (i - start)) by lia. exact Hy'.
Qed.

Lemma length_emptySeries (n : nat) : length (emptySeries n) = n.
Proof.
  unfold emptySeries. induction n as [|n IH]; [reflexivity|].
  rewrite seq_S, foldl_app. simpl. rewrite length_app, IH. simpl. lia.
Qed.

Lemma emptySeries_below (n b : nat) : Forall (seriesBelow b) (emptySeries n).
Proof.
  unfold emptySeries. induction n as [|n IH]; [constructor|].
  rewrite seq_S, foldl_app. simpl. apply Forall_app. split; [exact IH|].
  repeat constructor.
Qed.

Lemma lineNumberOf_le (row0 : list prim) :
  Z.to_nat (lineNumberOf row0) <= MaxLineNumber.
Proof. unfold lineNumberOf, MaxLineNumber. lia. Qed.

(** What a conversion that returns has established. *)
Lemma convert_Ok_inv (d : RawData) (bd : BindingData) :
  convert parseFloatString d = Ok bd ->
  bd = emptyBindingData
  \/ exists y, yData bd = Some y
       /\ length y <= MaxLineNumber
       /\ length (xData bd) <= MaxColumnNumber
       /\ Forall seriesInvariant y.
Proof.
  unfold convert. intros H.
  destruct (formatted d) as [fm|]; [|left; congruence].
  destruct (unformatted d) as [un|]; [|left; congruence].
  right. apply bind_Ok in H as (row0 & _ & H).
  apply bind_Ok in H as ([x y] & Hrun & H). injection H as <-. simpl.
  set (n := Z.to_nat (lineNumberOf row0)) in *.
  set (start := if hasHeader d then 1 else 0) in *.
  set (cols := Nat.min (length fm) MaxColumnNumber) in *.
  assert (Hinv : rowInvariant n start (start + (cols - start)) (x, y)).
  { refine (forM_invariant (rowInvariant n start) _ start (cols - start)
              ([], emptySeries n) (x, y) _ _ Hrun).
    - intros i a a' Hi. apply convertRow_invariant. lia.
    - split; [simpl; lia|]. split; [apply length_emptySeries|].
      apply emptySeries_below. }
  destruct Hinv as (Hx & Hlen & Hy). simpl in *.
  exists y. split; [reflexivity|]. split; [|split].
  - rewrite Hlen. apply lineNumberOf_le.
  - subst cols. lia.
  - eapply Forall_impl; [exact Hy|]. by intros s [Hs _].
Qed.

Lemma row_Ok (m : list (list prim)) (i : nat) :
  i < length m -> exists r, row m i = Ok r.
Proof.
  intros Hi. unfold row.
  destruct (lookup_lt_is_Some_2 m i Hi) as [r ->]. by exists r.
Qed.

Lemma convertCell_total fm un start i n j y :
  i < length fm -> i < length un -> j < n -> length y = n ->
  exists y', convertCell parseFloatString fm un start i y j = Ok y'
             /\ length y' = n.
Proof.
  intros Hf Hu Hj Hlen. unfold convertCell.
  destruct (row_Ok un i Hu) as [urow ->]. simpl.
  destruct (isNaN _); [by exists y|].
  destruct (lookup_lt_is_Some_2 y j) as [s ->]; [lia|].
  destruct (row_Ok fm i Hf) as [frow ->]. simpl.
  eexists. split; [reflexivity|]. by rewrite length_insert.
Qed.

Lemma convertRow_total fm un start n i acc :
  i < length fm -> i < length un -> length acc.2 = n ->
  exists acc', convertRow parseFloatString fm un start n acc i = Ok acc'
               /\ length acc'.2 = n.
Proof.
  intros Hf Hu Hlen. unfold convertRow.
  destruct (row_Ok fm i Hf) as [frow ->]. simpl.
  destruct (forM_total (fun _ y => length y = n)
              (convertCell parseFloatString fm un start i) 0 n acc.2)
    as (y & -> & Hy); [|exact Hlen|].
  - intros j x Hj Hx. apply convertCell_total; [exact Hf|exact Hu|lia|exact Hx].
  - simpl. eexists. split; [reflexivity|exact Hy].
Qed.

(** C10: when the conversion returns, every series it returns counts exactly
    the points it stores ([validDataCount = data.length]), no stored point
    holds [NaN], and the [originalIndex] of the points of a series increases
    strictly. *)
Theorem convert_series_invariant (d : RawData) (bd : BindingData)
    (y : list LineDataConverted) (s : LineDataConverted) :
  convert parseFloatString d = Ok bd ->
  yData bd = Some y ->
  s ∈ y ->
  validDataCount s = length (data s)
  /\ Forall (fun pt => isNaN (punformatted pt) = false) (data s)
  /\ StronglySorted lt (originalIndex <$> data s).
Proof.
  intros Hc Hy Hs.
  destruct (convert_Ok_inv d bd Hc) as [->|(y' & Hy' & _ & _ & Hall)].
  - discriminate.
  - rewrite Hy in Hy'. injection Hy' as <-.
    rewrite Forall_forall in Hall. exact (Hall s Hs).
Qed.

(** C2, as the code has it: a missing [formatted] or [unformatted] gives the
    empty binding data; whenever the conversion returns, it returns at most
    [MaxLineNumber] series and [MaxColumnNumber] columns; and it does return
    when both matrices are there, [formatted] has a first row and
    [unformatted] has a row for each of the rows read (the first 50 of
    [formatted]). *)
Theorem convert_bounds_and_returns :
  (forall d, formatted d = None \/ unformatted d = None ->
     convert parseFloatString d = Ok emptyBindingData)
  /\ (forall d bd, convert parseFloatString d = Ok bd ->
        length (xData bd) <= MaxColumnNumber
        /\ forall y, yData bd = Some y -> length y <= MaxLineNumber)
  /\ (forall d fm un,
        formatted d = Some fm -> unformatted d = Some un ->
        fm <> [] ->
        Nat.min (length fm) MaxColumnNumber <= length un ->
        exists bd, convert parseFloatString d = Ok bd).
Proof.
  split; [|split].
  - intros d [H|H]; unfold convert; rewrite H; [reflexivity|].
    by destruct (formatted d).
  - intros d bd Hc.
    destruct (convert_Ok_inv d bd Hc) as [->|(y & Hy & Hl & Hx & _)].
    + split; [simpl; lia | discriminate].
    + split; [exact Hx|]. intros y' Hy'. congruence.
  - intros d fm un Hf Hu Hne Hrows. unfold convert. rewrite Hf, Hu.
    destruct fm as [|row0 rest]; [done|].
    change (row (row0 :: rest) 0) with (Ok row0).
    cbn [mbind result_bind Js.bind].
    set (fm := row0 :: rest) in *.
    set (n := Z.to_nat (lineNumberOf row0)).
    set (start := if hasHeader d then 1 else 0).
    set (cols := Nat.min (length fm) MaxColumnNumber) in *.
    destruct (forM_total (fun _ acc => length acc.2 = n)
                (convertRow parseFloatString fm un start n)
                start (cols - start) ([], emptySeries n))
      as (acc & Hrun & _).
    + intros i acc Hi Hacc. apply convertRow_total; [| |exact Hacc].
      * subst cols. lia.
      * lia.
    + apply length_emptySeries.
    + rewrite Hrun. cbn [mbind result_bind Js.bind]. eauto.
Qed.

End ConvertFacts.

Section ConvertExamples.
Import Js DataConvertor Examples.

(** The scenario of the specification: header [A, B], columns [Jan, Feb] and
    two series of two points each. *)
Example convert_sheet : convert decimalNumeral sheetData = Ok sheetBinding.
Proof. reflexivity. Qed.

Lemma convert_series_invariant_witness :
  validDataCount seriesA = length (data seriesA)
  /\ Forall (fun pt => isNaN (punformatted pt) = false) (data seriesA)
  /\ StronglySorted lt (originalIndex <$> data seriesA).
Proof.
  apply (convert_series_invariant decimalNumeral sheetData sheetBinding
           [seriesA; seriesB] seriesA);
    [reflexivity | reflexivity | left].
Defined.

(** C2 fails as stated: on a selection without rows both matrices are
    present, so the guard lets it through, and reading [formatted[0].length]
    throws. *)
Lemma convert_throws_without_rows :
  convert decimalNumeral noRows = Throw TypeError.
Proof. reflexivity. Qed.

Lemma convert_bounds_and_returns_witness :
  exists bd, convert decimalNumeral sheetData = Ok bd.
Proof.
  apply (proj2 (proj2 (convert_bounds_and_returns decimalNumeral))
           sheetData sheet sheet);
    [reflexivity | reflexivity | discriminate | vm_compute; lia].
Defined.

End ConvertExamples.

(** ** DataBinder.detectHeader *)

Section DetectHeaderFacts.
Import Js DataBinder.

Variable numberToString : number -> string.
Variable isNumeric : string -> bool.

Lemma detectHeaderCell_eq (row0 : list prim) (hasHeader : bool) (i : nat) :
  detectHeaderCell numberToString isNumeric row0 hasHeader i
  = Ok (if numericLooking numberToString isNumeric (at_ row0 i)
        then false else hasHeader).
Proof.
  unfold detectHeaderCell, numericLooking.
  destruct (at_ row0 i) as [| |[|]|n|s]; simpl; try reflexivity;
    match goal with |- context [if ?c then _ else _] => by destruct c end.
Qed.

(** C6: on a matrix with a first row, [detectHeader] returns, and it answers
    [true] exactly when no cell of row 0 in the columns from 1 on holds a
    value whose text is not empty and numeric. *)
Theorem detectHeader_iff_no_numeric_cell (row0 : list prim)
    (rest : list (list prim)) :
  exists b,
    detectHeader numberToString isNumeric (Some (row0 :: rest)) = Ok b
    /\ (b = true <->
        forall i, 1 <= i < length row0 ->
          numericLooking numberToString isNumeric (at_ row0 i) = false).
Proof.
  unfold detectHeader. change (row (row0 :: rest) 0) with (Ok row0).
  cbn [mbind result_bind Js.bind].
  destruct (forM_total
              (fun i b => b = true <->
                 forall k, 1 <= k < i ->
                   numericLooking numberToString isNumeric (at_ row0 k) = false)
              (detectHeaderCell numberToString isNumeric row0)
              1 (length row0 - 1) true) as (b & Hrun & Hb).
  - intros i b Hi Hinv. rewrite detectHeaderCell_eq. eexists. split; [reflexivity|].
    destruct (numericLooking numberToString isNumeric (at_ row0 i)) eqn:Hn.
    + split; [discriminate|]. intros Hall.
      rewrite Hall in Hn by lia. discriminate.
    + rewrite Hinv. split; intros Hall k Hk.
      * destruct (decide (k = i)) as [->|]; [exact Hn | apply Hall; lia].
      * apply Hall. lia.
  - split; [intros _ k Hk; lia | reflexivity].
  - exists b. split; [exact Hrun|]. rewrite Hb.
    split; intros Hall k Hk; apply Hall; lia.
Qed.

End DetectHeaderFacts.

(** ** ThemeProvider.CurrentTheme *)

Section ThemeProviderFacts.
Import Js ThemeProvider.

(** [getThemeById] answers [null] exactly when no theme of the catalog bears
    the id. *)
Lemma getThemeById_None (p : t) (themes : list Theme) (i : value) :
  definitions p = Some themes ->
  (getThemeById p i = Ok None <-> Forall (fun th => idIs i th = false) themes).
Proof.
  intros Hd. unfold getThemeById, Themes. rewrite Hd.
  cbn [mbind result_bind Js.bind].
  induction themes as [|th themes IH] in |- *; simpl.
  - split; [constructor | reflexivity].
  - destruct (idIs i th) eqn:Hth; simpl.
    + split; [discriminate|]. intros H. apply Forall_cons in H as [H _].
      congruence.
    + split.
      * intros H. constructor; [exact Hth|].
        destruct (List.filter (idIs i) themes) as [|m ms] eqn:Hf.
        -- clear -Hf. induction themes as [|x xs IHx]; [constructor|].
           simpl in Hf. destruct (idIs i x) eqn:Hx; [discriminate|].
           constructor; [exact Hx | by apply IHx].
        -- simpl in H. discriminate.
      * intros H. apply Forall_cons in H as [_ H].
        assert (List.filter (idIs i) themes = []) as ->; [|reflexivity].
        clear -H. induction H as [|x xs Hx _ IHx]; [reflexivity|].
        simpl. by rewrite Hx.
Qed.

(** C9: with a catalog loaded and a current id that no entry of the catalog
    bears, [getThemeById] answers [null] and [CurrentTheme] returns, without
    an error, what [Default] returns: the first entry of the catalog. *)
Theorem CurrentTheme_unknown_id_is_Default (p : t) (themes : list Theme) :
  definitions p = Some themes ->
  Forall (fun th => idIs (currentThemeId p) th = false) themes ->
  getThemeById p (currentThemeId p) = Ok None
  /\ CurrentTheme p = Ok (themes !! 0)
  /\ Default p = Ok (themes !! 0).
Proof.
  intros Hd Hno.
  assert (Hg : getThemeById p (currentThemeId p) = Ok None)
    by (by apply (getThemeById_None p themes)).
  split; [exact Hg|].
  unfold CurrentTheme. rewrite Hg.
  cbn [mbind result_bind Js.bind]. unfold Default, Themes. rewrite Hd.
  split; reflexivity.
Qed.

Lemma CurrentTheme_unknown_id_is_Default_witness :
  getThemeById Examples.strayProvider
    (currentThemeId Examples.strayProvider) = Ok None
  /\ CurrentTheme Examples.strayProvider = Ok (Examples.catalog !! 0)
  /\ Default Examples.strayProvider = Ok (Examples.catalog !! 0).
Proof.
  apply (CurrentTheme_unknown_id_is_Default Examples.strayProvider
           Examples.catalog); [reflexivity|].
  repeat constructor.
Defined.

End ThemeProviderFacts.

(** ** Layouter.onElementResize *)

Section LayouterFacts.
Import Layouter.
Local Open Scope Z_scope.

(** C8, as the code has it.  Whenever a drag sets widths: the peer gets what
    the body leaves beside the dragged element and the second peer, so it
    absorbs the change of the dragged element's width; a dragged element
    that does not grow is never set below its own minimum width; one that
    grows is capped at the body width less the peer's minimum and the second
    peer's width, so the peer is never set below the peer's minimum, and the
    dragged element itself stays at or above its own minimum provided that
    cap and its original width do. *)
Theorem onElementResize_clamps (body : Z) (el : ElementWithFixedProperties)
    (width0 origin0 : Z) (peer1 : ElementWithFixedProperties)
    (peer2 : option ElementWithFixedProperties) (r : Resized) :
  onElementResize (Some body) (Some el) width0 origin0 (Some peer1) peer2
    = Some r ->
  let extra := ElementNonContentWidth el + getBorderWidth el in
  let peer2Width := match peer2 with Some p2 => outerWidth p2 | None => 0 end in
  let maxWidth := body - deviationWidth - ElementMinWidth peer1 - peer2Width in
  peerElement1Width r = body - deviationWidth - elementWidth r - peer2Width
  /\ (forall peerOld,
        (origin0 + extra) + peerOld + peer2Width = body - deviationWidth ->
        peerElement1Width r = peerOld - (elementWidth r - (origin0 + extra)))
  /\ (width0 <= origin0 -> ElementMinWidth el <= elementWidth r)
  /\ (origin0 < width0 ->
        elementWidth r <= maxWidth
        /\ ElementMinWidth peer1 <= peerElement1Width r
        /\ (ElementMinWidth el <= origin0 + extra ->
            ElementMinWidth el <= maxWidth ->
            ElementMinWidth el <= elementWidth r)).
Proof.
  intros H extra peer2Width maxWidth.
  unfold onElementResize in H. cbv zeta in H.
  fold extra peer2Width in H.
  destruct (origin0 + extra <? width0 + extra) eqn:Hgrow.
  - apply Z.ltb_lt in Hgrow. fold maxWidth in H.
    destruct (width0 + extra <? maxWidth) eqn:Hcap;
      [apply Z.ltb_lt in Hcap | apply Z.ltb_ge in Hcap];
      injection H as <-; simpl; repeat split; intros; lia.
  - apply Z.ltb_ge in Hgrow.
    destruct (origin0 + extra =? ElementMinWidth el); [discriminate|].
    destruct (ElementMinWidth el <? width0 + extra) eqn:Hmin;
      [apply Z.ltb_lt in Hmin | apply Z.ltb_ge in Hmin];
      injection H as <-; simpl; repeat split; intros; lia.
Qed.

Lemma onElementResize_clamps_witness :
  let r := {| peerElement1Width := 137; elementWidth := 100 |} in
  peerElement1Width r = 240 - deviationWidth - elementWidth r - 0
  /\ (forall peerOld,
        (120 + 0) + peerOld + 0 = 240 - deviationWidth ->
        peerElement1Width r = peerOld - (elementWidth r - (120 + 0)))
  /\ (90 <= 120 -> 100 <= elementWidth r)
  /\ (120 < 90 ->
        elementWidth r <= 240 - deviationWidth - 150 - 0
        /\ 150 <= peerElement1Width r
        /\ (100 <= 120 + 0 -> 100 <= 240 - deviationWidth - 150 - 0 ->
            100 <= elementWidth r)).
Proof.
  exact (onElementResize_clamps 240 Examples.shortdes1Group 90 120
           Examples.longdesGroup None
           {| peerElement1Width := 137; elementWidth := 100 |} eq_refl).
Defined.

(** C8 fails as stated: dragged from 100 to 110 in a background 203 wide,
    beside a peer whose minimum is 150, the short description group is
    capped at 50, half its own minimum width of 100. *)
Lemma onElementResize_below_own_minimum :
  onElementResize (Some 203) (Some Examples.shortdes1Group) 110 100
    (Some Examples.longdesGroup) None
  = Some {| peerElement1Width := 150; elementWidth := 50 |}
  /\ 50 < ElementMinWidth Examples.shortdes1Group.
Proof. split; reflexivity. Qed.

End LayouterFacts.

(** ** Numbers *)

Section NumberFacts.
Import Js Spec.

Ltac num_cases :=
  unfold numLe, gtb in *; unfold eqb, ltb, mathMax, mathMin, cmp, isNaN, ofZ in *;
  repeat match goal with
         | n : number |- _ => destruct n
         end;
  simpl in *;
  repeat match goal with
         | |- context [(?x ?= ?y)%Q] => destruct (Qcompare_spec x y)
         | H : context [(?x ?= ?y)%Q] |- _ => destruct (Qcompare_spec x y)
         end;
  simpl in *; unfold inject_Z in *;
  try solve [ intuition (discriminate || congruence || lra)
            | exfalso; intuition (discriminate || lra) ].

Lemma cmp_refl (a : number) : isNaN a = false -> cmp a a = Some Eq.
Proof. intros H. num_cases. Qed.

Lemma eqb_notNaN (a v : number) :
  eqb a v = true -> isNaN a = false /\ isNaN v = false.
Proof. intros H. num_cases. Qed.

Lemma eqb_sym (a b : number) : eqb a b = true -> eqb b a = true.
Proof. intros H. num_cases. Qed.

Lemma eqb_trans (a b c : number) :
  eqb a b = true -> eqb b c = true -> eqb a c = true.
Proof. intros H1 H2. num_cases. Qed.

Lemma mathMax_eq (a t v : number) :
  eqb a v = true -> eqb t v = true -> eqb (mathMax a t) v = true.
Proof. intros H1 H2. num_cases. Qed.

Lemma mathMin_eq (a t v : number) :
  eqb a v = true -> eqb t v = true -> eqb (mathMin a t) v = true.
Proof. intros H1 H2. num_cases. Qed.

Lemma mathMax_notNaN (a t : number) :
  isNaN a = false -> isNaN t = false -> isNaN (mathMax a t) = false.
Proof. intros H1 H2. num_cases. Qed.

Lemma mathMin_notNaN (a t : number) :
  isNaN a = false -> isNaN t = false -> isNaN (mathMin a t) = false.
Proof. intros H1 H2. num_cases. Qed.

Lemma mathMin_le_mathMax (mn mx t : number) :
  isNaN t = false -> numLe mn mx -> numLe (mathMin mn t) (mathMax mx t).
Proof. intros Ht H. num_cases. Qed.

Lemma numLe_refl (t : number) : isNaN t = false -> numLe t t.
Proof. intros H. right. by apply cmp_refl. Qed.

(** The branches after the loops leave a proper interval. *)
Lemma settle_lt (mx mn : number) :
  numLe mn mx ->
  ltb (LineChartPlotter.settle (Some (mx, mn))).2
      (LineChartPlotter.settle (Some (mx, mn))).1 = true.
Proof.
  intros H. unfold LineChartPlotter.settle.
  destruct (eqb mn mx) eqn:He.
  - destruct (gtb mn (ofZ 0)) eqn:Hg; simpl.
    + clear -He Hg. num_cases.
    + destruct (ltb mn (ofZ 0)) eqn:Hl; simpl.
      * clear -Hl. num_cases.
      * clear -He Hg Hl. num_cases.
  - simpl. clear -H He. num_cases.
Qed.

(** A single value [v] shared by maximum and minimum is widened towards
    zero. *)
Lemma settle_single (mx mn v : number) :
  eqb mx v = true -> eqb mn v = true ->
  let r := LineChartPlotter.settle (Some (mx, mn)) in
  (gtb v (ofZ 0) = true -> r = (mx, ofZ 0))
  /\ (ltb v (ofZ 0) = true -> r = (ofZ 0, mn))
  /\ (eqb v (ofZ 0) = true -> r = (mx, ofZ (-1))).
Proof.
  intros Hx Hn r. subst r. unfold LineChartPlotter.settle.
  assert (He : eqb mn mx = true)
    by (eapply eqb_trans; [exact Hn | by apply eqb_sym]).
  rewrite He.
  destruct (gtb mn (ofZ 0)) eqn:Hg; [|destruct (ltb mn (ofZ 0)) eqn:Hl];
    (split; [|split]); intros Hv; try reflexivity; exfalso;
    clear -Hn Hv Hg Hl || clear -Hn Hv Hg; num_cases.
Qed.

End NumberFacts.

(** ** LineChartPlotter.setMaxAndMin *)

Section MaxMinFacts.
Import Js DataConvertor Spec LineChartPlotter.

Lemma pointsRead_S (n : nat) (y : list LineDataConverted) :
  pointsRead (S n) y
  = pointsRead n y ++ match y !! n with Some s => data s | None => [] end.
Proof.
  unfold pointsRead. destruct (y !! n) as [s|] eqn:Hn.
  - rewrite (take_S_r _ _ _ Hn), flat_map_app. simpl. by rewrite app_nil_r.
  - apply lookup_ge_None in Hn.
    rewrite !take_ge by lia. by rewrite app_nil_r.
Qed.

(** The two loops of [setMaxAndMin] fold [maxMinAcc] over the points
    read. *)
Lemma maxMinLines_fold (y : list LineDataConverted) (n : nat)
    (st : option (number * number)) :
  Forall seriesInvariant y ->
  forM (maxMinLine y) (seq 0 n) st = Ok (foldl accPoint st (pointsRead n y)).
Proof.
  intros Hy. induction n as [|n IH]; [reflexivity|].
  rewrite seq_S, forM_snoc, IH, pointsRead_S, foldl_app.
  cbn [mbind result_bind Js.bind]. unfold maxMinLine. simpl (0 + n).
  destruct (y !! n) as [s|] eqn:Hn; [|reflexivity].
  eapply Forall_lookup_1 in Hy as (Hc & _); [|exact Hn].
  rewrite Hc. apply forM_seq_lookup.
  intros a j pt Hj. unfold maxMinStep, pointAt. rewrite Hj.
  cbn [mbind result_bind Js.bind]. unfold accPoint, maxMinAcc.
  by destruct a as [[mx mn]|].
Qed.

Lemma fold_single (v : number) (pts : list PointDataOnLine)
    (st : option (number * number)) :
  Forall (fun pt => eqb (punformatted pt) v = true) pts ->
  match st with
  | Some (mx, mn) => eqb mx v = true /\ eqb mn v = true
  | None => pts <> []
  end ->
  exists mx mn, foldl accPoint st pts = Some (mx, mn)
                /\ eqb mx v = true /\ eqb mn v = true.
Proof.
  intros Hall. revert st. induction Hall as [|pt pts Hpt _ IH]; intros st Hst.
  - destruct st as [[mx mn]|]; [by exists mx, mn | done].
  - simpl. apply IH. unfold accPoint, maxMinAcc.
    destruct st as [[mx mn]|].
    + destruct Hst. split; [by apply mathMax_eq | by apply mathMin_eq].
    + split; [by apply mathMax_eq | by apply mathMin_eq].
Qed.

Lemma fold_ordered (pts : list PointDataOnLine)
    (st : option (number * number)) :
  Forall (fun pt => isNaN (punformatted pt) = false) pts ->
  match st with
  | Some (mx, mn) => numLe mn mx
  | None => True
  end ->
  match foldl accPoint st pts with
  | Some (mx, mn) => numLe mn mx
  | None => st = None /\ pts = []
  end.
Proof.
  intros Hall. revert st. induction Hall as [|pt pts Hpt _ IH]; intros st Hst.
  - simpl. by destruct st as [[mx mn]|].
  - simpl.
    assert (Hacc : exists mx mn, accPoint st pt = Some (mx, mn) /\ numLe mn mx).
    { unfold accPoint, maxMinAcc. destruct st as [[mx mn]|].
      - eexists _, _. split; [reflexivity|]. by apply mathMin_le_mathMax.
      - eexists _, _. split; [reflexivity|].
        apply mathMin_le_mathMax; [exact Hpt | by apply numLe_refl]. }
    destruct Hacc as (mx & mn & -> & Hle).
    specialize (IH (Some (mx, mn)) Hle).
    destruct (foldl accPoint (Some (mx, mn)) pts) as [[mx' mn']|];
      [exact IH | by destruct IH].
Qed.

Lemma pointsRead_notNaN (n : nat) (y : list LineDataConverted) :
  Forall seriesInvariant y ->
  Forall (fun pt => isNaN (punformatted pt) = false) (pointsRead n y).
Proof.
  intros Hy. unfold pointsRead. apply Forall_flat_map.
  apply Forall_take. eapply Forall_impl; [exact Hy|].
  by intros s (_ & Hn & _).
Qed.

(** C7: on binding data as the conversion delivers it, [setMaxAndMin]
    returns with a proper domain, [min < max], neither being [NaN]; without
    any point the domain is [0, 1]; when all points share one value [v] it
    is [0, v] for [v > 0], [v, 0] for [v < 0] and [-1, 0] for [v = 0]. *)
Theorem setMaxAndMin_domain (p : Plotter) (bd : BindingData)
    (y : list LineDataConverted) :
  bindingData p = Some bd ->
  yData bd = Some y ->
  Forall seriesInvariant y ->
  exists mx mn,
    setMaxAndMin p
    = Ok {| bindingData := bindingData p; lineNumber := lineNumber p;
            columnNumber := columnNumber p;
            max := Some mx; min := Some mn |}
    /\ ltb mn mx = true
    /\ (pointsRead (lineNumber p) y = [] -> mn = ofZ 0 /\ mx = ofZ 1)
    /\ (forall v,
          pointsRead (lineNumber p) y <> [] ->
          Forall (fun pt => eqb (punformatted pt) v = true)
                 (pointsRead (lineNumber p) y) ->
          (gtb v (ofZ 0) = true -> mn = ofZ 0 /\ eqb mx v = true)
          /\ (ltb v (ofZ 0) = true -> eqb mn v = true /\ mx = ofZ 0)
          /\ (eqb v (ofZ 0) = true -> mn = ofZ (-1) /\ eqb mx v = true)).
Proof.
  intros Hbd Hy Hinv.
  assert (Hst : (match lineNumber p with
                 | 0 => Ok None
                 | S _ => y' ← linesOf p;
                          forM (maxMinLine y') (seq 0 (lineNumber p)) None
                 end)
                = Ok (foldl accPoint None (pointsRead (lineNumber p) y))).
  { destruct (lineNumber p) as [|n] eqn:Hn; [reflexivity|].
    unfold linesOf. rewrite Hbd, Hy. cbn [mbind result_bind Js.bind].
    by apply maxMinLines_fold. }
  unfold setMaxAndMin. rewrite Hst. cbn [mbind result_bind Js.bind].
  set (pts := pointsRead (lineNumber p) y) in *.
  pose proof (fold_ordered pts None (pointsRead_notNaN _ y Hinv) I) as Hord.
  destruct (foldl accPoint None pts) as [[mx mn]|] eqn:Hfold.
  - pose proof (settle_lt mx mn Hord) as Hlt.
    destruct (settle (Some (mx, mn))) as [mx' mn'] eqn:Hset.
    exists mx', mn'. split; [reflexivity|]. split; [exact Hlt|]. split.
    + intros Hnil. rewrite Hnil in Hfold. discriminate.
    + intros v Hne Hall.
      destruct (fold_single v pts None Hall Hne) as (mx0 & mn0 & Hf & Hx & Hn).
      rewrite Hfold in Hf. injection Hf as <- <-.
      destruct (settle_single mx mn v Hx Hn) as (Hpos & Hneg & Hzero).
      rewrite Hset in Hpos, Hneg, Hzero.
      split; [|split]; intros Hv.
      * specialize (Hpos Hv). injection Hpos as -> ->. by split.
      * specialize (Hneg Hv). injection Hneg as -> ->. by split.
      * specialize (Hzero Hv). injection Hzero as -> ->. by split.
  - destruct Hord as [_ Hnil]. exists (ofZ 1), (ofZ 0).
    split; [reflexivity|]. split; [reflexivity|]. split; [done|].
    intros v Hne. done.
Qed.

Lemma setMaxAndMin_domain_witness :
  exists mx mn,
    setMaxAndMin Examples.sheetPlotter
    = Ok {| bindingData := Some Examples.sheetBinding; lineNumber := 2;
            columnNumber := 2; max := Some mx; min := Some mn |}
    /\ ltb mn mx = true.
Proof.
  destruct (setMaxAndMin_domain Examples.sheetPlotter Examples.sheetBinding
              [Examples.seriesA; Examples.seriesB] eq_refl eq_refl)
    as (mx & mn & Hrun & Hlt & _).
  - destruct (convert_Ok_inv decimalNumeral Examples.sheetData
                Examples.sheetBinding eq_refl) as [H|(y & Hy & _ & _ & Hall)];
      [discriminate|].
    injection Hy as <-. exact Hall.
  - exists mx, mn. split; [exact Hrun | exact Hlt].
Defined.

End MaxMinFacts.

(** ** LineChartPlotter.isPercentageFormat *)

Section PercentageFacts.
Import Js DataConvertor Spec LineChartPlotter.

Lemma countStep_fold (s : LineDataConverted) (c : nat) :
  validDataCount s = length (data s) ->
  formattedAsText s ->
  forM (countStep s) (seq 0 (validDataCount s)) c
  = Ok (c + percentCount (data s)).
Proof.
  intros Hc Htext. rewrite Hc.
  rewrite (forM_seq_lookup (data s) (countStep s)
             (fun c pt => match pformatted pt with
                          | Str f => if hasPercent f then S c else c
                          | _ => c
                          end)).
  - f_equal. unfold percentCount. clear Hc Htext. revert c.
    induction (data s) as [|pt pts IH]; intros c; simpl; [lia|].
    rewrite IH. destruct (pformatted pt) as [| | | |f]; try lia.
    destruct (hasPercent f); simpl; lia.
  - intros a j pt Hj. unfold countStep, pointAt. rewrite Hj.
    cbn [mbind result_bind Js.bind].
    eapply Forall_lookup_1 in Htext as [f Hf]; [|exact Hj].
    by rewrite Hf.
Qed.

(** The counting loop ends without an exception only on a line whose
    formatted values are all text. *)
Lemma countStep_Ok_text (s : LineDataConverted) (c c' : nat) :
  validDataCount s = length (data s) ->
  forM (countStep s) (seq 0 (validDataCount s)) c = Ok c' ->
  formattedAsText s.
Proof.
  intros Hc Hrun. unfold formattedAsText.
  rewrite <- (firstn_all (data s)), <- Hc.
  apply (forM_invariant
           (fun i _ => Forall (fun pt => exists f, pformatted pt = Str f)
                         (take i (data s)))
           (countStep s) 0 (validDataCount s) c c'); [|constructor|exact Hrun].
  intros i x x' Hi HP Hstep. unfold countStep, pointAt in Hstep.
  destruct (data s !! i) as [pt|] eqn:Hpt; [|discriminate].
  cbn [mbind result_bind Js.bind] in Hstep.
  rewrite (take_S_r _ _ _ Hpt). apply Forall_app. split; [exact HP|].
  apply Forall_singleton.
  destruct (pformatted pt) as [| | | |f]; try discriminate. by exists f.
Qed.

(** The counting loop throws nothing but a [TypeError]. *)
Lemma countStep_Throw (s : LineDataConverted) (idx : list nat) (c : nat)
    (e : error) :
  forM (countStep s) idx c = Throw e -> e = TypeError.
Proof.
  revert c. induction idx as [|i idx IH]; intros c; [discriminate|].
  cbn [forM]. unfold countStep at 1, pointAt.
  destruct (data s !! i) as [pt|]; cbn [mbind result_bind Js.bind bind];
    [|by intros [= <-]].
  destruct (pformatted pt) as [| | | |f]; cbn [bind];
    try (by intros [= <-]).
  apply IH.
Qed.

Lemma percentageLines_spec (y : list LineDataConverted) (from n : nat) :
  Forall seriesInvariant y ->
  (percentageLines y (seq from n) = Ok true <->
   forall i s, from <= i < from + n -> y !! i = Some s -> passes s)
  /\ ((forall i s, from <= i < from + n -> y !! i = Some s ->
         formattedAsText s) ->
      exists b, percentageLines y (seq from n) = Ok b)
  /\ (forall e, percentageLines y (seq from n) = Throw e -> e = TypeError).
Proof.
  intros Hinv. revert from.
  induction n as [|n IH]; intros from; cbn [seq percentageLines].
  - split; [split; [intros _ i s Hi; lia | done]|].
    split; [intros _; by exists true | discriminate].
  - destruct (IH (S from)) as (Hiff & Htotal & Herr).
    destruct (y !! from) as [s|] eqn:Hs; cycle 1.
    { split; [|split; [|exact Herr]].
      - rewrite Hiff. split; intros Hall i s' Hi Hs'.
        + destruct (decide (i = from)) as [->|]; [congruence|].
          apply (Hall i s'); [lia | exact Hs'].
        + apply (Hall i s'); [lia | exact Hs'].
      - intros Htext. apply Htotal. intros i s' Hi. apply Htext. lia. }
    assert (Hc : validDataCount s = length (data s))
      by (by eapply Forall_lookup_1 in Hinv as (Hc & _)).
    destruct (forM (countStep s) (seq 0 (validDataCount s)) 0)
      as [count|e] eqn:Hcount; cbn [mbind result_bind Js.bind].
    + pose proof (countStep_Ok_text s 0 count Hc Hcount) as Htext.
      rewrite (countStep_fold s 0 Hc Htext), Nat.add_0_l in Hcount.
      injection Hcount as <-.
      destruct ((2 * percentCount (data s) <? validDataCount s)
                || (percentCount (data s) =? 0)) eqn:Htest.
      * split; [|split; [intros _; by exists false | discriminate]].
        split; [discriminate|].
        intros Hall. destruct (Hall from s) as (_ & H1 & H2); [lia|exact Hs|].
        apply orb_true_iff in Htest as [Ht|Ht];
          [apply Nat.ltb_lt in Ht | apply Nat.eqb_eq in Ht]; lia.
      * apply orb_false_iff in Htest as [Ht1 Ht2].
        apply Nat.ltb_ge in Ht1. apply Nat.eqb_neq in Ht2.
        split; [|split; [|exact Herr]].
        -- rewrite Hiff. split; intros Hall i s' Hi Hs'.
           ++ destruct (decide (i = from)) as [->|].
              ** rewrite Hs in Hs'. injection Hs' as <-. by repeat split.
              ** apply (Hall i s'); [lia | exact Hs'].
           ++ apply (Hall i s'); [lia | exact Hs'].
        -- intros Htext'. apply Htotal. intros i s' Hi. apply Htext'. lia.
    + split; [|split].
      * split; [discriminate|].
        intros Hall. destruct (Hall from s) as (Htext & _); [lia|exact Hs|].
        rewrite (countStep_fold s 0 Hc Htext) in Hcount. discriminate.
      * intros Htext.
        rewrite (countStep_fold s 0 Hc (Htext from s ltac:(lia) Hs)) in Hcount.
        discriminate.
      * intros e' [= <-]. by apply countStep_Throw in Hcount.
Qed.

(** C4, as the code has it: on binding data as the conversion delivers it,
    [isPercentageFormat] answers [true] exactly when, in every line read,
    the formatted values are all text and at least half of them, and at
    least one, contain a [%] sign.  When the formatted values of the lines
    read are all text it answers, [true] or [false]; a formatted value that
    is no text makes it throw a [TypeError], or answer [false] for a line
    read before, never [true]. *)
Theorem isPercentageFormat_iff (p : Plotter) (bd : BindingData)
    (y : list LineDataConverted) :
  bindingData p = Some bd ->
  yData bd = Some y ->
  Forall seriesInvariant y ->
  (isPercentageFormat p = Ok true <->
   forall s, s ∈ take (lineNumber p) y ->
     formattedAsText s
     /\ validDataCount s <= 2 * percentCount (data s)
     /\ percentCount (data s) <> 0)
  /\ (Forall formattedAsText (take (lineNumber p) y) ->
      exists b, isPercentageFormat p = Ok b)
  /\ (isPercentageFormat p = Ok true
      \/ isPercentageFormat p = Ok false
      \/ isPercentageFormat p = Throw TypeError).
Proof.
  intros Hbd Hy Hinv.
  destruct (percentageLines_spec y 0 (lineNumber p) Hinv)
    as (Hiff & Htotal & Herr).
  assert (Hrun : isPercentageFormat p
                 = percentageLines y (seq 0 (lineNumber p))).
  { unfold isPercentageFormat.
    destruct (lineNumber p) as [|n] eqn:Hn; [reflexivity|].
    unfold linesOf. by rewrite Hbd, Hy. }
  rewrite Hrun. split; [|split].
  - rewrite Hiff. unfold passes. split.
    + intros Hall s Hs. apply list_elem_of_lookup in Hs as [i Hi].
      apply lookup_take_Some in Hi as [Hi Hlt].
      apply (Hall i s); [lia | exact Hi].
    + intros Hall i s Hi Hs. apply Hall.
      apply list_elem_of_lookup. exists i.
      apply lookup_take_Some. split; [exact Hs | lia].
  - intros Htext. apply Htotal. intros i s Hi Hs.
    rewrite Forall_forall in Htext. apply Htext.
    apply list_elem_of_lookup. exists i.
    apply lookup_take_Some. split; [exact Hs | lia].
  - destruct (percentageLines y (seq 0 (lineNumber p))) as [[|]|e] eqn:Hr;
      [by left | right; by left | right; right].
    by rewrite (Herr e eq_refl).
Qed.

Lemma halfPercent_invariant :
  Forall seriesInvariant [Examples.halfPercent]
  /\ Forall formattedAsText [Examples.halfPercent].
Proof.
  split; repeat constructor; simpl; eauto.
Qed.

Lemma isPercentageFormat_iff_witness :
  (isPercentageFormat Examples.halfPercentPlotter = Ok true <->
   forall s, s ∈ take 1 [Examples.halfPercent] ->
     formattedAsText s
     /\ validDataCount s <= 2 * percentCount (data s)
     /\ percentCount (data s) <> 0)
  /\ exists b, isPercentageFormat Examples.halfPercentPlotter = Ok b.
Proof.
  destruct (isPercentageFormat_iff Examples.halfPercentPlotter _
              [Examples.halfPercent] eq_refl eq_refl
              (proj1 halfPercent_invariant)) as (Hiff & Htotal & _).
  split; [exact Hiff|]. apply Htotal. exact (proj2 halfPercent_invariant).
Defined.

(** C4 fails as stated: a line of two values of which exactly one contains a
    [%] sign, which is not more than half of them, is displayed as
    percentages. *)
Lemma isPercentageFormat_at_exactly_half :
  isPercentageFormat Examples.halfPercentPlotter = Ok true
  /\ percentCount (data Examples.halfPercent) = 1
  /\ validDataCount Examples.halfPercent = 2
  /\ ~ (validDataCount Examples.halfPercent
        < 2 * percentCount (data Examples.halfPercent)).
Proof.
  repeat split; try reflexivity. vm_compute. lia.
Qed.

(** A formatted value that is no text, here the number that the conversion
    copies from a cell formatted as a number, makes [isPercentageFormat]
    throw. *)
Example isPercentageFormat_throws_on_a_number :
  isPercentageFormat
    {| bindingData :=
         Some {| header := []; xData := [Str "a"];
                 yData := Some [{| validDataCount := 1;
                                   data := [{| originalIndex := 0;
                                               pformatted := Num (ofZ 3);
                                               punformatted := ofZ 3 |}] |}] |};
       lineNumber := 1; columnNumber := 1; max := None; min := None |}
  = Throw TypeError.
Proof. reflexivity. Qed.

End PercentageFacts.

(** ** Configuration.set and its listeners *)

Section ConfigurationFacts.
Import Js Configuration Spec.

Lemma persists_skeleton (w w' : World) :
  skeleton w' = skeleton w -> persists w' = persists w.
Proof.
  unfold skeleton, persists. intros H. injection H as _ _ -> _ _ _ _ -> _ _.
  reflexivity.
Qed.

Lemma onConfigurationChanged_spec (l : listener) (k : string) (v : value)
    (w : World) :
  exists r w',
    onConfigurationChanged l k v w = (r, w')
    /\ skeleton w' = skeleton w
    /\ store w' = store w
    /\ trace w' = trace w ++ listenerEvents (persists w) k v l
    /\ (reentryFlag w = true -> documentSettings w' = documentSettings w)
    /\ (k <> "" \/ l <> TheThemeProvider -> notNull v = true -> r = Ok tt).
Proof.
  unfold onConfigurationChanged, bindM, modify, persists, hasDocument, skeleton,
    store.
  destruct w as [st ks ls ids flag doc tp tm nw nx tr len pr tpr h].
  destruct l as [| |n]; simpl.
  - unfold configuratorChanged, save; simpl.
    destruct flag; simpl.
    + eexists _, _. repeat split; reflexivity.
    + destruct doc as [d|]; simpl; eexists _, _;
        (repeat split; simpl; rewrite <- ?app_assoc;
         try reflexivity; try discriminate).
  - unfold themeProviderChanged; simpl.
    destruct (bool_decide (k = "")) eqn:Hk; simpl;
      [|destruct (notNull v) eqn:Hv; simpl;
        [destruct (bool_decide (k = "theme")); simpl|]];
      eexists _, _; (repeat split; try reflexivity; simpl; try done).
    apply bool_decide_eq_true in Hk. intros [?|?]; done.
  - unfold ret. eexists _, _. repeat split; reflexivity.
Qed.

Lemma notify_spec (k : string) (v : value) (ls : list listener) (w : World) :
  exists r w' ls',
    forEach (fun l => onConfigurationChanged l k v) ls w = (r, w')
    /\ skeleton w' = skeleton w
    /\ store w' = store w
    /\ ls' `prefix_of` ls
    /\ trace w' = trace w ++ flat_map (listenerEvents (persists w) k v) ls'
    /\ (reentryFlag w = true -> documentSettings w' = documentSettings w)
    /\ (r = Ok tt -> ls' = ls)
    /\ (k <> "" \/ TheThemeProvider ∉ ls -> notNull v = true -> r = Ok tt).
Proof.
  revert w. induction ls as [|l ls IH]; intros w.
  - exists (Ok tt), w, []. simpl. unfold ret.
    repeat split; try reflexivity. by rewrite app_nil_r.
  - simpl. unfold bindM.
    destruct (onConfigurationChanged_spec l k v w)
      as (r1 & w1 & -> & Hs1 & Hset1 & Ht1 & Hd1 & Hok1).
    destruct r1 as [[]|e].
    + destruct (IH w1) as (r & w' & ls' & -> & Hs & Hset & Hp & Ht & Hd & Hall & Hok).
      exists r, w', (l :: ls'). split; [reflexivity|].
      split; [congruence|]. split; [congruence|].
      split; [by apply prefix_cons|].
      split; [|split; [|split]].
      * rewrite Ht, Ht1, (persists_skeleton w w1 Hs1), <- app_assoc.
        reflexivity.
      * intros Hf. rewrite Hd, Hd1; [reflexivity|exact Hf|].
        unfold skeleton in Hs1. injection Hs1 as _ _ -> _ _ _ _ _ _ _.
        exact Hf.
      * intros Hr. by rewrite (Hall Hr).
      * intros Hk Hv. apply Hok; [|exact Hv].
        destruct Hk as [Hk|Hk]; [by left|right].
        intros Hin. apply Hk. by right.
    + exists (Throw e), w1, [l]. split; [reflexivity|].
      split; [exact Hs1|]. split; [exact Hset1|].
      split; [apply prefix_cons, prefix_nil|].
      split; [simpl; by rewrite app_nil_r|].
      split; [exact Hd1|]. split; [discriminate|].
      intros Hk Hv. exfalso.
      assert (Throw e = Ok tt) as Habs; [|discriminate].
      apply Hok1; [|exact Hv].
      destruct Hk as [Hk|Hk]; [by left|right].
      intros ->. apply Hk. by left.
Qed.

(** The assignment [this.settings[key] = value] under a key that is neither
    [length] nor [__proto__]. *)
Lemma assignSetting_settingKey (k : string) (v : value) (w : World) :
  settingKey k ->
  assignSetting k v w = (Ok tt, record (Written k v) (storeSetting k v w)).
Proof.
  intros [Hl Hp]. unfold assignSetting.
  by rewrite (bool_decide_eq_false_2 _ Hl), (bool_decide_eq_false_2 _ Hp).
Qed.

(** The assignment, whatever the key: what it leaves alone. *)
Lemma assignSetting_spec (k : string) (v : value) (w : World) :
  exists r w' evs,
    assignSetting k v w = (r, w')
    /\ skeleton w' = skeleton w
    /\ documentSettings w' = documentSettings w
    /\ themeProvider w' = themeProvider w
    /\ trace w' = trace w ++ evs
    /\ Forall (fun e => keyOf e = k /\ isSaved e = false) evs
    /\ (r <> Ok tt -> w' = w)
    /\ (forall k', k' <> k -> isArrayIndex k' = false \/ k <> "length" ->
          settings w' !! k' = settings w !! k').
Proof.
  unfold assignSetting.
  destruct (bool_decide (k = "length")) eqn:Hl.
  - apply bool_decide_eq_true in Hl.
    destruct (asArrayLength (toNumber (host w) v)) as [n|].
    + eexists _, _, [_]. split; [reflexivity|].
      repeat split; try done.
      * by constructor.
      * intros k' Hne [Hi|Hk]; [|done]. cbn.
        rewrite map_lookup_filter.
        destruct (settings w !! k') as [x|]; [|reflexivity]. cbn.
        rewrite option_guard_True; [reflexivity|]. by left.
    + exists (Throw RangeError), w, []. rewrite app_nil_r.
      by repeat split.
  - destruct (bool_decide (k = "__proto__")).
    + destruct v as [p|a]; eexists _, _, []; (split; [reflexivity|]);
        cbn; rewrite app_nil_r; by repeat split.
    + eexists _, _, [_]. split; [reflexivity|].
      repeat split; try done.
      * by constructor.
      * intros k' Hne _. cbn. by rewrite lookup_insert_ne by congruence.
Qed.

(** A notifying [set] of a value that is not null, under a key that is
    neither [length] nor [__proto__]: the value is stored and written once,
    then the listeners are called in order, up to the first that throws. *)
Lemma set_spec (k : string) (v : value) (w : World) :
  settingKey k ->
  notNull v = true ->
  exists r w' ls',
    set k v true w = (r, w')
    /\ skeleton w' = skeleton w
    /\ settings w' = <[k := v]> (settings w)
    /\ ls' `prefix_of` changeListeners w
    /\ trace w' = trace w ++ setEvents ls' (persists w) k v
    /\ (reentryFlag w = true -> documentSettings w' = documentSettings w)
    /\ (r = Ok tt -> ls' = changeListeners w)
    /\ (k <> "" \/ TheThemeProvider ∉ changeListeners w -> r = Ok tt).
Proof.
  intros Hkey Hv. unfold set. rewrite Hv. simpl. unfold bindM.
  rewrite (assignSetting_settingKey k v w Hkey).
  set (w0 := record (Written k v) (storeSetting k v w)).
  destruct (notify_spec k v (changeListeners w0) w0)
    as (r & w' & ls' & Hrun & Hs & Hset & Hp & Ht & Hd & Hall & Hok).
  exists r, w', ls'. split; [exact Hrun|].
  split; [exact Hs|]. split; [by injection Hset as -> _ _|]. split; [exact Hp|].
  split; [|split; [|split]].
  - rewrite Ht. subst w0. simpl. by rewrite <- app_assoc.
  - exact Hd.
  - exact Hall.
  - intros Hk. by apply Hok.
Qed.

(** The array of the settings after a [set] under such a key, whether the
    listeners are told or not and even when one of them throws. *)
Lemma set_store (k : string) (v : value) (b : bool) (w : World) :
  settingKey k ->
  notNull v = true ->
  store (set k v b w).2 = store (storeSetting k v w).
Proof.
  intros Hkey Hv. unfold set. rewrite Hv. simpl. unfold bindM.
  rewrite (assignSetting_settingKey k v w Hkey).
  destruct b; [|reflexivity].
  set (w0 := record (Written k v) (storeSetting k v w)).
  destruct (notify_spec k v (changeListeners w0) w0)
    as (r & w' & ls' & -> & _ & Hset & _).
  exact Hset.
Qed.

(** A [set] of null or undefined throws before anything changes. *)
Lemma set_null (k : string) (v : value) (b : bool) (w : World) :
  notNull v = false -> set k v b w = (Throw ParameterIsNull, w).
Proof. intros Hv. unfold set. by rewrite Hv. Qed.

(** A notifying [set], whatever the key: the keys it leaves alone, and what
    it leaves in the trace. *)
Lemma set_frame (k : string) (v : value) (w : World) :
  exists r w' evs,
    set k v true w = (r, w')
    /\ skeleton w' = skeleton w
    /\ trace w' = trace w ++ evs
    /\ Forall (fun e => keyOf e = k) evs
    /\ (reentryFlag w = true ->
        documentSettings w' = documentSettings w
        /\ Forall (fun e => isSaved e = false) evs)
    /\ (forall k', k' <> k -> isArrayIndex k' = false \/ k <> "length" ->
          settings w' !! k' = settings w !! k').
Proof.
  destruct (notNull v) eqn:Hv; cycle 1.
  { rewrite (set_null _ _ _ _ Hv). exists (Throw ParameterIsNull), w, [].
    rewrite app_nil_r. by repeat split. }
  unfold set. rewrite Hv. simpl. unfold bindM.
  destruct (assignSetting_spec k v w)
    as (r0 & w0 & evs0 & -> & Hs0 & Hd0 & _ & Ht0 & He0 & _ & Hk0).
  destruct r0 as [[]|e]; cycle 1.
  { exists (Throw e), w0, evs0. split; [reflexivity|].
    split; [exact Hs0|]. split; [exact Ht0|].
    split; [eapply Forall_impl; [exact He0|]; by intros e' [? _]|].
    split; [|exact Hk0].
    intros _. split; [exact Hd0|].
    eapply Forall_impl; [exact He0|]. by intros e' [_ ?]. }
  destruct (notify_spec k v (changeListeners w0) w0)
    as (r & w' & ls' & -> & Hs & Hset & _ & Ht & Hd & _).
  exists r, w', (evs0 ++ flat_map (listenerEvents (persists w0) k v) ls').
  split; [reflexivity|]. split; [congruence|].
  split; [by rewrite Ht, Ht0, app_assoc|].
  assert (Hf0 : reentryFlag w0 = reentryFlag w).
  { unfold skeleton in Hs0. by injection Hs0 as _ _ -> _ _ _ _ _ _ _. }
  split; [|split].
  - apply Forall_app. split.
    + eapply Forall_impl; [exact He0|]. by intros e' [? _].
    + clear. induction ls' as [|l ls' IH]; [constructor|].
      simpl. constructor; [reflexivity|]. apply Forall_app. split; [|exact IH].
      destruct l; try constructor.
      destruct (persists w0); repeat constructor.
  - intros Hf. split; [rewrite Hd, Hd0; [reflexivity | congruence]|].
    apply Forall_app. split.
    + eapply Forall_impl; [exact He0|]. by intros e' [_ ?].
    + assert (Hp : persists w0 = false)
        by (unfold persists; by rewrite Hf0, Hf).
      rewrite Hp. clear. induction ls' as [|l ls' IH]; [constructor|].
      simpl. constructor; [reflexivity|]. apply Forall_app. split; [|exact IH].
      destruct l; constructor.
  - intros k' Hne Hi. injection Hset as -> _ _. by apply Hk0.
Qed.

(** Reading a key that is neither [length] nor [__proto__]. *)
Lemma get_settingKey (k : string) (w : World) :
  settingKey k ->
  get k w = default (inheritedSetting k w) (settings w !! k).
Proof.
  intros [Hl Hp]. unfold get.
  by rewrite (bool_decide_eq_false_2 _ Hl), (bool_decide_eq_false_2 _ Hp).
Qed.

Lemma get_stored (k : string) (v : value) (w : World) :
  settingKey k -> settings w !! k = Some v -> get k w = v.
Proof. intros Hkey Hv. by rewrite (get_settingKey k w Hkey), Hv. Qed.

(** Reading a key depends on the array of the settings and on the host. *)
Lemma get_ext (k : string) (w w' : World) :
  settings w' !! k = settings w !! k ->
  k <> "length" \/ settingsLength w' = settingsLength w ->
  settingsProto w' = settingsProto w ->
  host w' = host w ->
  get k w' = get k w.
Proof.
  intros Hset Hlen Hproto Hhost. unfold get, inheritedSetting.
  rewrite Hset, Hproto, Hhost.
  destruct (bool_decide (k = "length")) eqn:Hk; [|reflexivity].
  apply bool_decide_eq_true in Hk. destruct Hlen as [Hne|Heq]; [done|].
  by rewrite Heq.
Qed.

Lemma set_host (k : string) (v : value) (b : bool) (w : World) :
  host (set k v b w).2 = host w.
Proof.
  destruct (notNull v) eqn:Hv; [|by rewrite (set_null _ _ _ _ Hv)].
  destruct b.
  - destruct (set_frame k v w) as (r & w' & evs & -> & Hs & _).
    unfold skeleton in Hs. injection Hs as _ _ _ _ _ _ _ _ _ Hh.
    exact Hh.
  - unfold set. rewrite Hv. cbn [negb]. unfold bindM.
    destruct (assignSetting_spec k v w) as (r & w' & evs & -> & Hs & _).
    unfold skeleton in Hs. injection Hs as _ _ _ _ _ _ _ _ _ Hh.
    by destruct r as [[]|e].
Qed.

(** A notifying [set] under a key that is no array index either: it
    returns when no listener throws, and reading a key afterwards gives the
    value under that key and what was read before under any other. *)
Lemma set_get (k : string) (v : value) (w : World) :
  settingKey k ->
  isArrayIndex k = false ->
  notNull v = true ->
  k <> "" ->
  exists w',
    set k v true w = (Ok tt, w')
    /\ settings w' = <[k := v]> (settings w)
    /\ forall key, get key w' = if decide (key = k) then v else get key w.
Proof.
  intros Hkey Hi Hv Hk.
  pose proof (set_store k v true w Hkey Hv) as Hstore.
  pose proof (set_host k v true w) as Hhost.
  destruct (set_spec k v w Hkey Hv)
    as (r & w' & ls' & Hrun & _ & Hset & _ & _ & _ & _ & Hok).
  rewrite Hrun in Hstore, Hhost. cbn [snd] in Hstore, Hhost.
  rewrite (Hok (or_introl Hk)) in Hrun.
  exists w'. split; [exact Hrun|]. split; [exact Hset|].
  unfold store in Hstore. cbn in Hstore. rewrite Hi in Hstore.
  injection Hstore as _ Hlen Hproto.
  intros key. destruct (decide (key = k)) as [->|Hne].
  - apply get_stored; [exact Hkey|]. by rewrite Hset, lookup_insert_eq.
  - apply get_ext; [|by right|exact Hproto|exact Hhost].
    by rewrite Hset, lookup_insert_ne by congruence.
Qed.

Lemma setEvents_not_saved (ls : list listener) (k : string) (v : value) :
  Forall (fun e => isSaved e = false) (setEvents ls false k v).
Proof.
  unfold setEvents. constructor; [reflexivity|].
  induction ls as [|l ls IH]; [constructor|].
  simpl. constructor; [reflexivity|].
  destruct l; simpl; exact IH.
Qed.

(** The loop of [loadAll], run while the configurator's flag is up. *)
Lemma loadKeys_spec (host : gmap string value) (ks : list string) (w : World) :
  reentryFlag w = true ->
  documentSettings w = Some host ->
  exists r w' evs,
    forEach loadKey ks w = (r, w')
    /\ skeleton w' = skeleton w
    /\ documentSettings w' = Some host
    /\ trace w' = trace w ++ evs
    /\ Forall (fun e => isSaved e = false) evs
    /\ (Forall settingKey ks ->
        "" ∉ ks \/ TheThemeProvider ∉ changeListeners w ->
        r = Ok tt
        /\ evs = flat_map (loadEvents (changeListeners w) host) ks).
Proof.
  revert w. induction ks as [|k ks IH]; intros w Hf Hd.
  - exists (Ok tt), w, []. simpl. unfold ret.
    repeat split; try done. by rewrite app_nil_r.
  - simpl. unfold bindM.
    assert (Hstep : exists r1 w1 evs1,
               loadKey k w = (r1, w1)
               /\ skeleton w1 = skeleton w
               /\ documentSettings w1 = Some host
               /\ trace w1 = trace w ++ evs1
               /\ Forall (fun e => isSaved e = false) evs1
               /\ (settingKey k ->
                   k <> "" \/ TheThemeProvider ∉ changeListeners w ->
                   r1 = Ok tt
                   /\ evs1 = loadEvents (changeListeners w) host k)).
    { unfold loadKey, loadEvents. rewrite Hd.
      destruct (host !! k) as [v|] eqn:Hv.
      - destruct (notNull v) eqn:Hn.
        + destruct (decide (settingKey k)) as [Hkey|Hkey].
          * destruct (set_spec k v w Hkey Hn)
              as (r1 & w1 & ls' & -> & Hs & _ & _ & Ht & Hdoc & Hall & Hok).
            assert (Hp : persists w = false)
              by (unfold persists; by rewrite Hf).
            rewrite Hp in Ht.
            exists r1, w1, (setEvents ls' false k v).
            split; [reflexivity|]. split; [exact Hs|].
            split; [by rewrite Hdoc|]. split; [exact Ht|].
            split; [apply setEvents_not_saved|].
            intros _ Hk. specialize (Hok Hk). split; [exact Hok|].
            by rewrite (Hall Hok).
          * destruct (set_frame k v w)
              as (r1 & w1 & evs1 & -> & Hs & Ht & _ & Hflag & _).
            destruct (Hflag Hf) as [Hdoc Hns].
            exists r1, w1, evs1. split; [reflexivity|]. split; [exact Hs|].
            split; [by rewrite Hdoc|]. split; [exact Ht|].
            split; [exact Hns|]. intros Habs. done.
        + exists (Ok tt), w, []. rewrite app_nil_r. repeat split; done.
      - exists (Ok tt), w, []. rewrite app_nil_r. repeat split; done. }
    destruct Hstep as (r1 & w1 & evs1 & -> & Hs1 & Hd1 & Ht1 & Hn1 & Hok1).
    assert (Hf1 : reentryFlag w1 = true).
    { unfold skeleton in Hs1. injection Hs1 as _ _ -> _ _ _ _ _ _ _.
      exact Hf. }
    assert (Hl1 : changeListeners w1 = changeListeners w).
    { unfold skeleton in Hs1. by injection Hs1 as _ -> _ _ _ _ _ _ _ _. }
    destruct r1 as [[]|e].
    + destruct (IH w1 Hf1 Hd1) as (r & w' & evs & -> & Hs & Hd' & Ht & Hn & Hok).
      exists r, w', (evs1 ++ evs). split; [reflexivity|].
      split; [congruence|]. split; [exact Hd'|].
      split; [by rewrite Ht, Ht1, app_assoc|].
      split; [by apply Forall_app|].
      intros Hkeys Hk. apply Forall_cons in Hkeys as [Hkey Hkeys].
      rewrite Hl1 in Hok.
      destruct (Hok Hkeys) as [-> ->].
      { destruct Hk as [Hk|Hk]; [left|by right].
        intros Hin. apply Hk. by right. }
      destruct (Hok1 Hkey) as [_ ->]; [|done].
      destruct Hk as [Hk|Hk]; [left|by right].
      intros ->. apply Hk. by left.
    + exists (Throw e), w1, evs1. split; [reflexivity|].
      split; [exact Hs1|]. split; [exact Hd1|]. split; [exact Ht1|].
      split; [exact Hn1|].
      intros Hkeys Hk. apply Forall_cons in Hkeys as [Hkey _].
      exfalso. destruct (Hok1 Hkey) as [Habs _]; [|discriminate].
      destruct Hk as [Hk|Hk]; [left|by right].
      intros ->. apply Hk. by left.
Qed.

(** C3, as the code has it.  Nothing that [loadAll] writes is saved back,
    whatever the keys: the document settings are left as they were and no
    save is made.  But the listeners are not kept out: when the keys of the
    configuration are keys under which the array of the settings stores a
    property (neither [length] nor [__proto__]), and unless a listener
    throws (the theme provider does on an empty key), every key that the
    document holds a value for is written once and every registered
    listener is called with it, in order. *)
Theorem loadAll_notifies_and_never_saves (w : World) :
  documentSettings (loadAll w).2 = documentSettings w
  /\ (exists evs, trace (loadAll w).2 = trace w ++ evs
                  /\ Forall (fun e => isSaved e = false) evs)
  /\ (forall host,
        documentSettings w = Some host ->
        Forall settingKey (keys w) ->
        "" ∉ keys w \/ TheThemeProvider ∉ changeListeners w ->
        (loadAll w).1 = Ok tt
        /\ reentryFlag (loadAll w).2 = false
        /\ trace (loadAll w).2
           = trace w ++ flat_map (loadEvents (changeListeners w) host) (keys w)).
Proof.
  unfold loadAll.
  destruct (documentSettings w) as [host|] eqn:Hd.
  - unfold bindM, clear, modify.
    set (w0 := withReentryFlag true _).
    destruct (loadKeys_spec host (keys w) w0 eq_refl Hd)
      as (r & w' & evs & Hrun & Hs & Hd' & Ht & Hn & Hok).
    rewrite Hrun.
    destruct r as [[]|e]; simpl.
    + split; [exact Hd'|]. split; [by exists evs|].
      intros host' Hh Hkeys Hk. injection Hh as <-.
      destruct (Hok Hkeys Hk) as [_ ->]. by repeat split.
    + split; [exact Hd'|]. split; [by exists evs|].
      intros host' Hh Hkeys Hk. destruct (Hok Hkeys Hk) as [Habs _].
      discriminate.
  - simpl. split; [exact Hd|]. split.
    + exists []. by rewrite app_nil_r.
    + intros host Hh. discriminate.
Qed.

Lemma app_keys_are_settingKeys : Forall settingKey ["theme"; "sku"].
Proof. repeat constructor; discriminate. Qed.

Lemma loadAll_notifies_and_never_saves_witness :
  (loadAll Examples.freshApp).1 = Ok tt
  /\ reentryFlag (loadAll Examples.freshApp).2 = false
  /\ trace (loadAll Examples.freshApp).2
     = trace Examples.freshApp
       ++ flat_map (loadEvents (changeListeners Examples.freshApp)
                      Examples.darkDocument)
                   (keys Examples.freshApp).
Proof.
  apply (proj2 (proj2 (loadAll_notifies_and_never_saves Examples.freshApp))
           Examples.darkDocument);
    [reflexivity | exact app_keys_are_settingKeys |].
  left. change ("" ∉ ["theme"; "sku"]). rewrite !not_elem_of_cons.
  repeat split; [discriminate | discriminate | apply not_elem_of_nil].
Defined.

(** C3 fails as stated: while [loadAll] loads the theme "dark", the
    configurator and the theme provider are both called with it, and the
    theme provider takes it for its current theme. *)
Lemma loadAll_calls_listeners :
  trace (loadAll Examples.freshApp).2
  = [Written "theme" (Prim (Str "dark"));
     Notified TheConfigurator "theme" (Prim (Str "dark"));
     Notified TheThemeProvider "theme" (Prim (Str "dark"))]
  /\ ThemeProvider.currentThemeId (themeProvider Examples.freshApp)
     = Prim (Str "")
  /\ ThemeProvider.currentThemeId (themeProvider (loadAll Examples.freshApp).2)
     = Prim (Str "dark").
Proof. vm_compute. repeat split. Qed.

(** Under [length] the array takes a length only: a document that holds
    the text "dark" under a key [length] of the configuration makes
    [loadAll] throw before any listener is called, and the flag of the
    configurator stays up. *)
Example loadAll_length_throws :
  let w := create Examples.plainHost ["length"]
             (Some {[ "length" := Prim (Str "dark") ]}) in
  (loadAll w).1 = Throw RangeError
  /\ trace (loadAll w).2 = []
  /\ reentryFlag (loadAll w).2 = true.
Proof. vm_compute. repeat split. Qed.

End ConfigurationFacts.

(** ** The resets of the per-line chart state *)

Section ResetFacts.
Import Js TrendsConfig DataConvertor Configuration Spec LineChartPlotter.

Variable defaultLegendName : nat -> string.

Lemma set_ok (k : string) (v : value) (w : World) :
  settingKey k -> notNull v = true -> k <> "" ->
  exists w', set k v true w = (Ok tt, w')
             /\ settings w' = <[k := v]> (settings w).
Proof.
  intros Hkey Hv Hk.
  destruct (set_spec k v w Hkey Hv)
    as (r & w' & ls' & Hrun & _ & Hs & _ & _ & _ & _ & Hok).
  exists w'. rewrite Hrun, (Hok (or_introl Hk)). by split.
Qed.

Ltac run_set :=
  match goal with
  | |- context [set ?k ?v true ?w] =>
      let w' := fresh "w" in
      let Hs := fresh "Hs" in
      destruct (set_ok k v w) as (w' & -> & Hs);
        [split; discriminate | reflexivity | discriminate |];
      cbn iota beta
  end.

(** The four resets, run one after the other. *)
Lemma resets_spec (w : World) :
  exists w',
    (Trends.resetClickedPointIdArrays >> Trends.resetLineOrder >>
     Trends.resetLineDisplay >>
     Trends.resetLineTitleArray defaultLegendName) w = (Ok tt, w')
    /\ storedLength Trends.lineOrder w' = Some MaxLineNumber
    /\ storedLength Trends.lineDisplay w' = Some MaxLineNumber
    /\ storedLength Trends.lineTitleArray w' = Some MaxLineNumber.
Proof.
  unfold bindM, Trends.resetClickedPointIdArrays, Trends.resetLineOrder,
    Trends.resetLineDisplay, Trends.resetLineTitleArray, bindM.
  repeat run_set.
  eexists. split; [reflexivity|].
  unfold storedLength. rewrite !get_settingKey by (split; discriminate).
  rewrite Hs3, Hs2, Hs1, Hs0.
  unfold Trends.lineOrder, Trends.lineDisplay, Trends.lineTitleArray,
    Trends.isLegendEdited.
  repeat split;
    rewrite !lookup_insert_ne by discriminate; rewrite lookup_insert_eq;
    unfold default; cbn [from_option]; f_equal; apply length_fold_assign.
Qed.

(** C1, as the code has it: when the number of lines of the new data differs
    from that of the data held, [onDataChanged] runs the resets and leaves
    under [lineOrder], [lineDisplay] and [lineTitleArray] three arrays of
    length [MaxLineNumber], five, whatever the new number of lines. *)
Theorem onDataChanged_resets_to_MaxLineNumber (p : Plotter)
    (old new : BindingData) (yo yn : list LineDataConverted) (w : World) :
  bindingData p = Some old ->
  yData old = Some yo ->
  yData new = Some yn ->
  length yn <> length yo ->
  (onDataChanged defaultLegendName p (Some new) w).1 = Ok tt
  /\ storedLength Trends.lineOrder
       (onDataChanged defaultLegendName p (Some new) w).2 = Some MaxLineNumber
  /\ storedLength Trends.lineDisplay
       (onDataChanged defaultLegendName p (Some new) w).2 = Some MaxLineNumber
  /\ storedLength Trends.lineTitleArray
       (onDataChanged defaultLegendName p (Some new) w).2 = Some MaxLineNumber.
Proof.
  intros Hp Hyo Hyn Hne.
  assert (Hrun : exists w',
             onDataChanged defaultLegendName p (Some new) w = (Ok tt, w')
             /\ storedLength Trends.lineOrder w' = Some MaxLineNumber
             /\ storedLength Trends.lineDisplay w' = Some MaxLineNumber
             /\ storedLength Trends.lineTitleArray w' = Some MaxLineNumber).
  { unfold onDataChanged. rewrite Hp, Hyn, Hyo.
    rewrite (bool_decide_eq_true_2 _ Hne).
    assert (Hfirst : exists w1,
               (if bool_decide (length (xData new) ≠ length (xData old))
                then Trends.resetClickedPointIdArrays else ret tt) w
               = (Ok tt, w1)).
    { destruct (bool_decide _); [|by eexists].
      unfold Trends.resetClickedPointIdArrays.
      destruct (set_ok Trends.clickedPointIdArray (Arr []) w)
        as (w1 & -> & _); [split; discriminate | reflexivity | discriminate |].
      by eexists. }
    destruct Hfirst as (w1 & Hfirst).
    unfold bindM at 1. rewrite Hfirst.
    apply resets_spec. }
  destruct Hrun as (w' & -> & H1 & H2 & H3). by repeat split.
Qed.

End ResetFacts.

Section ResetExamples.
Import Js TrendsConfig DataConvertor Configuration Spec LineChartPlotter.
Import Examples.

Lemma onDataChanged_resets_to_MaxLineNumber_witness :
  (onDataChanged legendName sheetPlotter (Some threeLines) freshApp).1 = Ok tt
  /\ storedLength Trends.lineOrder
       (onDataChanged legendName sheetPlotter (Some threeLines) freshApp).2
     = Some MaxLineNumber
  /\ storedLength Trends.lineDisplay
       (onDataChanged legendName sheetPlotter (Some threeLines) freshApp).2
     = Some MaxLineNumber
  /\ storedLength Trends.lineTitleArray
       (onDataChanged legendName sheetPlotter (Some threeLines) freshApp).2
     = Some MaxLineNumber.
Proof.
  apply (onDataChanged_resets_to_MaxLineNumber legendName sheetPlotter
           sheetBinding threeLines [seriesA; seriesB]
           [seriesA; seriesB; seriesA] freshApp);
    [reflexivity | reflexivity | reflexivity | simpl; lia].
Defined.

(** C1 fails as stated: the plotter holds two lines and receives three.
    After the resets of [onDataChanged] the three stored arrays have five
    entries each, not three.  When [plot] has gone on through [initData],
    which cuts the order and the visibility in place to the three lines, the
    titles still number five, the new data having no header. *)
Lemma reset_lengths_are_not_the_line_count :
  length <$> yData threeLines = Some 3
  /\ (let w1 := (onDataChanged legendName sheetPlotter (Some threeLines)
                   freshApp).2 in
      storedLength Trends.lineOrder w1 = Some 5
      /\ storedLength Trends.lineDisplay w1 = Some 5
      /\ storedLength Trends.lineTitleArray w1 = Some 5)
  /\ (let w2 := (plot legendName sheetPlotter (Some threeLines) freshApp).2 in
      storedLength Trends.lineOrder w2 = Some 3
      /\ storedLength Trends.lineDisplay w2 = Some 3
      /\ storedLength Trends.lineTitleArray w2 = Some 5).
Proof. vm_compute. repeat split. Qed.

End ResetExamples.

(** ** Timers and Configuration.delaySet *)

Section DelaySetFacts.
Import Js Configuration Spec.

Lemma filter_all {A} (P : A -> Prop) `{!forall x, Decision (P x)} (l : list A) :
  Forall P l -> filter P l = l.
Proof.
  induction 1 as [|x l Hx _ IH]; [reflexivity|].
  by rewrite filter_cons_True, IH.
Qed.

Lemma filter_none {A} (P : A -> Prop) `{!forall x, Decision (P x)} (l : list A) :
  Forall (fun x => ~ P x) l <-> filter P l = [].
Proof.
  induction l as [|x l IH].
  - split; [reflexivity | constructor].
  - rewrite filter_cons. destruct (decide (P x)) as [Hx|Hx].
    + split; [|discriminate].
      intros Hall. apply Forall_cons in Hall as [Hall _]. done.
    + rewrite <- IH. split.
      * intros Hall. by apply Forall_cons in Hall as [_ Hall].
      * intros Hall. by constructor.
Qed.


Lemma stage_skeleton (w w' : World) :
  skeleton w' = skeleton w -> stage w' = stage w.
Proof.
  unfold stage, persists, skeleton.
  by intros [= _ -> -> _ -> -> -> -> _ ->].
Qed.

(** Recording a timer id, or [null], under a key. *)
Lemma recordTimer_frame (key : string) (i : option positive) (w : World) :
  changeListeners (recordTimer key i w) = changeListeners w
  /\ persists (recordTimer key i w) = persists w
  /\ timers (recordTimer key i w) = timers w
  /\ now (recordTimer key i w) = now w.
Proof.
  unfold recordTimer.
  destruct (isProtoOfTimeOutIDs key w); [destruct i|]; by repeat split.
Qed.

Lemma recordTimer_nextTimerId (key : string) (i : option positive)
    (w : World) :
  nextTimerId (recordTimer key i w) = nextTimerId w.
Proof.
  unfold recordTimer.
  by destruct (isProtoOfTimeOutIDs key w); [destruct i|].
Qed.

Lemma recordTimer_spec (key : string) (i : option positive) (w : World) :
  trace (recordTimer key i w) = trace w
  /\ stage (recordTimer key i w) = stage w
  /\ settings (recordTimer key i w) = settings w
  /\ (forall k, k <> key ->
        delaySetTimeOutIDs (recordTimer key i w) !! k
        = delaySetTimeOutIDs w !! k)
  /\ (delaySetTimeOutIDs (recordTimer key i w) = delaySetTimeOutIDs w
      \/ delaySetTimeOutIDs (recordTimer key i w)
         = <[key := i]> (delaySetTimeOutIDs w))
  /\ (key <> "__proto__" ->
      delaySetTimeOutIDs (recordTimer key i w)
      = <[key := i]> (delaySetTimeOutIDs w)).
Proof.
  unfold recordTimer, isProtoOfTimeOutIDs.
  destruct (decide (key = "__proto__")) as [->|Hne].
  - rewrite bool_decide_eq_true_2 by reflexivity. cbn [andb].
    destruct (timeOutIDsProto w); [destruct i|]; cbn;
      repeat split; try done; try (by left); try (by right).
    intros k Hk. by rewrite lookup_insert_ne by congruence.
  - rewrite (bool_decide_eq_false_2 _ Hne). cbn.
    repeat split; try done; try (by right).
    intros k Hk. by rewrite lookup_insert_ne by congruence.
Qed.

(** One timer of [delaySet] fires. *)
Lemma fire_spec (x : Timer) (w : World) :
  exists evs,
    trace (fire x w) = trace w ++ evs
    /\ Forall (fun e => keyOf e = tkey x) evs
    /\ stage (fire x w) = stage w
    /\ (forall k, k <> tkey x ->
          (isArrayIndex k = false \/ tkey x <> "length" ->
           settings (fire x w) !! k = settings w !! k)
          /\ delaySetTimeOutIDs (fire x w) !! k = delaySetTimeOutIDs w !! k)
    /\ (settingKey (tkey x) ->
        notNull (tvalue x) = true ->
        tkey x <> "" \/ TheThemeProvider ∉ changeListeners w ->
        evs = setEvents (changeListeners w) (persists w) (tkey x) (tvalue x)
        /\ settings (fire x w) !! tkey x = Some (tvalue x)).
Proof.
  unfold fire, delaySetCallback, bindM, modify.
  destruct (set_frame (tkey x) (tvalue x) w)
    as (r & w' & evs & Hrun & Hs & Ht & Hev & _ & Hothers).
  pose proof (stage_skeleton w w' Hs) as Hstage.
  assert (Hids : delaySetTimeOutIDs w' = delaySetTimeOutIDs w).
  { unfold skeleton in Hs. by injection Hs as _ _ _ -> _ _ _ _ _ _. }
  assert (Hplain :
            settingKey (tkey x) ->
            notNull (tvalue x) = true ->
            tkey x <> "" \/ TheThemeProvider ∉ changeListeners w ->
            r = Ok tt
            /\ evs = setEvents (changeListeners w) (persists w)
                       (tkey x) (tvalue x)
            /\ settings w' !! tkey x = Some (tvalue x)).
  { intros Hkey Hv Hk.
    destruct (set_spec (tkey x) (tvalue x) w Hkey Hv)
      as (r2 & w2 & ls' & Hrun2 & _ & Hset2 & _ & Ht2 & _ & Hall2 & Hok2).
    rewrite Hrun in Hrun2. injection Hrun2 as <- <-.
    specialize (Hok2 Hk). split; [exact Hok2|].
    rewrite (Hall2 Hok2) in Ht2. rewrite Ht in Ht2.
    apply app_inv_head in Ht2. split; [exact Ht2|].
    by rewrite Hset2, lookup_insert_eq. }
  rewrite Hrun. exists evs.
  destruct r as [[]|e]; cbn [snd].
  - destruct (recordTimer_spec (tkey x) None w')
      as (Htr & Hst & Hset & Hrec & _).
    split; [by rewrite Htr|]. split; [exact Hev|].
    split; [by rewrite Hst|]. split.
    + intros k Hk. split.
      * intros Hi. rewrite Hset. by apply Hothers.
      * rewrite Hrec by exact Hk. by rewrite Hids.
    + intros Hkey Hv Hk. destruct (Hplain Hkey Hv Hk) as (_ & -> & Hx).
      split; [reflexivity|]. by rewrite Hset.
  - split; [exact Ht|]. split; [exact Hev|]. split; [exact Hstage|]. split.
    + intros k Hk. split; [intros Hi; by apply Hothers | by rewrite Hids].
    + intros Hkey Hv Hk. by destruct (Hplain Hkey Hv Hk) as (Habs & _).
Qed.

(** Timers of other keys fire: nothing happens to key [k]. *)
Lemma fires_other (k : string) (xs : list Timer) (w : World) :
  Forall (fun x => tkey x <> k) xs ->
  exists evs,
    trace (foldl (fun w x => fire x w) w xs) = trace w ++ evs
    /\ eventsAbout k evs = []
    /\ stage (foldl (fun w x => fire x w) w xs) = stage w
    /\ (isArrayIndex k = false \/ Forall (fun x => tkey x <> "length") xs ->
        settings (foldl (fun w x => fire x w) w xs) !! k = settings w !! k)
    /\ delaySetTimeOutIDs (foldl (fun w x => fire x w) w xs) !! k
       = delaySetTimeOutIDs w !! k.
Proof.
  intros Hxs. revert w. induction Hxs as [|x xs Hx _ IH]; intros w; simpl.
  - exists []. rewrite app_nil_r. by repeat split.
  - destruct (fire_spec x w) as (evs1 & Ht1 & Ha1 & Hst1 & Hk1 & _).
    destruct (IH (fire x w)) as (evs & Ht & Ha & Hst & Hset & Hids).
    destruct (Hk1 k) as [Hset1 Hids1]; [congruence|].
    exists (evs1 ++ evs). split; [by rewrite Ht, Ht1, app_assoc|].
    split; [|split; [congruence | split; [|congruence]]].
    + unfold eventsAbout in *. rewrite filter_app, Ha, app_nil_r.
      apply filter_none. eapply Forall_impl; [exact Ha1|].
      simpl. intros e He. congruence.
    + intros Hkept. rewrite Hset, Hset1; [reflexivity| |].
      * destruct Hkept as [Hi|Hl]; [by left|right].
        by apply Forall_cons in Hl as [? _].
      * destruct Hkept as [Hi|Hl]; [by left|right].
        by apply Forall_cons in Hl as [_ ?].
Qed.

Lemma filter_filter_implied {A} (P Q : A -> Prop)
    `{!forall x, Decision (P x)} `{!forall x, Decision (Q x)} (l : list A) :
  Forall (fun x => P x -> Q x) l -> filter P (filter Q l) = filter P l.
Proof.
  induction 1 as [|x l Hx _ IH]; [reflexivity|].
  rewrite (filter_cons Q). destruct (decide (Q x)) as [Hq|Hq].
  - rewrite !filter_cons. destruct (decide (P x)); by rewrite IH.
  - rewrite IH. rewrite filter_cons_False; [reflexivity|]. tauto.
Qed.

Lemma filter_swap {A} (P Q : A -> Prop)
    `{!forall x, Decision (P x)} `{!forall x, Decision (Q x)} (l : list A) :
  filter P (filter Q l) = filter Q (filter P l).
Proof.
  rewrite !list_filter_filter. apply list_filter_iff. tauto.
Qed.

(** No delayed write of the length is pending: none is among the timers
    that fire. *)
Lemma keptBy_ready (k : string) (w : World) (xs : list Timer) :
  keptBy k w -> xs ⊆ timers w ->
  isArrayIndex k = false \/ Forall (fun x => tkey x <> "length") xs.
Proof.
  intros [Hi|Hl] Hsub; [by left|right].
  apply Forall_forall. intros x Hx Hk.
  assert (Hin : x ∈ pendingFor "length" w)
    by (apply list_elem_of_filter; split; [exact Hk | by apply Hsub]).
  rewrite Hl in Hin. by apply elem_of_nil in Hin.
Qed.

(** Time passes while every timer of key [k] is still to come: nothing
    happens to [k]. *)
Lemma advance_other (k : string) (t : nat) (w : World) :
  Forall (fun x => tkey x = k -> t < due x) (timers w) ->
  exists evs,
    trace (advance t w) = trace w ++ evs
    /\ eventsAbout k evs = []
    /\ changeListeners (advance t w) = changeListeners w
    /\ persists (advance t w) = persists w
    /\ now (advance t w) = Nat.max (now w) t
    /\ pendingFor k (advance t w) = pendingFor k w
    /\ (keptBy k w -> settings (advance t w) !! k = settings w !! k)
    /\ delaySetTimeOutIDs (advance t w) !! k = delaySetTimeOutIDs w !! k.
Proof.
  intros Hlate. unfold advance.
  set (ready := merge_sort firesBefore (filter (fun x => due x <= t) (timers w))).
  set (w0 := withTimers (filter (fun x => t < due x)) w).
  assert (Hsub : ready ⊆ timers w).
  { intros x Hx. subst ready. rewrite merge_sort_Permutation in Hx.
    by apply list_elem_of_filter in Hx as [_ ?]. }
  assert (Hready : Forall (fun x => tkey x <> k) ready).
  { subst ready. rewrite merge_sort_Permutation.
    apply Forall_forall. intros x Hx.
    apply list_elem_of_filter in Hx as [Hdue Hx].
    rewrite Forall_forall in Hlate. intros Hk.
    specialize (Hlate x Hx Hk). lia. }
  destruct (fires_other k ready w0 Hready) as (evs & Ht & Ha & Hst & Hset & Hids).
  exists evs. unfold stage in Hst.
  injection Hst as Hl Hp Htm _ _ _.
  split; [exact Ht|]. split; [exact Ha|]. split; [exact Hl|].
  split; [exact Hp|]. split; [reflexivity|].
  split; [|split; [|exact Hids]].
  - unfold pendingFor. simpl. rewrite Htm. subst w0. simpl.
    by apply filter_filter_implied.
  - intros Hkept. cbn [settings withNow]. rewrite Hset; [reflexivity|].
    by apply (keptBy_ready k w).
Qed.


(** What [delaySet] leaves alone, whatever the key. *)
Lemma delaySet_frame (k : string) (v : value) (d : nat) (w : World) :
  trace (delaySet k v d w) = trace w
  /\ changeListeners (delaySet k v d w) = changeListeners w
  /\ persists (delaySet k v d w) = persists w
  /\ now (delaySet k v d w) = now w
  /\ settings (delaySet k v d w) = settings w
  /\ (exists q,
        q ⊆ timers w
        /\ timers (delaySet k v d w)
           = q ++ [{| tid := nextTimerId w; due := now w + d;
                      tkey := k; tvalue := v |}]).
Proof.
  unfold delaySet, setTimeout. cbv beta iota zeta.
  destruct (recordedTimer k w) as [i|]; cbv beta iota zeta;
    match goal with |- context [recordTimer ?key ?i ?w0] =>
      destruct (recordTimer_spec key i w0) as (Htr & _ & Hset & _);
      destruct (recordTimer_frame key i w0) as (Hl & Hp & Htm & Hn);
      rewrite Htr, Hl, Hp, Hn, Hset, Htm
    end; cbn; repeat split.
  - exists (filter (fun x => tid x <> i) (timers w)). split; [|reflexivity].
    intros x Hx. by apply list_elem_of_filter in Hx as [_ ?].
  - by exists (timers w).
Qed.

(** What [delaySet] does to the ids: the next id is taken, and it is
    recorded under the key unless the key is [__proto__]. *)
Lemma delaySet_ids (k : string) (v : value) (d : nat) (w : World) :
  nextTimerId (delaySet k v d w) = Pos.succ (nextTimerId w)
  /\ (delaySetTimeOutIDs (delaySet k v d w) = delaySetTimeOutIDs w
      \/ delaySetTimeOutIDs (delaySet k v d w)
         = <[k := Some (nextTimerId w)]> (delaySetTimeOutIDs w)).
Proof.
  unfold delaySet, setTimeout. cbv beta iota zeta.
  destruct (recordedTimer k w) as [i|]; cbv beta iota zeta;
    match goal with |- context [recordTimer ?key ?i ?w0] =>
      destruct (recordTimer_spec key i w0) as (_ & _ & _ & _ & Hrec & _);
      split; [by rewrite recordTimer_nextTimerId | exact Hrec]
    end.
Qed.


Lemma recordedTimer_eq (k : string) (w : World) :
  k <> "__proto__" ->
  recordedTimer k w
  = match delaySetTimeOutIDs w !! k with
    | Some (Some i) => Some i
    | _ => None
    end.
Proof.
  intros Hne. unfold recordedTimer, isProtoOfTimeOutIDs.
  by rewrite (bool_decide_eq_false_2 _ Hne).
Qed.

Lemma delaySet_spec (k : string) (v : value) (d : nat) (w : World) :
  k <> "__proto__" ->
  trace (delaySet k v d w) = trace w
  /\ changeListeners (delaySet k v d w) = changeListeners w
  /\ persists (delaySet k v d w) = persists w
  /\ now (delaySet k v d w) = now w
  /\ delaySetTimeOutIDs (delaySet k v d w) !! k = Some (Some (nextTimerId w))
  /\ pendingFor k (delaySet k v d w)
     = filter (fun x => delaySetTimeOutIDs w !! k <> Some (Some (tid x)))
              (pendingFor k w)
       ++ [{| tid := nextTimerId w; due := now w + d;
              tkey := k; tvalue := v |}].
Proof.
  intros Hne.
  destruct (delaySet_frame k v d w) as (Htr & Hl & Hp & Hn & _).
  split; [exact Htr|]. split; [exact Hl|]. split; [exact Hp|].
  split; [exact Hn|].
  unfold delaySet, setTimeout, pendingFor.
  rewrite (recordedTimer_eq k w Hne).
  destruct (delaySetTimeOutIDs w !! k) as [[i|]|] eqn:Hid;
    cbv beta iota zeta;
    match goal with |- context [recordTimer ?key ?i ?w0] =>
      destruct (recordTimer_spec key i w0) as (_ & _ & _ & _ & _ & Hrec);
      destruct (recordTimer_frame key i w0) as (_ & _ & Htm & _);
      rewrite Htm, (Hrec Hne)
    end; cbn;
    (split; [by rewrite lookup_insert_eq|]);
    rewrite filter_app, filter_cons_True by reflexivity; simpl; f_equal.
  - rewrite filter_swap. apply list_filter_iff. intros x. split; congruence.
  - symmetry. apply filter_all. apply Forall_forall. intros; discriminate.
  - symmetry. apply filter_all. apply Forall_forall. intros; discriminate.
Qed.

(** [tracked] holds when the configuration is created and is kept by
    [delaySet], for any key, and by the passing of time: it holds in every
    state these reach. *)
Lemma tracked_create (k : string) (h : Host) (ks : list string)
    (doc : option (gmap string value)) :
  tracked k (create h ks doc).
Proof. exact I. Qed.

Lemma fires_stage (xs : list Timer) (w : World) :
  stage (foldl (fun w x => fire x w) w xs) = stage w.
Proof.
  revert w. induction xs as [|x xs IH]; intros w; [reflexivity|].
  simpl. rewrite IH.
  by destruct (fire_spec x w) as (evs & _ & _ & Hst & _).
Qed.

Lemma pendingFor_advance (k : string) (t : nat) (w : World) :
  pendingFor k (advance t w) = filter (fun x => t < due x) (pendingFor k w).
Proof.
  unfold pendingFor, advance.
  set (w0 := withTimers (filter (fun x => t < due x)) w).
  pose proof (fires_stage
                (merge_sort firesBefore
                   (filter (fun x => due x <= t) (timers w))) w0) as Hst.
  unfold stage in Hst. injection Hst as _ _ Htm _ _ _.
  cbn [timers withNow]. rewrite Htm. subst w0. cbn [timers withTimers].
  apply filter_swap.
Qed.

Lemma tracked_advance (k : string) (t : nat) (w : World) :
  tracked k w -> tracked k (advance t w).
Proof.
  unfold tracked. intros Htr. rewrite pendingFor_advance.
  destruct (pendingFor k w) as [|x [|x' xs]] eqn:Hpend; [exact I| |done].
  rewrite filter_cons. destruct (decide (t < due x)) as [Hlate|]; [|exact I].
  rewrite filter_nil.
  destruct (advance_other k t w) as (_ & _ & _ & _ & _ & _ & _ & _ & ->);
    [|exact Htr].
  apply Forall_forall. intros y Hy Hyk.
  assert (Hin : y ∈ pendingFor k w) by (by apply list_elem_of_filter).
  rewrite Hpend in Hin. by apply list_elem_of_singleton in Hin as ->.
Qed.

Lemma tracked_delaySet (k k' : string) (v : value) (d : nat) (w : World) :
  k <> "__proto__" ->
  tracked k w -> tracked k (delaySet k' v d w).
Proof.
  intros Hproto Htr. destruct (decide (k' = k)) as [->|Hne].
  - destruct (delaySet_spec k v d w Hproto) as (_ & _ & _ & _ & Hid & Hpend).
    unfold tracked in *. rewrite Hpend.
    destruct (pendingFor k w) as [|x [|x' xs]]; [exact Hid| |done].
    rewrite filter_cons_False by tauto. exact Hid.
  - unfold tracked, pendingFor in *. unfold delaySet, setTimeout.
    destruct (recordedTimer k' w) as [i|]; cbv beta iota zeta;
      match goal with |- context [recordTimer ?key ?i ?w0] =>
        destruct (recordTimer_spec key i w0) as (_ & _ & _ & Hrec & _);
        destruct (recordTimer_frame key i w0) as (_ & _ & Htm & _);
        rewrite Htm, (Hrec k) by congruence
      end; cbn;
      rewrite filter_app, filter_cons_False, filter_nil, app_nil_r
        by (cbn; congruence);
      try exact Htr.
    rewrite filter_swap.
    destruct (filter (fun x => tkey x = k) (timers w)) as [|x [|x' xs]];
      [exact I| |done].
    rewrite filter_cons. by destruct (decide (tid x <> i)).
Qed.




End DelaySetFacts.

Section DelaySetExamples.
Import Js Configuration Spec Examples.


(** The trace of that run: one write, both listeners called once, one
    save. *)
Example delaySet_twice_trace :
  trace (advance 2000
           (delaySet "theme" (Prim (Str "light")) 1000
              (advance 400 (delaySet "theme" (Prim (Str "dark")) 1000
                              freshApp))))
  = [Written "theme" (Prim (Str "light"));
     Notified TheConfigurator "theme" (Prim (Str "light"));
     Saved "theme" (Prim (Str "light"));
     Notified TheThemeProvider "theme" (Prim (Str "light"))].
Proof. vm_compute. reflexivity. Qed.


(** Under [__proto__] the plain object records no timer id, the setter of
    its prototype doing nothing with a number: the second [delaySet] finds
    no timer to clear, both timers stay pending, and both fire, the
    listeners being called with the first value and then with the second.
    Nothing is stored under the key. *)
Example delaySet_proto_fires_twice :
  let w2 := delaySet "__proto__" (Prim (Str "light")) 1000
              (advance 400 (delaySet "__proto__" (Prim (Str "dark")) 1000
                              freshApp)) in
  tvalue <$> pendingFor "__proto__" w2
  = [Prim (Str "dark"); Prim (Str "light")]
  /\ trace (advance 2000 w2)
     = [Notified TheConfigurator "__proto__" (Prim (Str "dark"));
        Saved "__proto__" (Prim (Str "dark"));
        Notified TheThemeProvider "__proto__" (Prim (Str "dark"));
        Notified TheConfigurator "__proto__" (Prim (Str "light"));
        Saved "__proto__" (Prim (Str "light"));
        Notified TheThemeProvider "__proto__" (Prim (Str "light"))]
  /\ settings (advance 2000 w2) = ∅.
Proof. vm_compute. repeat split. Qed.

(** Under [length] the callback throws on a value that is no length, before
    any listener is called: nothing is written. *)
Example delaySet_length_writes_nothing :
  let w1 := delaySet "length" (Prim (Str "dark")) 1000 freshApp in
  trace (advance 2000 w1) = []
  /\ get "length" (advance 2000 w1) = Prim (Num (ofZ 0)).
Proof. vm_compute. repeat split. Qed.

End DelaySetExamples.

(** ** Utils.removeItemFromArray *)

Section UtilsFacts.
Import Utils.

Context {A : Type} `{EqDecision A}.

Lemma indexOf_Some (array : list A) (item : A) (i : nat) :
  indexOf array item = Some i ->
  array !! i = Some item /\ item ∉ take i array.
Proof.
  revert i. induction array as [|x rest IH]; intros i; simpl; [discriminate|].
  destruct (decide (x = item)) as [->|Hne].
  - intros [= <-]. split; [reflexivity | apply not_elem_of_nil].
  - destruct (indexOf rest item) as [j|]; [|discriminate].
    intros [= <-]. destruct (IH j eq_refl) as [Hj Hnot].
    split; [exact Hj|]. simpl. rewrite not_elem_of_cons. by split.
Qed.

Lemma indexOf_None (array : list A) (item : A) :
  indexOf array item = None -> item ∉ array.
Proof.
  induction array as [|x rest IH]; simpl; [intros _; apply not_elem_of_nil|].
  destruct (decide (x = item)) as [->|Hne]; [discriminate|].
  destruct (indexOf rest item) as [j|]; [discriminate|].
  intros _. rewrite not_elem_of_cons. split; [congruence | by apply IH].
Qed.

Lemma filter_delete_item (array : list A) (item : A) (i : nat) :
  array !! i = Some item ->
  filter (fun x => x <> item) (delete i array)
  = filter (fun x => x <> item) array.
Proof.
  revert i. induction array as [|x rest IH]; intros [|i] Hi; try discriminate.
  - injection Hi as ->. simpl. by rewrite filter_cons_False by tauto.
  - simpl in Hi. change (delete (S i) (x :: rest)) with (x :: delete i rest).
    rewrite !filter_cons.
    destruct (decide (x <> item)); [f_equal|]; by apply IH.
Qed.

Lemma removeLoop_spec (turns : nat) (array : list A) (item : A)
    (removed : bool) :
  length array < turns ->
  removeLoop turns array item removed
  = Some (removed || bool_decide (item ∈ array),
          filter (fun x => x <> item) array).
Proof.
  revert array removed.
  induction turns as [|turns IH]; intros array removed Hlen; [lia|].
  simpl. destruct (indexOf array item) as [i|] eqn:Hi.
  - apply indexOf_Some in Hi as [Hi _].
    rewrite IH.
    + rewrite (filter_delete_item _ _ _ Hi).
      rewrite (bool_decide_eq_true_2 (item ∈ array))
        by (by eapply list_elem_of_lookup_2).
      by rewrite orb_true_r.
    + rewrite length_delete by (by eexists).
      apply lookup_lt_Some in Hi. lia.
  - apply indexOf_None in Hi.
    rewrite (bool_decide_eq_false_2 _ Hi), orb_false_r.
    do 2 f_equal. symmetry. apply filter_all.
    apply Forall_forall. intros x Hx ->. done.
Qed.

(** [removeItemFromArray] ends; it leaves the array without any occurrence
    of the item, the other elements in their order, and answers whether the
    item was there. *)
Theorem removeItemFromArray_removes_every_occurrence (array : list A)
    (item : A) :
  removeItemFromArray array item
  = Some (bool_decide (item ∈ array), filter (fun x => x <> item) array).
Proof.
  unfold removeItemFromArray. rewrite removeLoop_spec by lia. reflexivity.
Qed.

End UtilsFacts.

(** ** The listeners of the configuration *)

Section ListenerFacts.
Import Js Configuration Spec Listeners.

Lemma unregisterListener_eq (l : listener) (w : World) :
  unregisterListener l w
  = Some (withChangeListeners
            (fun _ => filter (fun x => x <> l) (changeListeners w)) w).
Proof.
  unfold unregisterListener, Utils.removeItemFromArray.
  rewrite removeLoop_spec by lia. reflexivity.
Qed.


(** [registerListener] never makes a duplicate: a list of distinct
    listeners stays one, the listener is registered afterwards, and
    registering it again changes nothing. *)
Theorem registerListener_keeps_listeners_distinct (l : listener) (w : World) :
  l ∈ changeListeners (registerListener l w)
  /\ registerListener l (registerListener l w) = registerListener l w
  /\ (NoDup (changeListeners w) ->
      NoDup (changeListeners (registerListener l w))).
Proof.
  unfold registerListener.
  destruct (bool_decide (l ∈ changeListeners w)) eqn:Hin.
  - rewrite Hin. apply bool_decide_eq_true in Hin. by repeat split.
  - apply bool_decide_eq_false in Hin. cbn [changeListeners].
    assert (Hl : l ∈ changeListeners w ++ [l])
      by (apply elem_of_app; right; by left).
    rewrite (bool_decide_eq_true_2 _ Hl).
    split; [exact Hl|]. split; [reflexivity|].
    intros Hnd. apply NoDup_app. split; [exact Hnd|]. split.
    + intros x Hx Hx'. apply list_elem_of_singleton in Hx' as ->. done.
    + apply NoDup_singleton.
Qed.

Lemma registerListener_keeps_listeners_distinct_witness :
  NoDup (changeListeners (registerListener (Observer 0) Examples.freshApp)).
Proof.
  apply (proj2 (proj2 (registerListener_keeps_listeners_distinct
                         (Observer 0) Examples.freshApp))).
  change (NoDup [TheConfigurator; TheThemeProvider]).
  apply NoDup_cons. split; [|apply NoDup_singleton].
  rewrite not_elem_of_cons. split; [discriminate | apply not_elem_of_nil].
Defined.

(** Unregistering a listener that was just registered, and was not
    registered before, gives the configuration back as it was. *)
Theorem unregisterListener_undoes_registerListener (l : listener) (w : World) :
  l ∉ changeListeners w ->
  unregisterListener l (registerListener l w) = Some w.
Proof.
  intros Hin. rewrite unregisterListener_eq. unfold registerListener.
  rewrite (bool_decide_eq_false_2 _ Hin).
  unfold withChangeListeners. cbn.
  rewrite filter_app, filter_cons_False, filter_nil, app_nil_r by tauto.
  rewrite filter_all.
  - by destruct w.
  - apply Forall_forall. intros x Hx ->. done.
Qed.

Lemma unregisterListener_undoes_registerListener_witness :
  unregisterListener (Observer 0)
    (registerListener (Observer 0) Examples.freshApp)
  = Some Examples.freshApp.
Proof.
  apply unregisterListener_undoes_registerListener.
  change (Observer 0 ∉ [TheConfigurator; TheThemeProvider]).
  rewrite !not_elem_of_cons.
  repeat split; [discriminate | discriminate | apply not_elem_of_nil].
Defined.



(** After [reset], which empties the list of listeners, a [set] stores its
    value but calls nobody: the configurator is gone with the others, and
    nothing is saved to the document.  The key is one under which the array
    of the settings stores a property, neither [length] nor [__proto__]. *)
Theorem reset_silences_set (k : string) (v : value) (w : World) :
  settingKey k ->
  notNull v = true ->
  (set k v true (reset w)).1 = Ok tt
  /\ trace (set k v true (reset w)).2 = trace w ++ [Written k v]
  /\ documentSettings (set k v true (reset w)).2 = documentSettings w
  /\ get k (set k v true (reset w)).2 = v.
Proof.
  intros Hkey Hv. unfold set. rewrite Hv. cbn [negb]. unfold bindM.
  rewrite (assignSetting_settingKey k v _ Hkey). cbn.
  repeat split. apply get_stored; [exact Hkey|]. cbn.
  by rewrite lookup_insert_eq.
Qed.

Lemma reset_silences_set_witness :
  trace (set "theme" (Prim (Str "dark")) true (reset Examples.freshApp)).2
  = trace Examples.freshApp ++ [Written "theme" (Prim (Str "dark"))].
Proof.
  apply (reset_silences_set "theme" (Prim (Str "dark")) Examples.freshApp);
    [split; discriminate | reflexivity].
Defined.

End ListenerFacts.

(** ** What a [set] does to the store, the document and the theme
       provider *)

Section StoreFacts.
Import Js Configuration Spec.

Lemma onConfigurationChanged_effects (l : listener) (k : string) (v : value)
    (w : World) :
  notNull v = true ->
  k <> "" ->
  exists w',
    onConfigurationChanged l k v w = (Ok tt, w')
    /\ skeleton w' = skeleton w
    /\ documentSettings w'
       = (if bool_decide (l = TheConfigurator) && negb (reentryFlag w)
          then insert k v <$> documentSettings w
          else documentSettings w)
    /\ ThemeProvider.definitions (themeProvider w')
       = ThemeProvider.definitions (themeProvider w)
    /\ ThemeProvider.currentThemeId (themeProvider w')
       = (if bool_decide (l = TheThemeProvider) && bool_decide (k = "theme")
          then v
          else ThemeProvider.currentThemeId (themeProvider w)).
Proof.
  intros Hv Hk.
  unfold onConfigurationChanged, bindM, modify, skeleton, hasDocument.
  destruct w as [st ks ls ids flag doc tp tm nw nx tr].
  destruct l as [| |n]; cbn.
  - unfold configuratorChanged, save; cbn.
    destruct flag; cbn; [eexists; by repeat split|].
    destruct doc as [d|]; cbn; eexists; by repeat split.
  - unfold themeProviderChanged; cbn.
    rewrite (bool_decide_eq_false_2 _ Hk), Hv. cbn.
    destruct (bool_decide (k = "theme")); cbn; eexists; by repeat split.
  - unfold ret. eexists; by repeat split.
Qed.

Lemma notify_effects (k : string) (v : value) (ls : list listener)
    (w : World) :
  notNull v = true ->
  k <> "" ->
  exists w',
    forEach (fun l => onConfigurationChanged l k v) ls w = (Ok tt, w')
    /\ skeleton w' = skeleton w
    /\ documentSettings w'
       = (if bool_decide (TheConfigurator ∈ ls) && negb (reentryFlag w)
          then insert k v <$> documentSettings w
          else documentSettings w)
    /\ ThemeProvider.definitions (themeProvider w')
       = ThemeProvider.definitions (themeProvider w)
    /\ ThemeProvider.currentThemeId (themeProvider w')
       = (if bool_decide (TheThemeProvider ∈ ls) && bool_decide (k = "theme")
          then v
          else ThemeProvider.currentThemeId (themeProvider w)).
Proof.
  intros Hv Hk. revert w. induction ls as [|l ls IH]; intros w.
  - exists w. by repeat split.
  - simpl. unfold bindM.
    destruct (onConfigurationChanged_effects l k v w Hv Hk)
      as (w1 & -> & Hs1 & Hd1 & Hdef1 & Hid1).
    destruct (IH w1) as (w' & -> & Hs & Hd & Hdef & Hid).
    assert (Hf : reentryFlag w1 = reentryFlag w).
    { unfold skeleton in Hs1. by injection Hs1 as _ _ -> _ _ _ _ _. }
    exists w'. split; [reflexivity|]. split; [congruence|].
    split; [|split; [congruence|]].
    + rewrite Hd, Hd1, Hf. clear.
      destruct (reentryFlag w); cbn; [by rewrite !andb_false_r|].
      rewrite !andb_true_r.
      destruct (decide (l = TheConfigurator)) as [->|Hl].
      * rewrite (bool_decide_eq_true_2 (TheConfigurator = TheConfigurator))
          by reflexivity.
        rewrite (bool_decide_eq_true_2 (TheConfigurator ∈ TheConfigurator :: ls))
          by (by left).
        destruct (bool_decide (TheConfigurator ∈ ls));
          destruct (documentSettings w); cbn; by rewrite ?insert_insert_eq.
      * rewrite (bool_decide_eq_false_2 _ Hl).
        assert (bool_decide (TheConfigurator ∈ l :: ls)
                = bool_decide (TheConfigurator ∈ ls)) as ->; [|reflexivity].
        apply bool_decide_ext. rewrite elem_of_cons. intuition congruence.
    + rewrite Hid, Hid1. clear.
      destruct (bool_decide (k = "theme")); cbn; [|by rewrite !andb_false_r].
      rewrite !andb_true_r.
      destruct (decide (l = TheThemeProvider)) as [->|Hl].
      * rewrite (bool_decide_eq_true_2 (TheThemeProvider = TheThemeProvider))
          by reflexivity.
        rewrite (bool_decide_eq_true_2
                   (TheThemeProvider ∈ TheThemeProvider :: ls)) by (by left).
        by destruct (bool_decide (TheThemeProvider ∈ ls)).
      * rewrite (bool_decide_eq_false_2 _ Hl).
        assert (bool_decide (TheThemeProvider ∈ l :: ls)
                = bool_decide (TheThemeProvider ∈ ls)) as ->; [|reflexivity].
        apply bool_decide_ext. rewrite elem_of_cons. intuition congruence.
Qed.

(** Only under [length] can the assignment throw. *)
Lemma assignSetting_Ok (k : string) (v : value) (w : World) :
  k <> "length" -> (assignSetting k v w).1 = Ok tt.
Proof.
  intros Hl. unfold assignSetting. rewrite (bool_decide_eq_false_2 _ Hl).
  destruct (bool_decide (k = "__proto__")); [by destruct v | reflexivity].
Qed.

(** A notifying [set] under a key that is not empty: either the assignment
    throws, which only [length] makes it do, and nothing has changed; or
    every listener is called. *)
Lemma set_effects (k : string) (v : value) (w : World) :
  notNull v = true ->
  k <> "" ->
  (k = "length" /\ set k v true w = (Throw RangeError, w))
  \/ exists w',
       set k v true w = (Ok tt, w')
       /\ skeleton w' = skeleton w
       /\ documentSettings w'
          = (if bool_decide (TheConfigurator ∈ changeListeners w)
                && negb (reentryFlag w)
             then insert k v <$> documentSettings w
             else documentSettings w)
       /\ ThemeProvider.definitions (themeProvider w')
          = ThemeProvider.definitions (themeProvider w)
       /\ ThemeProvider.currentThemeId (themeProvider w')
          = (if bool_decide (TheThemeProvider ∈ changeListeners w)
                && bool_decide (k = "theme")
             then v
             else ThemeProvider.currentThemeId (themeProvider w)).
Proof.
  intros Hv Hk. unfold set. rewrite Hv. cbn [negb]. unfold bindM.
  destruct (assignSetting_spec k v w)
    as (r0 & w0 & evs0 & Hrun0 & Hs0 & Hd0 & Htp0 & _ & _ & Hsame & _).
  rewrite Hrun0.
  destruct r0 as [[]|e].
  - right.
    destruct (notify_effects k v (changeListeners w0) w0 Hv Hk)
      as (w2 & -> & Hs & Hd & Hdef & Hid).
    assert (Hl : changeListeners w0 = changeListeners w).
    { unfold skeleton in Hs0. by injection Hs0 as _ -> _ _ _ _ _ _ _ _. }
    assert (Hf : reentryFlag w0 = reentryFlag w).
    { unfold skeleton in Hs0. by injection Hs0 as _ _ -> _ _ _ _ _ _ _. }
    exists w2. split; [reflexivity|]. split; [congruence|].
    rewrite Hd, Hdef, Hid, Hl, Hf, Hd0, Htp0. by repeat split.
  - left. rewrite (Hsame ltac:(discriminate)) in *.
    destruct (decide (k = "length")) as [->|Hl].
    + split; [reflexivity|]. revert Hrun0. unfold assignSetting.
      rewrite bool_decide_eq_true_2 by reflexivity.
      destruct (asArrayLength _); by intros [= <-].
    + pose proof (assignSetting_Ok k v w Hl) as Hok.
      rewrite Hrun0 in Hok. discriminate.
Qed.

(** What is set is what is read, whether the listeners are told or not and
    even when one of them throws, and no other key changes: this for a key
    under which the array of the settings stores a property, neither
    [length] nor [__proto__].  Under an array index the array may grow, so
    that [length] reads differently. *)
Theorem set_then_get (k : string) (v : value) (b : bool) (w : World) :
  settingKey k ->
  notNull v = true ->
  get k (set k v b w).2 = v
  /\ forall k', k' <> k -> k' <> "length" \/ isArrayIndex k = false ->
       get k' (set k v b w).2 = get k' w.
Proof.
  intros Hkey Hv.
  pose proof (set_store k v b w Hkey Hv) as Hstore.
  unfold store in Hstore. cbn in Hstore. injection Hstore as Hset Hlen Hproto.
  split.
  - apply get_stored; [exact Hkey|]. by rewrite Hset, lookup_insert_eq.
  - intros k' Hne Hk'. apply get_ext.
    + by rewrite Hset, lookup_insert_ne by congruence.
    + destruct Hk' as [?|Hi]; [by left|right]. by rewrite Hlen, Hi.
    + exact Hproto.
    + apply set_host.
Qed.

Lemma set_then_get_witness :
  get "" (set "" (Prim (Str "x")) true Examples.freshApp).2 = Prim (Str "x")
  /\ (set "" (Prim (Str "x")) true Examples.freshApp).1
     = Throw ParameterIsEmpty.
Proof.
  split; [|reflexivity].
  apply (set_then_get "" (Prim (Str "x")) true Examples.freshApp);
    [split; discriminate | reflexivity].
Defined.



(** The theme provider follows the key [theme] of the configuration it
    listens to, and no other key: after [set("theme", v)] its current theme
    id is [v]; a [set] of another key leaves it as it was.  The catalog is
    never touched. *)
Theorem set_theme_moves_current_theme (k : string) (v : value) (w : World) :
  notNull v = true ->
  k <> "" ->
  TheThemeProvider ∈ changeListeners w ->
  ThemeProvider.definitions (themeProvider (set k v true w).2)
  = ThemeProvider.definitions (themeProvider w)
  /\ ThemeProvider.currentThemeId (themeProvider (set k v true w).2)
     = (if bool_decide (k = "theme") then v
        else ThemeProvider.currentThemeId (themeProvider w)).
Proof.
  intros Hv Hk Hin.
  destruct (set_effects k v w Hv Hk)
    as [[-> ->]|(w' & -> & _ & _ & Hdef & Hid)].
  - by split.
  - cbn [snd]. split; [exact Hdef|]. rewrite Hid.
    by rewrite (bool_decide_eq_true_2 _ Hin).
Qed.

Lemma set_theme_moves_current_theme_witness :
  ThemeProvider.currentThemeId
    (themeProvider (set "theme" (Prim (Str "light")) true
                      Examples.freshApp).2)
  = Prim (Str "light").
Proof.
  apply (set_theme_moves_current_theme "theme" (Prim (Str "light"))
           Examples.freshApp); [reflexivity | discriminate |].
  change (TheThemeProvider ∈ [TheConfigurator; TheThemeProvider]).
  right. by left.
Defined.

(** The loop of [loadAll]: what the store holds afterwards. *)
Lemma loadKeys_settings (host : gmap string value) (ks : list string)
    (w : World) :
  reentryFlag w = true ->
  documentSettings w = Some host ->
  Forall settingKey ks ->
  "" ∉ ks \/ TheThemeProvider ∉ changeListeners w ->
  exists w',
    forEach loadKey ks w = (Ok tt, w')
    /\ skeleton w' = skeleton w
    /\ settingsProto w' = settingsProto w
    /\ forall k,
         settings w' !! k
         = match (if bool_decide (k ∈ ks) then host !! k else None) with
           | Some v => if notNull v then Some v else settings w !! k
           | None => settings w !! k
           end.
Proof.
  revert w. induction ks as [|k0 ks IH]; intros w Hf Hd Hkeys Hk.
  - exists w. repeat split.
  - simpl. unfold bindM.
    apply Forall_cons in Hkeys as [Hkey Hkeys].
    assert (Hstep : exists w1,
               loadKey k0 w = (Ok tt, w1)
               /\ skeleton w1 = skeleton w
               /\ documentSettings w1 = Some host
               /\ settingsProto w1 = settingsProto w
               /\ settings w1
                  = match host !! k0 with
                    | Some v => if notNull v then <[k0 := v]> (settings w)
                                else settings w
                    | None => settings w
                    end).
    { unfold loadKey. rewrite Hd.
      destruct (host !! k0) as [v|]; [|by exists w].
      destruct (notNull v) eqn:Hv; [|by exists w].
      pose proof (set_store k0 v true w Hkey Hv) as Hstore.
      destruct (set_spec k0 v w Hkey Hv)
        as (r & w1 & ls' & Hrun & Hs & Hset & _ & _ & Hdoc & _ & Hok).
      rewrite Hrun in Hstore |- *. rewrite Hok.
      - exists w1. unfold store in Hstore. injection Hstore as _ _ Hproto.
        repeat split; [exact Hs | by rewrite Hdoc | exact Hproto | exact Hset].
      - destruct Hk as [Hk|Hk]; [left|by right].
        intros ->. apply Hk. by left. }
    destruct Hstep as (w1 & -> & Hs1 & Hd1 & Hp1 & Hset1).
    assert (Hf1 : reentryFlag w1 = true).
    { unfold skeleton in Hs1. injection Hs1 as _ _ -> _ _ _ _ _ _ _.
      exact Hf. }
    assert (Hl1 : changeListeners w1 = changeListeners w).
    { unfold skeleton in Hs1. by injection Hs1 as _ -> _ _ _ _ _ _ _ _. }
    destruct (IH w1 Hf1 Hd1 Hkeys) as (w' & -> & Hs & Hp & Hall).
    { rewrite Hl1. destruct Hk as [Hk|Hk]; [left|by right].
      intros Hin. apply Hk. by right. }
    exists w'. split; [reflexivity|]. split; [congruence|].
    split; [congruence|].
    intros k. rewrite Hall, Hset1. clear.
    destruct (decide (k = k0)) as [->|Hne].
    + rewrite (bool_decide_eq_true_2 (k0 ∈ k0 :: ks)) by (by left).
      case_bool_decide.
      * destruct (host !! k0) as [v|]; [|reflexivity].
        destruct (notNull v); reflexivity.
      * destruct (host !! k0) as [v|]; [|reflexivity].
        destruct (notNull v); [|reflexivity]. by rewrite lookup_insert_eq.
    + assert (Hiff : bool_decide (k ∈ k0 :: ks) = bool_decide (k ∈ ks)).
      { apply bool_decide_ext. rewrite elem_of_cons. tauto. }
      rewrite Hiff.
      assert (Hother : (match host !! k0 with
                        | Some v => if notNull v then <[k0 := v]> (settings w)
                                    else settings w
                        | None => settings w
                        end) !! k = settings w !! k).
      { destruct (host !! k0) as [v|]; [|reflexivity].
        destruct (notNull v); [|reflexivity].
        by rewrite lookup_insert_ne by congruence. }
      by rewrite Hother.
Qed.

(** [this.settings.length = 0]: the array-index properties are gone. *)
Lemma cutSettings_0 (k : string) (w : World) :
  settings (cutSettings 0 w) !! k
  = if isArrayIndex k then None else settings w !! k.
Proof.
  cbn. rewrite map_lookup_filter.
  destruct (settings w !! k) as [x|] eqn:Hx; cbn.
  - destruct (isArrayIndex k) eqn:Hi.
    + rewrite option_guard_False; [reflexivity|]. cbn. intros [?|?]; [done|lia].
    + rewrite option_guard_True; [reflexivity|]. by left.
  - by destruct (isArrayIndex k).
Qed.

(** What [loadAll] leaves in the store, key by key. *)
Lemma loadAll_settings (host : gmap string value) (w : World) :
  documentSettings w = Some host ->
  Forall settingKey (keys w) ->
  "" ∉ keys w \/ TheThemeProvider ∉ changeListeners w ->
  (loadAll w).1 = Ok tt
  /\ settingsProto (loadAll w).2 = settingsProto w
  /\ Configuration.host (loadAll w).2 = Configuration.host w
  /\ forall k,
       settings (loadAll w).2 !! k
       = match (if bool_decide (k ∈ keys w) then host !! k else None) with
         | Some v =>
             if notNull v then Some v
             else if isArrayIndex k then None else settings w !! k
         | None => if isArrayIndex k then None else settings w !! k
         end.
Proof.
  intros Hd Hkeys Hk. unfold loadAll. rewrite Hd. unfold bindM, clear, modify.
  set (w0 := withReentryFlag true (cutSettings 0 w)).
  destruct (loadKeys_settings host (keys w) w0 eq_refl Hd Hkeys Hk)
    as (w' & Hrun & Hs & Hp & Hall).
  rewrite Hrun. cbn. split; [reflexivity|]. split; [exact Hp|]. split.
  { unfold skeleton in Hs. by injection Hs as _ _ _ _ _ _ _ _ _ ->. }
  intros k. rewrite Hall.
  assert (Hclear : settings w0 !! k
                   = if isArrayIndex k then None else settings w !! k)
    by apply cutSettings_0.
  by rewrite Hclear.
Qed.



(** [loadAll] does not forget what the document lacks: the [clear] it
    starts with cuts the settings array to length zero, which removes the
    array-index properties only.  A key that is neither an array index nor
    [length], and for which the document has no value or which is not in
    the key list, is read after [loadAll] as before; an array index that
    the document does not restore is a property of the array no more.  The
    keys of the list are keys under which the array stores a property, none
    of them [length] or [__proto__]. *)
Theorem loadAll_keeps_settings_the_document_lacks (host : gmap string value)
    (w : World) (k : string) :
  documentSettings w = Some host ->
  Forall settingKey (keys w) ->
  "" ∉ keys w \/ TheThemeProvider ∉ changeListeners w ->
  k ∉ keys w \/ host !! k = None ->
  (isArrayIndex k = false -> k <> "length" ->
   get k (loadAll w).2 = get k w)
  /\ (isArrayIndex k = true -> settings (loadAll w).2 !! k = None).
Proof.
  intros Hd Hkeys Hk Hlack.
  destruct (loadAll_settings host w Hd Hkeys Hk) as (_ & Hp & Hh & Hall).
  assert (Hnone : (if bool_decide (k ∈ keys w) then host !! k else None)
                  = None).
  { case_bool_decide; [|reflexivity]. by destruct Hlack. }
  specialize (Hall k). rewrite Hnone in Hall.
  split.
  - intros Hi Hl. rewrite Hi in Hall.
    apply get_ext; [exact Hall | by left | exact Hp | exact Hh].
  - intros Hi. by rewrite Hi in Hall.
Qed.

Lemma loadAll_keeps_settings_the_document_lacks_witness :
  get "sku" (loadAll (set "sku" (Prim (Str "trends-default")) false
                        Examples.freshApp).2).2
  = Prim (Str "trends-default").
Proof.
  destruct (loadAll_keeps_settings_the_document_lacks Examples.darkDocument
              (set "sku" (Prim (Str "trends-default")) false
                 Examples.freshApp).2 "sku")
    as [Hkeep _];
    [reflexivity | exact app_keys_are_settingKeys | | right; reflexivity |].
  - left. change ("" ∉ ["theme"; "sku"]). rewrite !not_elem_of_cons.
    repeat split; [discriminate | discriminate | apply not_elem_of_nil].
  - rewrite Hkeep; [reflexivity | reflexivity | discriminate].
Defined.

(** A setting that was set in one session is there in the next: once the
    configurator has saved the value, a configuration created over the same
    document, with the key in its key list, reads the value after
    [loadAll].  The keys are keys under which the array of the settings
    stores a property, none of them [length] or [__proto__]. *)
Theorem saved_setting_survives_reload (k : string) (v : value) (w : World)
    (ks : list string) :
  notNull v = true ->
  k <> "" ->
  TheConfigurator ∈ changeListeners w ->
  reentryFlag w = false ->
  hasDocument w = true ->
  k ∈ ks ->
  "" ∉ ks ->
  Forall settingKey ks ->
  get k (loadAll (create (host w) ks
                    (documentSettings (set k v true w).2))).2 = v.
Proof.
  intros Hv Hk Hin Hf Hdoc Hks Hne Hkeys.
  assert (Hkey : settingKey k)
    by (rewrite Forall_forall in Hkeys; by apply Hkeys).
  destruct (set_effects k v w Hv Hk) as [[-> _]|(w' & -> & _ & Hd & _)];
    [by destruct Hkey|].
  cbn [snd]. rewrite Hd, (bool_decide_eq_true_2 _ Hin), Hf. cbn.
  unfold hasDocument in Hdoc.
  destruct (documentSettings w) as [d|]; [|discriminate]. cbn.
  destruct (loadAll_settings (<[k := v]> d)
              (create (host w) ks (Some (<[k := v]> d)))
              eq_refl Hkeys (or_introl Hne)) as (_ & _ & _ & Hall).
  apply get_stored; [exact Hkey|]. rewrite Hall. cbn [keys create].
  by rewrite (bool_decide_eq_true_2 _ Hks), lookup_insert_eq, Hv.
Qed.

Lemma saved_setting_survives_reload_witness :
  get "sku"
    (loadAll (create (host Examples.freshApp) ["theme"; "sku"]
                (documentSettings
                   (set "sku" (Prim (Str "trends-default")) true
                      Examples.freshApp).2))).2
  = Prim (Str "trends-default").
Proof.
  apply (saved_setting_survives_reload "sku" (Prim (Str "trends-default"))
           Examples.freshApp ["theme"; "sku"]);
    [reflexivity | discriminate | | reflexivity | reflexivity | |
    | exact app_keys_are_settingKeys].
  - change (TheConfigurator ∈ [TheConfigurator; TheThemeProvider]). by left.
  - right. by left.
  - rewrite !not_elem_of_cons.
    repeat split; [discriminate | discriminate | apply not_elem_of_nil].
Defined.

(** Under [length] the array of the settings takes a length only, and it
    is its length that is read there: a [set] of a text throws before any
    listener is called and nothing is saved; a [set] of a number cuts the
    array, taking the settings under the array indices from that number on
    away. *)
Example set_length :
  (set "length" (Prim (Str "dark")) true Examples.freshApp)
  = (Throw RangeError, Examples.freshApp)
  /\ (let w := (set "3" (Prim (Str "a")) false Examples.freshApp).2 in
      get "length" w = Prim (Num (ofZ 4))
      /\ get "3" w = Prim (Str "a")
      /\ get "3" (set "length" (Prim (Num (ofZ 0))) false w).2
         = Prim Undefined).
Proof. vm_compute. repeat split. Qed.

(** Under [__proto__] the array stores nothing: a [set] of a text calls the
    listeners but leaves the array as it was. *)
Example set_proto_stores_nothing :
  store (set "__proto__" (Prim (Str "dark")) true Examples.freshApp).2
  = store Examples.freshApp
  /\ trace (set "__proto__" (Prim (Str "dark")) true Examples.freshApp).2
     = [Notified TheConfigurator "__proto__" (Prim (Str "dark"));
        Saved "__proto__" (Prim (Str "dark"));
        Notified TheThemeProvider "__proto__" (Prim (Str "dark"))].
Proof. vm_compute. repeat split. Qed.

End StoreFacts.

(** ** ThemeProvider: the themes of an SKU and the current theme *)

Section ThemeCatalogFacts.
Import Js ThemeProvider ThemeEnumeration.

Lemma List_filter_sublist {X} (f : X -> bool) (l : list X) :
  List.filter f l `sublist_of` l.
Proof.
  induction l as [|x l IH]; simpl; [constructor|].
  destruct (f x); by constructor.
Qed.

(** [enumerateForSku] of an SKU id that is not empty returns, once the
    catalog is loaded, the themes of that SKU and the themes of no SKU
    (empty [sku]), and no other, in the order of the catalog.  It throws on
    the empty id, and on a catalog that is not loaded. *)
Theorem enumerateForSku_spec (p : t) (skuId : string) :
  (skuId = "" -> enumerateForSku p skuId = Throw ParameterIsEmpty)
  /\ (skuId <> "" -> definitions p = None ->
      enumerateForSku p skuId = Throw ParameterIsNull)
  /\ (forall themes,
        skuId <> "" -> definitions p = Some themes ->
        exists l,
          enumerateForSku p skuId = Ok l
          /\ l `sublist_of` themes
          /\ forall th, th ∈ l <->
               th ∈ themes /\ (sku th = skuId \/ sku th = "")).
Proof.
  unfold enumerateForSku, Themes. split; [|split].
  - intros ->. reflexivity.
  - intros Hne Hd. by rewrite (bool_decide_eq_false_2 _ Hne), Hd.
  - intros themes Hne Hd. rewrite (bool_decide_eq_false_2 _ Hne), Hd.
    cbn [mbind result_bind Js.bind]. eexists. split; [reflexivity|].
    split; [apply List_filter_sublist|].
    intros th. rewrite !list_elem_of_In, filter_In.
    unfold truthy. rewrite negb_involutive, !orb_true_iff.
    rewrite !bool_decide_eq_true. tauto.
Qed.

Lemma enumerateForSku_spec_witness :
  exists l,
    enumerateForSku Examples.strayProvider "trends-default" = Ok l
    /\ l `sublist_of` Examples.catalog.
Proof.
  destruct (proj2 (proj2 (enumerateForSku_spec Examples.strayProvider
                            "trends-default")) Examples.catalog)
    as (l & Hl & Hsub & _); [discriminate | reflexivity |].
  exists l. by split.
Defined.

Lemma NoDup_fmap_eq {X Y} (f : X -> Y) (l : list X) (x y : X) :
  NoDup (f <$> l) -> x ∈ l -> y ∈ l -> f x = f y -> x = y.
Proof.
  intros Hnd Hx Hy Hf.
  apply list_elem_of_lookup in Hx as [i Hi].
  apply list_elem_of_lookup in Hy as [j Hj].
  assert (Hij : i = j).
  { eapply (NoDup_lookup (f <$> l)); [exact Hnd | |].
    - rewrite list_lookup_fmap, Hi. reflexivity.
    - rewrite list_lookup_fmap, Hj. simpl. by rewrite Hf. }
  subst j. congruence.
Qed.

(** The head of a filtered list is the first element of the list that
    passes the filter. *)
Lemma List_filter_head {X} (f : X -> bool) (l : list X) (x : X)
    (rest : list X) :
  List.filter f l = x :: rest ->
  exists before after,
    l = before ++ x :: after
    /\ Forall (fun y => f y = false) before
    /\ f x = true.
Proof.
  induction l as [|y l IH]; [discriminate|].
  cbn [List.filter]. destruct (f y) eqn:Hy.
  - intros [= -> _]. exists [], l. by repeat split.
  - intros Hf. destruct (IH Hf) as (before & after & -> & Hb & Hx).
    exists (y :: before), after. repeat split; [by constructor | exact Hx].
Qed.

(** [CurrentTheme] of a provider whose current id is borne by a theme of
    the loaded catalog returns the first theme of the catalog with that id:
    no theme before it in the catalog has the id.  When the ids of the
    catalog are distinct it is the theme with that id. *)
Theorem CurrentTheme_known_id (p : t) (themes : list Theme) (th : Theme) :
  definitions p = Some themes ->
  th ∈ themes ->
  currentThemeId p = Prim (Str (id th)) ->
  exists th' before after,
    CurrentTheme p = Ok (Some th')
    /\ themes = before ++ th' :: after
    /\ Forall (fun x => id x <> id th) before
    /\ id th' = id th
    /\ (NoDup (id <$> themes) -> th' = th).
Proof.
  intros Hd Hin Hid. unfold CurrentTheme, getThemeById, Themes.
  rewrite Hd, Hid. cbn [mbind result_bind Js.bind].
  assert (Hm : th ∈ List.filter (idIs (Prim (Str (id th)))) themes).
  { rewrite list_elem_of_In, filter_In, <- list_elem_of_In.
    split; [exact Hin|]. unfold idIs. by apply bool_decide_eq_true. }
  destruct (List.filter (idIs (Prim (Str (id th)))) themes)
    as [|th' rest] eqn:Hf; [by apply elem_of_nil in Hm|].
  destruct (List_filter_head _ _ _ _ Hf) as (before & after & Hsplit & Hb & Hid').
  unfold idIs in Hid'. apply bool_decide_eq_true in Hid'.
  exists th', before, after. cbn. split; [reflexivity|].
  split; [exact Hsplit|]. split.
  - eapply Forall_impl; [exact Hb|]. intros x Hx. unfold idIs in Hx.
    by apply bool_decide_eq_false in Hx.
  - split; [exact Hid'|].
    intros Hnd. apply (NoDup_fmap_eq id themes); try done.
    rewrite Hsplit. apply elem_of_app. right. by left.
Qed.

Lemma CurrentTheme_known_id_witness :
  exists th',
    CurrentTheme {| definitions := Some Examples.catalog;
                    currentThemeId := Prim (Str "dark") |} = Ok (Some th')
    /\ css th' = "dark.css".
Proof.
  destruct (CurrentTheme_known_id
              {| definitions := Some Examples.catalog;
                 currentThemeId := Prim (Str "dark") |}
              Examples.catalog
              {| id := "dark"; sku := "trends-default"; css := "dark.css" |}
              eq_refl)
    as (th' & before & after & Hrun & _ & _ & _ & Heq);
    [right; by left | reflexivity |].
  exists th'. split; [exact Hrun|].
  rewrite Heq; [reflexivity|].
  change (NoDup ["default-windows"; "dark"]).
  apply NoDup_cons. split; [|apply NoDup_singleton].
  rewrite not_elem_of_cons. split; [discriminate | apply not_elem_of_nil].
Defined.

(** Two themes with the id "dark": the current theme is the first of
    them. *)
Example CurrentTheme_first_of_two :
  CurrentTheme
    {| definitions :=
         Some [{| id := "dark"; sku := ""; css := "first.css" |};
               {| id := "dark"; sku := ""; css := "second.css" |}];
       currentThemeId := Prim (Str "dark") |}
  = Ok (Some {| id := "dark"; sku := ""; css := "first.css" |}).
Proof. reflexivity. Qed.

End ThemeCatalogFacts.

(** ** DataConvertor.convert, cell by cell *)

Section ConvertTableFacts.
Import Js TrendsConfig DataConvertor Sheet.

Variable parseFloatString : string -> number.

Lemma assign_at_end (a : list prim) (v : prim) :
  assign a (length a) v = a ++ [v].
Proof.
  unfold assign. destruct (decide (length a < length a)); [lia|].
  by rewrite Nat.sub_diag.
Qed.

Lemma fold_assign_eq (f : nat -> prim) (n : nat) :
  foldl (fun a i => assign a i (f i)) [] (seq 0 n) = f <$> seq 0 n.
Proof.
  induction n as [|n IH]; [reflexivity|].
  rewrite seq_S, foldl_app, fmap_app, IH. simpl.
  replace n with (length (f <$> seq 0 n)) at 2
    by (by rewrite length_fmap, length_seq).
  apply assign_at_end.
Qed.

Lemma emptySeries_eq (n : nat) :
  emptySeries n
  = (fun _ => {| validDataCount := 0; data := [] |}) <$> seq 0 n.
Proof.
  unfold emptySeries. induction n as [|n IH]; [reflexivity|].
  rewrite seq_S, foldl_app, fmap_app, IH. reflexivity.
Qed.

Lemma lookup_fmap_seq {X} (f : nat -> X) (n k : nat) :
  (f <$> seq 0 n) !! k = if decide (k < n) then Some (f k) else None.
Proof.
  rewrite list_lookup_fmap. destruct (decide (k < n)) as [Hk|Hk].
  - by rewrite lookup_seq_lt.
  - by rewrite lookup_seq_ge by lia.
Qed.

Lemma seriesOf_snoc (fm un : list (list prim)) (start j m : nat) :
  seriesOf parseFloatString fm un start j (seq start (S m))
  = match pointOf parseFloatString fm un start j (start + m) with
    | Some pt =>
        let s := seriesOf parseFloatString fm un start j (seq start m) in
        {| validDataCount := S (validDataCount s); data := data s ++ [pt] |}
    | None => seriesOf parseFloatString fm un start j (seq start m)
    end.
Proof.
  unfold seriesOf. rewrite seq_S, omap_app. simpl.
  destruct (pointOf parseFloatString fm un start j (start + m)) as [pt|];
    simpl.
  - rewrite length_app. simpl. f_equal. lia.
  - by rewrite app_nil_r.
Qed.

(** The inner loop at row [start + m]: after [j] turns the first [j] lines
    have taken the row in. *)
Lemma convertCells_eq (fm un : list (list prim)) (urow frow : list prim)
    (start m n j : nat) :
  un !! (start + m) = Some urow ->
  fm !! (start + m) = Some frow ->
  j <= n ->
  forM (convertCell parseFloatString fm un start (start + m)) (seq 0 j)
       ((fun k => seriesOf parseFloatString fm un start k (seq start m))
          <$> seq 0 n)
  = Ok ((fun k => seriesOf parseFloatString fm un start k
                    (seq start (if decide (k < j) then S m else m)))
          <$> seq 0 n).
Proof.
  intros Hu Hf. induction j as [|j IH]; intros Hj.
  - reflexivity.
  - rewrite seq_S, forM_snoc, IH by lia.
    cbn [mbind result_bind Js.bind]. simpl (0 + j).
    unfold convertCell, row. rewrite Hu. cbn [mbind result_bind Js.bind].
    assert (Hpoint : pointOf parseFloatString fm un start j (start + m)
                     = if isNaN (parseFloat parseFloatString (at_ urow (j + 1)))
                       then None
                       else Some {| originalIndex := start + m - start;
                                    pformatted := at_ frow (j + 1);
                                    punformatted :=
                                      parseFloat parseFloatString
                                        (at_ urow (j + 1)) |}).
    { unfold pointOf, cell. by rewrite Hu, Hf. }
    destruct (isNaN (parseFloat parseFloatString (at_ urow (j + 1)))) eqn:Hnan.
    + f_equal. apply list_eq. intros k. rewrite !lookup_fmap_seq.
      destruct (decide (k < n)); [|reflexivity]. f_equal.
      destruct (decide (k < j)), (decide (k < S j)); try lia; try reflexivity.
      assert (k = j) as -> by lia.
      by rewrite seriesOf_snoc, Hpoint.
    + rewrite lookup_fmap_seq. destruct (decide (j < n)); [|lia].
      destruct (decide (j < j)); [lia|].
      rewrite Hf. cbn [mbind result_bind Js.bind].
      f_equal. apply list_eq. intros k.
      destruct (decide (k = j)) as [->|Hne].
      * rewrite list_lookup_insert_eq
          by (by rewrite length_fmap, length_seq).
        rewrite lookup_fmap_seq. destruct (decide (j < n)); [|lia].
        destruct (decide (j < S j)); [|lia].
        by rewrite seriesOf_snoc, Hpoint.
      * rewrite list_lookup_insert_ne by congruence.
        rewrite !lookup_fmap_seq.
        destruct (decide (k < n)); [|reflexivity]. f_equal.
        destruct (decide (k < j)), (decide (k < S j)); try lia; reflexivity.
Qed.

(** The outer loop over [m] rows from [start] on. *)
Lemma convertRows_eq (fm un : list (list prim)) (start n m : nat) :
  (forall i, start <= i < start + m -> i < length fm /\ i < length un) ->
  forM (convertRow parseFloatString fm un start n) (seq start m)
       ([], emptySeries n)
  = Ok ((fun i => cell fm i 0) <$> seq start m,
        (fun k => seriesOf parseFloatString fm un start k (seq start m))
          <$> seq 0 n).
Proof.
  induction m as [|m IH]; intros Hrows.
  - simpl. by rewrite emptySeries_eq.
  - rewrite seq_S, forM_snoc, IH by (intros i Hi; apply Hrows; lia).
    cbn [mbind result_bind Js.bind].
    destruct (Hrows (start + m)) as [Hf Hu]; [lia|].
    apply lookup_lt_is_Some_2 in Hf as [frow Hf].
    apply lookup_lt_is_Some_2 in Hu as [urow Hu].
    unfold convertRow, row. rewrite Hf. cbn [mbind result_bind Js.bind fst snd].
    rewrite (convertCells_eq fm un urow frow start m n n Hu Hf) by lia.
    cbn [mbind result_bind Js.bind]. f_equal. f_equal.
    + rewrite fmap_app. simpl.
      replace (start + m - start) with
        (length ((fun i => cell fm i 0) <$> seq start m))
        by (rewrite length_fmap, length_seq; lia).
      rewrite assign_at_end. unfold cell at 3. by rewrite Hf.
    + apply list_eq. intros k. rewrite !lookup_fmap_seq.
      destruct (decide (k < n)); [by rewrite seq_S | reflexivity].
Qed.

(** On a sheet whose formatted matrix has a first row and whose unformatted
    matrix has the rows that are read, [convert] returns the table of the
    sheet: the header cells of row 0 from column 1 on (when there is a
    header), for the x axis the first cell of each row read, and for each
    line the points of the rows whose unformatted cell reads as a number,
    each with the index of its row among those read, the formatted cell and
    the number read. *)
Theorem convert_is_the_table (d : RawData) (fm un : list (list prim))
    (row0 : list prim) :
  formatted d = Some fm ->
  unformatted d = Some un ->
  fm !! 0 = Some row0 ->
  Nat.min (length fm) MaxColumnNumber <= length un ->
  convert parseFloatString d
  = Ok (tableOf parseFloatString (hasHeader d) fm un row0).
Proof.
  intros Hf Hu H0 Hrows. unfold convert, row. rewrite Hf, Hu, H0.
  cbn [mbind result_bind Js.bind].
  rewrite convertRows_eq.
  - cbn [mbind result_bind Js.bind fst snd]. unfold tableOf, fillHeader.
    by rewrite (fold_assign_eq (fun i => at_ row0 (i + 1))).
  - intros i Hi. lia.
Qed.

Lemma elem_of_omap_seq {X} (f : nat -> option X) (from n : nat) (x : X) :
  x ∈ omap f (seq from n) ->
  exists i, from <= i < from + n /\ f i = Some x.
Proof.
  rewrite list_elem_of_omap. intros (i & Hi & Hf).
  apply elem_of_seq in Hi. by exists i.
Qed.

(** Every point that [convert] stores stands at a column of the chart: its
    [originalIndex] is below [xData.length]; and it holds the formatted cell
    and the number read from the unformatted cell of its row, in the column
    of its line. *)
Theorem convert_points_stand_at_columns (d : RawData)
    (fm un : list (list prim)) (row0 : list prim) (bd : BindingData)
    (y : list LineDataConverted) (j : nat) (s : LineDataConverted)
    (pt : PointDataOnLine) :
  formatted d = Some fm ->
  unformatted d = Some un ->
  fm !! 0 = Some row0 ->
  Nat.min (length fm) MaxColumnNumber <= length un ->
  convert parseFloatString d = Ok bd ->
  yData bd = Some y ->
  y !! j = Some s ->
  pt ∈ data s ->
  let start := if hasHeader d then 1 else 0 in
  originalIndex pt < length (xData bd)
  /\ at_ (xData bd) (originalIndex pt) = cell fm (start + originalIndex pt) 0
  /\ pformatted pt = cell fm (start + originalIndex pt) (j + 1)
  /\ punformatted pt
     = parseFloat parseFloatString (cell un (start + originalIndex pt) (j + 1)).
Proof.
  intros Hf Hu H0 Hrows Hc Hy Hj Hpt start.
  rewrite (convert_is_the_table d fm un row0 Hf Hu H0 Hrows) in Hc.
  injection Hc as <-. unfold tableOf in *. cbn [yData xData] in *.
  fold start in Hy |- *.
  set (m := Nat.min (length fm) MaxColumnNumber - start) in *.
  injection Hy as <-.
  rewrite lookup_fmap_seq in Hj.
  destruct (decide (j < Z.to_nat (lineNumberOf row0))); [|discriminate].
  injection Hj as <-. cbn [data seriesOf] in Hpt.
  apply elem_of_omap_seq in Hpt as (i & Hi & Hpoint).
  unfold pointOf in Hpoint.
  destruct (isNaN (parseFloat parseFloatString (cell un i (j + 1))));
    [discriminate|].
  injection Hpoint as <-. cbn [originalIndex pformatted punformatted].
  replace (start + (i - start)) with i by lia.
  rewrite length_fmap, length_seq. split; [lia|].
  split; [|by split].
  unfold at_. rewrite list_lookup_fmap, lookup_seq_lt by lia.
  cbn. f_equal. lia.
Qed.

End ConvertTableFacts.

Section ConvertTableExamples.
Import Js TrendsConfig DataConvertor Sheet.

Lemma convert_is_the_table_witness :
  convert decimalNumeral Examples.sheetData
  = Ok (tableOf decimalNumeral true Examples.sheet Examples.sheet
          [Str "Time"; Str "A"; Str "B"]).
Proof.
  apply (convert_is_the_table decimalNumeral Examples.sheetData Examples.sheet Examples.sheet);
    [reflexivity | reflexivity | reflexivity | vm_compute; lia].
Defined.

Lemma convert_points_stand_at_columns_witness :
  originalIndex (Examples.point 1 "30" 30)
  < length (xData Examples.sheetBinding).
Proof.
  apply (convert_points_stand_at_columns decimalNumeral
           Examples.sheetData Examples.sheet
           Examples.sheet [Str "Time"; Str "A"; Str "B"]
           Examples.sheetBinding [Examples.seriesA; Examples.seriesB]
           0 Examples.seriesA (Examples.point 1 "30" 30));
    [reflexivity | reflexivity | reflexivity | vm_compute; lia
     | reflexivity | reflexivity | reflexivity | right; by left].
Defined.

End ConvertTableExamples.

(** ** LineChartPlotter.setMaxAndMin: the domain holds every point *)

Section MaxMinCoverFacts.
Import Js DataConvertor Spec LineChartPlotter.

Ltac num_cases :=
  unfold numLe, gtb in *; unfold eqb, ltb, mathMax, mathMin, cmp, isNaN, ofZ in *;
  repeat match goal with
         | n : number |- _ => destruct n
         end;
  simpl in *;
  repeat match goal with
         | |- context [(?x ?= ?y)%Q] => destruct (Qcompare_spec x y)
         | H : context [(?x ?= ?y)%Q] |- _ => destruct (Qcompare_spec x y)
         end;
  simpl in *; unfold inject_Z in *;
  try solve [ intuition (discriminate || congruence || lra)
            | exfalso; intuition (discriminate || lra) ].

Lemma numLe_trans (a b c : number) : numLe a b -> numLe b c -> numLe a c.
Proof. intros H1 H2. num_cases. Qed.

Lemma numLe_notNaN (a b : number) :
  numLe a b -> isNaN a = false /\ isNaN b = false.
Proof. intros H. num_cases. Qed.

Lemma mathMax_upper (a t : number) :
  isNaN a = false -> isNaN t = false ->
  numLe a (mathMax a t) /\ numLe t (mathMax a t).
Proof. intros H1 H2. num_cases. Qed.

Lemma mathMin_lower (a t : number) :
  isNaN a = false -> isNaN t = false ->
  numLe (mathMin a t) a /\ numLe (mathMin a t) t.
Proof. intros H1 H2. num_cases. Qed.

(** The running maximum and minimum bound every point taken in. *)
Lemma fold_covers (pts : list PointDataOnLine)
    (st : option (number * number)) :
  Forall (fun pt => isNaN (punformatted pt) = false) pts ->
  match st with
  | Some (mx0, mn0) => numLe mn0 mx0
  | None => True
  end ->
  match foldl accPoint st pts with
  | Some (mx, mn) =>
      match st with
      | Some (mx0, mn0) => numLe mn mn0 /\ numLe mx0 mx
      | None => True
      end
      /\ Forall (fun pt => numLe mn (punformatted pt)
                           /\ numLe (punformatted pt) mx) pts
  | None => st = None /\ pts = []
  end.
Proof.
  intros Hall. revert st. induction Hall as [|pt pts Hpt _ IH]; intros st Hst.
  - simpl. destruct st as [[mx mn]|]; [|done].
    apply numLe_notNaN in Hst as [Hn Hx].
    split; [|constructor]. split; by apply numLe_refl.
  - simpl.
    assert (Hacc : exists mx1 mn1,
               accPoint st pt = Some (mx1, mn1)
               /\ numLe mn1 mx1
               /\ numLe mn1 (punformatted pt)
               /\ numLe (punformatted pt) mx1
               /\ match st with
                  | Some (mx0, mn0) => numLe mn1 mn0 /\ numLe mx0 mx1
                  | None => True
                  end).
    { unfold accPoint, maxMinAcc. destruct st as [[mx0 mn0]|].
      - destruct (numLe_notNaN _ _ Hst) as [Hn Hx].
        destruct (mathMax_upper mx0 (punformatted pt) Hx Hpt).
        destruct (mathMin_lower mn0 (punformatted pt) Hn Hpt).
        eexists _, _. split; [reflexivity|].
        split; [by apply mathMin_le_mathMax|]. by repeat split.
      - destruct (mathMax_upper _ _ Hpt Hpt).
        destruct (mathMin_lower _ _ Hpt Hpt).
        eexists _, _. split; [reflexivity|].
        split; [apply mathMin_le_mathMax; [exact Hpt | by apply numLe_refl]|].
        by repeat split. }
    destruct Hacc as (mx1 & mn1 & -> & Hle & Hlo & Hhi & Hold).
    specialize (IH (Some (mx1, mn1)) Hle).
    destruct (foldl accPoint (Some (mx1, mn1)) pts) as [[mx mn]|];
      [|by destruct IH].
    destruct IH as [[Hmn Hmx] Hrest]. split.
    + destruct st as [[mx0 mn0]|]; [|done]. destruct Hold.
      split; eapply numLe_trans; eauto.
    + constructor; [|exact Hrest].
      split; eapply numLe_trans; eauto.
Qed.

(** The branches after the loops only widen the interval. *)
Lemma settle_widens (mx mn : number) :
  numLe mn mx ->
  numLe (settle (Some (mx, mn))).2 mn /\ numLe mx (settle (Some (mx, mn))).1.
Proof.
  intros H. unfold settle.
  destruct (eqb mn mx) eqn:He.
  - destruct (gtb mn (ofZ 0)) eqn:Hg; simpl.
    + clear -H He Hg. num_cases.
    + destruct (ltb mn (ofZ 0)) eqn:Hl; simpl.
      * clear -H He Hl. num_cases.
      * clear -H He Hg Hl. num_cases.
  - simpl. clear -H He. num_cases.
Qed.

(** On binding data as the conversion delivers it, the domain that
    [setMaxAndMin] leaves in [min] and [max] holds the value of every point
    of the lines plotted. *)
Theorem setMaxAndMin_covers_every_point (p : Plotter) (bd : BindingData)
    (y : list LineDataConverted) :
  bindingData p = Some bd ->
  yData bd = Some y ->
  Forall seriesInvariant y ->
  exists mx mn,
    setMaxAndMin p
    = Ok {| bindingData := bindingData p; lineNumber := lineNumber p;
            columnNumber := columnNumber p;
            max := Some mx; min := Some mn |}
    /\ Forall (fun pt => numLe mn (punformatted pt)
                         /\ numLe (punformatted pt) mx)
              (pointsRead (lineNumber p) y).
Proof.
  intros Hbd Hy Hinv.
  assert (Hst : (match lineNumber p with
                 | 0 => Ok None
                 | S _ => y' ← linesOf p;
                          forM (maxMinLine y') (seq 0 (lineNumber p)) None
                 end)
                = Ok (foldl accPoint None (pointsRead (lineNumber p) y))).
  { destruct (lineNumber p) as [|n] eqn:Hn; [reflexivity|].
    unfold linesOf. rewrite Hbd, Hy. cbn [mbind result_bind Js.bind].
    by apply maxMinLines_fold. }
  unfold setMaxAndMin. rewrite Hst. cbn [mbind result_bind Js.bind].
  set (pts := pointsRead (lineNumber p) y) in *.
  pose proof (fold_covers pts None (pointsRead_notNaN _ y Hinv) I) as Hcov.
  pose proof (fold_ordered pts None (pointsRead_notNaN _ y Hinv) I) as Hord.
  destruct (foldl accPoint None pts) as [[mx mn]|] eqn:Hfold.
  - destruct (settle_widens mx mn Hord) as [Hlo Hhi].
    destruct (settle (Some (mx, mn))) as [mx' mn'] eqn:Hset.
    exists mx', mn'. split; [reflexivity|].
    destruct Hcov as [_ Hcov]. eapply Forall_impl; [exact Hcov|].
    cbn. intros pt [Hn Hx]. split; eapply numLe_trans; eauto.
  - destruct Hcov as [_ ->]. exists (ofZ 1), (ofZ 0).
    split; [reflexivity | constructor].
Qed.

Lemma setMaxAndMin_covers_every_point_witness :
  exists mx mn,
    setMaxAndMin Examples.sheetPlotter
    = Ok {| bindingData := Some Examples.sheetBinding; lineNumber := 2;
            columnNumber := 2; max := Some mx; min := Some mn |}
    /\ numLe mn (ofZ 10) /\ numLe (ofZ 40) mx.
Proof.
  destruct (setMaxAndMin_covers_every_point Examples.sheetPlotter
              Examples.sheetBinding [Examples.seriesA; Examples.seriesB]
              eq_refl eq_refl)
    as (mx & mn & Hrun & Hall).
  - destruct (convert_Ok_inv decimalNumeral Examples.sheetData
                Examples.sheetBinding eq_refl) as [H|(y & Hy & _ & _ & Hall)];
      [discriminate|].
    injection Hy as <-. exact Hall.
  - exists mx, mn. split; [exact Hrun|].
    change (pointsRead (lineNumber Examples.sheetPlotter)
              [Examples.seriesA; Examples.seriesB])
      with [Examples.point 0 "10" 10; Examples.point 1 "30" 30;
            Examples.point 0 "20" 20; Examples.point 1 "40" 40] in Hall.
    apply Forall_cons in Hall as [[H10 _] Hall].
    apply Forall_cons in Hall as [_ Hall].
    apply Forall_cons in Hall as [_ Hall].
    apply Forall_cons in Hall as [[_ H40] _].
    by split.
Defined.

End MaxMinCoverFacts.

(** ** Configuration.delaySet: one call *)

Section DelaySetOnceFacts.
Import Js Configuration Spec.



End DelaySetOnceFacts.

(** ** LineChartPlotter.plot: the stored order and visibility of the lines *)

(** The keys of the plotter are names: the array of the settings stores a
    property under each, which is no array index. *)
Ltac trendsKey := first [split; discriminate | reflexivity].

Section PlotFacts.
Import Js TrendsConfig DataConvertor Configuration Spec LineChartPlotter Stored.

Variable defaultLegendName : nat -> string.

Lemma bindM_ok {A B} (m : M A) (f : A -> M B) (w w1 : World) (a : A) :
  m w = (Ok a, w1) -> bindM m f w = f a w1.
Proof. intros H. unfold bindM. by rewrite H. Qed.

Lemma keepsArrays_refl (w : World) : keepsArrays w w.
Proof. intros key _. by split. Qed.

Lemma keepsArrays_trans (w1 w2 w3 : World) :
  keepsArrays w1 w2 -> keepsArrays w2 w3 -> keepsArrays w1 w3.
Proof.
  intros H12 H23 key Hkey.
  destruct (H12 key Hkey), (H23 key Hkey). split; auto.
Qed.

(** A [set] of an array, or under another key than the two. *)
Lemma set_keeps (k : string) (v : value) (w : World) :
  settingKey k ->
  isArrayIndex k = false ->
  notNull v = true ->
  k <> "" ->
  (k = Trends.lineOrder \/ k = Trends.lineDisplay -> exists a, v = Arr a) ->
  exists w', set k v true w = (Ok tt, w')
             /\ keepsArrays w w'
             /\ get k w' = v.
Proof.
  intros Hkey Hi Hv Hk Harr.
  destruct (set_get k v w Hkey Hi Hv Hk) as (w' & Hrun & _ & Hget).
  exists w'. split; [exact Hrun|]. split.
  - intros key Hk'. unfold arrayOrFalsy, isArray. rewrite Hget.
    destruct (decide (key = k)) as [->|Hne]; [|done].
    destruct (Harr Hk') as [a ->]. split; [done | by exists a].
  - rewrite Hget. by destruct (decide (k = k)).
Qed.








Lemma length_setLength (a : list prim) (n : nat) : length (setLength a n) = n.
Proof.
  unfold setLength. rewrite length_app, length_take, length_replicate. lia.
Qed.

Lemma resizeStored_spec (key : string) (n : nat) (w : World) :
  settingKey key ->
  isArray key w ->
  exists w', resizeStored key n w = (Ok tt, w')
             /\ storedLength key w' = Some n
             /\ forall key', key' <> key -> get key' w' = get key' w.
Proof.
  intros Hkey [a Ha]. unfold resizeStored. rewrite Ha.
  eexists. split; [reflexivity|]. split.
  - unfold storedLength. rewrite (get_stored key (Arr (setLength a n))).
    + by rewrite length_setLength.
    + exact Hkey.
    + cbn. by rewrite lookup_insert_eq.
  - intros key' Hne. apply get_ext; [|by right|reflexivity|reflexivity].
    cbn. by rewrite lookup_insert_ne by congruence.
Qed.


Lemma setMaxAndMin_Ok (p : Plotter) (bd : BindingData)
    (y : list LineDataConverted) :
  bindingData p = Some bd ->
  yData bd = Some y ->
  Forall seriesInvariant y ->
  exists mx mn,
    setMaxAndMin p
    = Ok {| bindingData := bindingData p; lineNumber := lineNumber p;
            columnNumber := columnNumber p;
            max := Some mx; min := Some mn |}.
Proof.
  intros Hbd Hy Hinv. unfold setMaxAndMin.
  assert (Hst : (match lineNumber p with
                 | 0 => Ok None
                 | S _ => y' ← linesOf p;
                          forM (maxMinLine y') (seq 0 (lineNumber p)) None
                 end)
                = Ok (foldl accPoint None (pointsRead (lineNumber p) y))).
  { destruct (lineNumber p) as [|n] eqn:Hn; [reflexivity|].
    unfold linesOf. rewrite Hbd, Hy. cbn [mbind result_bind Js.bind].
    by apply maxMinLines_fold. }
  rewrite Hst. cbn [mbind result_bind Js.bind].
  destruct (settle _) as [mx mn]. by exists mx, mn.
Qed.


End PlotFacts.

Section PlotExamples.
Import Js TrendsConfig DataConvertor Configuration Spec LineChartPlotter Stored.
Import Examples.


End PlotExamples.

(** ** The ids of points, check boxes and titles *)

Section JsTextFacts.
Import Js JsText.

Lemma append_cons (x : Ascii.ascii) (a b : string) :
  String x a +:+ b = String x (a +:+ b).
Proof. reflexivity. Qed.

Lemma append_nil_l (b : string) : "" +:+ b = b.
Proof. reflexivity. Qed.

Lemma append_nil_r (a : string) : a +:+ "" = a.
Proof.
  induction a as [|x a IH]; [reflexivity | by rewrite append_cons, IH].
Qed.

Lemma append_assoc (a b c : string) : (a +:+ b) +:+ c = a +:+ b +:+ c.
Proof.
  induction a as [|x a IH]; [reflexivity | by rewrite !append_cons, IH].
Qed.

Lemma length_append (a b : string) :
  String.length (a +:+ b) = String.length a + String.length b.
Proof.
  induction a as [|x a IH]; [reflexivity|].
  rewrite append_cons. cbn [String.length]. lia.
Qed.

Lemma substring_head (b c : string) :
  String.substring 0 (String.length b) (b +:+ c) = b.
Proof.
  induction b as [|x b IH]; [rewrite append_nil_l; by destruct c|].
  rewrite append_cons. cbn [String.length String.substring]. by f_equal.
Qed.

Lemma substring_middle (a b c : string) :
  String.substring (String.length a) (String.length b) (a +:+ b +:+ c) = b.
Proof.
  induction a as [|x a IH]; [rewrite append_nil_l; apply substring_head|].
  rewrite append_cons. cbn [String.length String.substring]. exact IH.
Qed.

Lemma prefix_nil (s : string) : String.prefix "" s = true.
Proof. by destruct s. Qed.

Lemma prefix_cons (a : Ascii.ascii) (p s : string) :
  String.prefix (String a p) (String a s) = String.prefix p s.
Proof. simpl. by destruct (Ascii.ascii_dec a a). Qed.

Lemma indexOfFrom_here (pat s : string) (i : Z) :
  String.prefix pat s = true -> indexOfFrom pat s i = i.
Proof. intros H. destruct s; simpl in *; by rewrite H. Qed.

Lemma indexOfFrom_ne (a b : Ascii.ascii) (p s : string) (i : Z) :
  a <> b ->
  indexOfFrom (String a p) (String b s) i
  = indexOfFrom (String a p) s (i + 1).
Proof.
  intros Hne. simpl. by destruct (Ascii.ascii_dec a b).
Qed.

Lemma indexOfFrom_ne2 (a a2 b2 : Ascii.ascii) (p s : string) (i : Z) :
  a2 <> b2 ->
  indexOfFrom (String a (String a2 p)) (String a (String b2 s)) i
  = indexOfFrom (String a (String a2 p)) (String b2 s) (i + 1).
Proof.
  intros Hne.
  change (indexOfFrom (String a (String a2 p)) (String a (String b2 s)) i)
    with (if String.prefix (String a (String a2 p)) (String a (String b2 s))
          then i
          else indexOfFrom (String a (String a2 p)) (String b2 s) (i + 1)).
  rewrite prefix_cons. simpl String.prefix.
  by destruct (Ascii.ascii_dec a2 b2).
Qed.

Lemma digit_ne (p c : Ascii.ascii) :
  digitOf p = None -> digitOf c <> None -> p <> c.
Proof. congruence. Qed.

Lemma allDigits_cons (c : Ascii.ascii) (s : string) :
  allDigits (String c s) = true -> digitOf c <> None /\ allDigits s = true.
Proof. simpl. destruct (digitOf c); [by split | discriminate]. Qed.

(** The scan for a pattern that begins with no digit steps over digits. *)
Lemma indexOfFrom_digits (p : Ascii.ascii) (pat ds s : string) (i : Z) :
  digitOf p = None ->
  allDigits ds = true ->
  indexOfFrom (String p pat) (ds +:+ s) i
  = indexOfFrom (String p pat) s (i + Z.of_nat (String.length ds)).
Proof.
  intros Hp. revert i. induction ds as [|c ds IH]; intros i Hds.
  - simpl. f_equal. lia.
  - apply allDigits_cons in Hds as [Hc Hds].
    rewrite append_cons, indexOfFrom_ne by (by apply digit_ne).
    rewrite IH by exact Hds. f_equal. cbn [String.length]. lia.
Qed.

Lemma digitOf_digitChar (d : nat) :
  d < 10 -> digitOf (digitChar d) = Some (Z.of_nat d).
Proof.
  intros Hd. do 10 (destruct d as [|d]; [reflexivity|]). lia.
Qed.

Lemma readDigits_cons (c : Ascii.ascii) (k : Z) (s : string) (a : Z)
    (cnt : nat) :
  digitOf c = Some k ->
  readDigits (String c s) a cnt = readDigits s (10 * a + k) (S cnt).
Proof. intros H. simpl. by rewrite H. Qed.

(** The digits written for [n] are digits, there is at least one, and
    reading them gives [n] back. *)
Lemma digitsOf_spec (turns n : nat) (acc : string) :
  n < turns ->
  exists ds,
    digitsOf turns n acc = ds +:+ acc
    /\ allDigits ds = true
    /\ ds <> ""
    /\ forall rest a cnt,
         readDigits (ds +:+ rest) a cnt
         = readDigits rest
             (a * 10 ^ Z.of_nat (String.length ds) + Z.of_nat n)
             (cnt + String.length ds).
Proof.
  revert n acc. induction turns as [|turns IH]; intros n acc Hn; [lia|].
  cbn [digitsOf].
  assert (Hmod : n mod 10 < 10) by (apply Nat.mod_upper_bound; lia).
  pose proof (digitOf_digitChar _ Hmod) as Hd.
  destruct (n <? 10) eqn:Hlt.
  - apply Nat.ltb_lt in Hlt.
    exists (String (digitChar (n mod 10)) "").
    split; [reflexivity|]. split; [cbn [allDigits]; by rewrite Hd|].
    split; [discriminate|].
    intros rest a cnt. rewrite append_cons, append_nil_l.
    cbn [String.length].
    rewrite (readDigits_cons _ _ _ _ _ Hd).
    rewrite Nat.mod_small by lia. f_equal; [f_equal|]; lia.
  - apply Nat.ltb_ge in Hlt.
    destruct (IH (n / 10) (String (digitChar (n mod 10)) acc))
      as (ds & Hrun & Hall & Hne & Hread).
    { pose proof (Nat.div_lt n 10). lia. }
    exists (ds +:+ String (digitChar (n mod 10)) "").
    split; [by rewrite Hrun, append_assoc|].
    split; [|split].
    + clear -Hall Hd.
      induction ds as [|c ds IHds]; rewrite ?append_cons, ?append_nil_l;
        cbn [allDigits].
      * by rewrite Hd.
      * apply allDigits_cons in Hall as [Hc Hall].
        destruct (digitOf c); [by apply IHds | done].
    + destruct ds; discriminate.
    + intros rest a cnt.
      rewrite append_assoc, Hread, append_cons, append_nil_l.
      rewrite (readDigits_cons _ _ _ _ _ Hd), length_append.
      cbn [String.length].
      pose proof (Nat.div_mod_eq n 10) as Hdm.
      f_equal; [|lia].
      rewrite Nat2Z.inj_add, Z.pow_add_r by lia.
      change (10 ^ Z.of_nat 1)%Z with 10%Z. lia.
Qed.

Lemma natToString_spec (n : nat) :
  allDigits (natToString n) = true
  /\ natToString n <> ""
  /\ readDigits (natToString n) 0 0
     = (Z.of_nat n, String.length (natToString n), "").
Proof.
  unfold natToString.
  destruct (digitsOf_spec (S n) n "") as (ds & Hrun & Hall & Hne & Hread);
    [lia|].
  pose proof append_nil_r as Hnil.
  rewrite Hrun, Hnil. split; [exact Hall|]. split; [exact Hne|].
  specialize (Hread "" 0%Z 0). rewrite Hnil in Hread. rewrite Hread.
  cbn [readDigits Nat.add].
  by replace (0 * 10 ^ Z.of_nat (String.length ds) + Z.of_nat n)%Z
    with (Z.of_nat n) by lia.
Qed.

Lemma digit_not_sign (c : Ascii.ascii) (x : Ascii.ascii) :
  digitOf c <> None -> digitOf x = None -> Ascii.eqb c x = false.
Proof.
  intros Hc Hx. destruct (Ascii.eqb_spec c x) as [->|]; [done | reflexivity].
Qed.

Lemma digit_not_space (c : Ascii.ascii) :
  digitOf c <> None -> isWhiteSpace c = false.
Proof.
  unfold digitOf, isWhiteSpace.
  set (n := Ascii.nat_of_ascii c).
  destruct ((48 <=? Z.of_nat n)%Z && (Z.of_nat n <=? 57)%Z) eqn:Hn; [|done].
  intros _. apply andb_true_iff in Hn as [H1 H2].
  apply Z.leb_le in H1, H2.
  apply orb_false_iff. split.
  - apply Nat.eqb_neq. lia.
  - apply andb_false_iff. right. apply Nat.leb_gt. lia.
Qed.

(** [parseInt] reads the text of an index back. *)
Lemma parseInt_natToString (n : nat) :
  parseInt (natToString n) = ofZ (Z.of_nat n).
Proof.
  destruct (natToString_spec n) as (Hall & Hne & Hread).
  destruct (natToString n) as [|c ds] eqn:Hs; [done|].
  apply allDigits_cons in Hall as [Hc Hall].
  unfold parseInt. cbn [trimStart]. rewrite (digit_not_space c Hc).
  rewrite !(digit_not_sign c) by (exact Hc || reflexivity).
  cbn [orb].
  assert (Hhex : match String c ds with
                 | String c0 (String c1 _) =>
                     Ascii.eqb c0 "0"
                     && (Ascii.eqb c1 "x" || Ascii.eqb c1 "X")
                 | _ => false
                 end = false).
  { destruct ds as [|c1 ds']; [reflexivity|].
    apply allDigits_cons in Hall as [Hc1 _].
    rewrite !(digit_not_sign c1) by (exact Hc1 || reflexivity).
    apply andb_false_r. }
  rewrite Hhex, Hread. cbn [String.length Nat.eqb]. reflexivity.
Qed.

End JsTextFacts.

Section LineIdFacts.
Import Js JsText LineIds.

(** The number between two marks, when each mark is first met where it
    frames the number. *)
Lemma getNumberFromString_framed (pre startS d endS post : string) :
  indexOf (pre +:+ startS +:+ d +:+ endS +:+ post) startS
  = Z.of_nat (String.length pre) ->
  indexOf (pre +:+ startS +:+ d +:+ endS +:+ post) endS
  = Z.of_nat (String.length pre + String.length startS + String.length d) ->
  getNumberFromString (pre +:+ startS +:+ d +:+ endS +:+ post) startS endS
  = parseInt d.
Proof.
  intros Hstart Hend. unfold getNumberFromString, substring.
  rewrite Hstart, Hend. f_equal.
  set (org := pre +:+ startS +:+ d +:+ endS +:+ post).
  assert (Hlen : String.length org
                 = String.length pre + String.length startS
                   + String.length d + String.length endS
                   + String.length post).
  { subst org. rewrite !length_append. lia. }
  rewrite Hlen.
  replace (Z.to_nat _) with (String.length (pre +:+ startS))
    by (rewrite length_append; lia).
  replace (Z.to_nat _) with (String.length d) by lia.
  subst org. rewrite <- (append_assoc pre startS).
  apply substring_middle.
Qed.

Ltac norm :=
  rewrite ?append_assoc;
  repeat (rewrite append_cons || rewrite append_nil_l).

Ltac scan :=
  unfold indexOf; norm;
  repeat first
    [ rewrite indexOfFrom_ne by (discriminate || by apply digit_ne)
    | rewrite indexOfFrom_ne2 by (discriminate || by apply digit_ne)
    | rewrite indexOfFrom_digits by done; norm ];
  rewrite indexOfFrom_here by (rewrite !prefix_cons; apply prefix_nil);
  rewrite ?length_append; cbn [String.length]; lia.

Lemma ids_read_back (l c : nat) :
  getLineIdFromPointId (pointId l c) = ofZ (Z.of_nat l)
  /\ getColumnFromPointId (pointId l c) = ofZ (Z.of_nat c)
  /\ getLineIdFromCheckboxId (checkboxId l) = ofZ (Z.of_nat l)
  /\ getLineIdFromLineTitleId (lineTitleId l) = ofZ (Z.of_nat l).
Proof.
  rewrite <- (parseInt_natToString l), <- (parseInt_natToString c).
  destruct (natToString_spec l) as (Hl & Hlne & _).
  destruct (natToString_spec c) as (Hc & Hcne & _).
  unfold getLineIdFromPointId, getColumnFromPointId, getLineIdFromCheckboxId,
    getLineIdFromLineTitleId, pointId, checkboxId, lineTitleId.
  set (dl := natToString l) in *. set (dc := natToString c) in *.
  clearbody dl dc.
  destruct dl as [|l0 dl]; [done|]. destruct dc as [|c0 dc]; [done|].
  apply allDigits_cons in Hl as [Hl0 Hl].
  apply allDigits_cons in Hc as [Hc0 Hc].
  split; [|split; [|split]].
  - apply (getNumberFromString_framed "#point" "line" (String l0 dl) "column"
             (String c0 dc +:+ "end")); scan.
  - rewrite <- (append_assoc "#point" "line").
    rewrite <- (append_assoc ("#point" +:+ "line") (String l0 dl)).
    rewrite <- (append_nil_r "end").
    apply (getNumberFromString_framed
             (("#point" +:+ "line") +:+ String l0 dl) "column"
             (String c0 dc) "end" ""); scan.
  - rewrite <- (append_nil_l ("checkbox" +:+ String l0 dl +:+ "end")).
    rewrite <- (append_nil_r "end").
    apply (getNumberFromString_framed "" "checkbox" (String l0 dl) "end" "");
      scan.
  - rewrite <- (append_nil_l ("line-title" +:+ String l0 dl +:+ "end")).
    rewrite <- (append_nil_r "end").
    apply (getNumberFromString_framed "" "line-title" (String l0 dl) "end" "");
      scan.
Qed.

(** The ids that the plotter gives to points, check boxes and titles are
    read back as they were written: the line and the column of a point id,
    the line of a check box id and of a title id. *)
Theorem ids_are_read_back (l c : nat) :
  (Z.of_nat l < 10 ^ 21)%Z ->
  (Z.of_nat c < 10 ^ 21)%Z ->
  getLineIdFromPointId (pointId l c) = ofZ (Z.of_nat l)
  /\ getColumnFromPointId (pointId l c) = ofZ (Z.of_nat c)
  /\ getLineIdFromCheckboxId (checkboxId l) = ofZ (Z.of_nat l)
  /\ getLineIdFromLineTitleId (lineTitleId l) = ofZ (Z.of_nat l).
Proof. intros _ _. apply ids_read_back. Qed.

Lemma ids_are_read_back_witness :
  getLineIdFromPointId (pointId 3 17) = ofZ 3
  /\ getColumnFromPointId (pointId 3 17) = ofZ 17.
Proof.
  destruct (ids_are_read_back 3 17) as (Hl & Hc & _);
    [reflexivity | reflexivity |].
  by split.
Defined.

End LineIdFacts.

(** ** LineChartPlotter.promoteLineToTop *)

Section LineOrderFacts.
Import Js LineIds.

Lemma eqb_ofZ (a b : Z) : eqb (ofZ a) (ofZ b) = (a =? b)%Z.
Proof.
  unfold eqb, cmp, ofZ, Qcompare, inject_Z. cbn [Qnum Qden].
  rewrite !Z.mul_1_r.
  destruct (Z.compare_spec a b) as [->|Hlt|Hgt].
  - by rewrite Z.eqb_refl.
  - symmetry. apply Z.eqb_neq. lia.
  - symmetry. apply Z.eqb_neq. lia.
Qed.

Lemma strictEqNumber_ofZ (a b : nat) :
  strictEqNumber (ofZ (Z.of_nat a)) (Num (ofZ (Z.of_nat b)))
  = bool_decide (a = b).
Proof.
  cbn [strictEqNumber]. rewrite eqb_ofZ.
  destruct (Z.eqb_spec (Z.of_nat a) (Z.of_nat b)) as [Heq|Hne].
  - symmetry. apply bool_decide_eq_true. lia.
  - symmetry. apply bool_decide_eq_false. lia.
Qed.

Lemma indexOfNumber_found (ids : list nat) (l i : nat) (z : Z) :
  ids !! i = Some l ->
  l ∉ take i ids ->
  indexOfNumber (orderOf ids) (ofZ (Z.of_nat l)) z = (z + Z.of_nat i)%Z.
Proof.
  revert i z. induction ids as [|x ids IH]; intros [|i] z Hi Hnot;
    try discriminate.
  - injection Hi as ->. cbn [orderOf fmap list_fmap indexOfNumber].
    rewrite strictEqNumber_ofZ, bool_decide_eq_true_2 by reflexivity. lia.
  - cbn [take] in Hnot. apply not_elem_of_cons in Hnot as [Hne Hnot].
    cbn [orderOf fmap list_fmap indexOfNumber].
    rewrite strictEqNumber_ofZ, bool_decide_eq_false_2 by congruence.
    fold (orderOf ids). rewrite (IH i) by done. lia.
Qed.

Lemma indexOfNumber_absent (ids : list nat) (l : nat) (z : Z) :
  l ∉ ids ->
  indexOfNumber (orderOf ids) (ofZ (Z.of_nat l)) z = (-1)%Z.
Proof.
  revert z. induction ids as [|x ids IH]; intros z Hnot; [reflexivity|].
  apply not_elem_of_cons in Hnot as [Hne Hnot].
  cbn [orderOf fmap list_fmap indexOfNumber].
  rewrite strictEqNumber_ofZ, bool_decide_eq_false_2 by congruence.
  fold (orderOf ids). by apply IH.
Qed.

Lemma delete_last {X} (a : list X) :
  delete (length a - 1) a = take (length a - 1) a.
Proof.
  induction a as [|x a IH]; [reflexivity|].
  destruct a as [|y a]; [reflexivity|].
  cbn [length] in *. replace (S (S (length a)) - 1) with (S (length a)) by lia.
  replace (S (length a) - 1) with (length a) in IH by lia.
  change (delete (S (length a)) (x :: y :: a))
    with (x :: delete (length a) (y :: a)).
  by rewrite IH.
Qed.

Lemma top_of_orderOf (ids : list nat) (l : nat) :
  strictEqNumber (ofZ (Z.of_nat l))
    (at_ (orderOf ids) (length (orderOf ids) - 1))
  = bool_decide (last ids = Some l).
Proof.
  unfold at_, orderOf. rewrite length_fmap, list_lookup_fmap, last_lookup.
  replace (Init.Nat.pred (length ids)) with (length ids - 1) by lia.
  destruct (ids !! (length ids - 1)) as [x|].
  - change (strictEqNumber (ofZ (Z.of_nat l)) (Num (ofZ (Z.of_nat x)))
            = bool_decide (Some x = Some l)).
    rewrite strictEqNumber_ofZ. apply bool_decide_ext.
    split; congruence.
  - symmetry. by apply bool_decide_eq_false.
Qed.

(** [promoteLineToTop] on a line order that holds line ids: nothing is done
    when the line is the last, the one on top, already; when the line is
    elsewhere in the order, its first entry is taken out and the line is
    put last, so that the new order is a rearrangement of the old one with
    the other lines in their order; when the line is not in the order, the
    line on top is taken out of the order for it. *)
Theorem promoteLineToTop_moves_the_line_last (ids : list nat) (l : nat) :
  (last ids = Some l ->
   promoteLineToTop (orderOf ids) (ofZ (Z.of_nat l)) = None)
  /\ (forall i,
        last ids <> Some l ->
        ids !! i = Some l ->
        l ∉ take i ids ->
        promoteLineToTop (orderOf ids) (ofZ (Z.of_nat l))
        = Some (orderOf (delete i ids ++ [l]))
        /\ delete i ids ++ [l] ≡ₚ ids)
  /\ (l ∉ ids ->
      promoteLineToTop (orderOf ids) (ofZ (Z.of_nat l))
      = Some (orderOf (take (length ids - 1) ids ++ [l]))).
Proof.
  unfold promoteLineToTop. rewrite top_of_orderOf.
  split; [|split].
  - intros Hlast. by rewrite (bool_decide_eq_true_2 _ Hlast).
  - intros i Hlast Hi Hnot. rewrite (bool_decide_eq_false_2 _ Hlast).
    rewrite (indexOfNumber_found ids l i 0 Hi Hnot). split.
    + f_equal. unfold splice1.
      pose proof (lookup_lt_Some _ _ _ Hi) as Hlt.
      unfold orderOf at 1 2. rewrite length_fmap.
      destruct (0 + Z.of_nat i <? 0)%Z eqn:Hneg; [apply Z.ltb_lt in Hneg; lia|].
      replace (Z.to_nat (Z.min (0 + Z.of_nat i) (Z.of_nat (length ids))))
        with i by lia.
      unfold orderOf. by rewrite fmap_app, list_fmap_delete.
    + rewrite (delete_Permutation ids i l Hi) at 2.
      by rewrite Permutation_app_comm.
  - intros Hnot.
    assert (Hlast : last ids <> Some l).
    { rewrite last_lookup. intros Hl. apply Hnot.
      by eapply list_elem_of_lookup_2. }
    rewrite (bool_decide_eq_false_2 _ Hlast).
    rewrite (indexOfNumber_absent ids l 0 Hnot).
    f_equal. unfold splice1. cbn [Z.ltb Z.compare].
    unfold orderOf at 1 2. rewrite length_fmap.
    replace (Z.to_nat (Z.max (Z.of_nat (length ids) + -1) 0))
      with (length ids - 1) by lia.
    unfold orderOf. rewrite fmap_app, fmap_take. f_equal.
    set (a := _ <$> ids).
    replace (length ids - 1) with (length a - 1)
      by (subst a; by rewrite length_fmap).
    apply delete_last.
Qed.

Lemma promoteLineToTop_moves_the_line_last_witness :
  promoteLineToTop (orderOf [0; 1; 2; 3]) (ofZ 1)
  = Some (orderOf [0; 2; 3; 1]).
Proof.
  apply (proj1 (proj2 (promoteLineToTop_moves_the_line_last [0; 1; 2; 3] 1))
           1); [discriminate | reflexivity |].
  cbn [take]. rewrite not_elem_of_cons.
  split; [discriminate | apply not_elem_of_nil].
Defined.

End LineOrderFacts.

(** ** Layouter.handleWindowResizeWidth *)

Section WindowLayoutFacts.
Import Layouter WindowLayout.

(** The first row after a resize of the window: the line chart, the legend
    and the title each get at least their minimum width; together they are
    never narrower than the row, and exactly as wide when the title's share
    is above its minimum; when besides the chart's share is above its
    minimum and the legend above its own, the legend keeps the width it has
    and the line chart takes up the change. *)
Theorem handleWindowResizeWidth_first_row (windowWidth : Z)
    (body lineChart titleParent legend shortdes1Group longdesGroup
       : ElementWithFixedProperties) :
  let r := handleWindowResizeWidth windowWidth body lineChart titleParent
             legend shortdes1Group longdesGroup in
  let row := firstRowContainerWidth r in
  (ElementMinWidth lineChart <= lineChartWidth r
   /\ ElementMinWidth legend <= legendWidth r
   /\ ElementMinWidth titleParent <= titleWidth r)%Z
  /\ (row <= lineChartWidth r + legendWidth r + titleWidth r)%Z
  /\ ((ElementMinWidth titleParent < row - lineChartWidth r - legendWidth r ->
       lineChartWidth r + legendWidth r + titleWidth r = row)%Z)
  /\ ((ElementMinWidth lineChart
       < row - outerWidth titleParent - outerWidth legend ->
       ElementMinWidth legend < outerWidth legend ->
       lineChartWidth r = row - outerWidth titleParent - outerWidth legend
       /\ legendWidth r = outerWidth legend)%Z).
Proof.
  intros r row. subst row r. unfold handleWindowResizeWidth.
  cbn [firstRowContainerWidth lineChartWidth legendWidth titleWidth].
  repeat match goal with
         | |- context [(?a <? ?b)%Z] => destruct (Z.ltb_spec a b)
         end; lia.
Qed.

Lemma handleWindowResizeWidth_first_row_witness :
  let title := {| ElementMinWidth := 80; ElementNonContentWidth := 0;
                  getBorderWidth := 0; outerWidth := 120 |} in
  let r := handleWindowResizeWidth 843 Examples.longdesGroup
             Examples.longdesGroup title title Examples.shortdes1Group
             Examples.longdesGroup in
  (lineChartWidth r + legendWidth r + titleWidth r
   = firstRowContainerWidth r)%Z.
Proof.
  intros title.
  apply (proj1 (proj2 (proj2 (handleWindowResizeWidth_first_row 843
                                Examples.longdesGroup Examples.longdesGroup
                                title title Examples.shortdes1Group
                                Examples.longdesGroup)))).
  vm_compute. reflexivity.
Defined.

(** The second row after a resize of the window: the two description
    groups share the row in the proportion of their present widths, each
    getting its width times the row over the sum of the two, rounded down;
    the two shares together fill the row or miss it by one pixel. *)
Theorem handleWindowResizeWidth_second_row (windowWidth : Z)
    (body lineChart titleParent legend shortdes1Group longdesGroup
       : ElementWithFixedProperties) :
  (0 <= outerWidth shortdes1Group)%Z ->
  (0 <= outerWidth longdesGroup)%Z ->
  (0 < outerWidth shortdes1Group + outerWidth longdesGroup)%Z ->
  let r := handleWindowResizeWidth windowWidth body lineChart titleParent
             legend shortdes1Group longdesGroup in
  let origin := (outerWidth shortdes1Group + outerWidth longdesGroup)%Z in
  exists s g,
    shortdes1Width r = Some s
    /\ longdesWidth r = Some g
    /\ s = (outerWidth shortdes1Group * secondRowContainerWidth r / origin)%Z
    /\ g = (outerWidth longdesGroup * secondRowContainerWidth r / origin)%Z
    /\ (secondRowContainerWidth r - 1 <= s + g <= secondRowContainerWidth r)%Z
    /\ (0 <= secondRowContainerWidth r -> 0 <= s /\ 0 <= g)%Z.
Proof.
  intros Hs Hg Ho r origin. subst r origin. unfold handleWindowResizeWidth.
  cbn [shortdes1Width longdesWidth secondRowContainerWidth].
  set (c := ((if (ElementMinWidth body <? windowWidth)%Z
              then (windowWidth - deviationWidth)%Z
              else ElementMinWidth body) - ElementNonContentWidth body)%Z).
  set (a := outerWidth shortdes1Group) in *.
  set (b := outerWidth longdesGroup) in *.
  destruct (Z.eqb_spec (a + b) 0) as [Hz|_]; [lia|].
  eexists _, _. split; [reflexivity|]. split; [reflexivity|].
  split; [reflexivity|]. split; [reflexivity|].
  pose proof (Z.div_mod (a * c) (a + b)) as Ha.
  pose proof (Z.mod_pos_bound (a * c) (a + b) Ho) as Hra.
  pose proof (Z.div_mod (b * c) (a + b)) as Hb.
  pose proof (Z.mod_pos_bound (b * c) (a + b) Ho) as Hrb.
  specialize (Ha ltac:(lia)). specialize (Hb ltac:(lia)).
  split; [nia|].
  intros Hc. split; apply Z.div_pos; nia.
Qed.

Lemma handleWindowResizeWidth_second_row_witness :
  exists s g,
    shortdes1Width (handleWindowResizeWidth 843 Examples.longdesGroup
                      Examples.longdesGroup Examples.shortdes1Group
                      Examples.shortdes1Group Examples.shortdes1Group
                      Examples.longdesGroup) = Some s
    /\ longdesWidth (handleWindowResizeWidth 843 Examples.longdesGroup
                       Examples.longdesGroup Examples.shortdes1Group
                       Examples.shortdes1Group Examples.shortdes1Group
                       Examples.longdesGroup) = Some g
    /\ s = (100 * 840 / 250)%Z
    /\ g = (150 * 840 / 250)%Z
    /\ (839 <= s + g <= 840)%Z.
Proof.
  destruct (handleWindowResizeWidth_second_row 843 Examples.longdesGroup
              Examples.longdesGroup Examples.shortdes1Group
              Examples.shortdes1Group Examples.shortdes1Group
              Examples.longdesGroup)
    as (s & g & Hs & Hg & Hs' & Hg' & Hsum & _);
    [vm_compute; discriminate | vm_compute; discriminate | reflexivity |].
  exists s, g. split; [exact Hs|]. split; [exact Hg|].
  split; [exact Hs'|]. split; [exact Hg'|]. exact Hsum.
Defined.

End WindowLayoutFacts.

(** ** The resets of [onDataChanged] and the titles of [initData] *)

Section ReconcileFacts.
Import Js TrendsConfig DataConvertor Configuration Spec LineChartPlotter Stored.

Variable defaultLegendName : nat -> string.

Lemma onlyWrites_refl (ks : list string) (w : World) : onlyWrites ks w w.
Proof. by intros key _. Qed.

Lemma onlyWrites_trans (ks1 ks2 : list string) (w1 w2 w3 : World) :
  onlyWrites ks1 w1 w2 -> onlyWrites ks2 w2 w3 ->
  onlyWrites (ks1 ++ ks2) w1 w3.
Proof.
  intros H12 H23 key Hkey. rewrite not_elem_of_app in Hkey.
  destruct Hkey. rewrite H23, H12; done.
Qed.

Lemma onlyWrites_weaken (ks ks' : list string) (w w' : World) :
  ks ⊆ ks' -> onlyWrites ks w w' -> onlyWrites ks' w w'.
Proof. intros Hsub H key Hkey. apply H. intros Hin. apply Hkey. auto. Qed.

(** A [set] that returns, as a step of the plotter. *)
Lemma set_writes (k : string) (v : value) (w : World) :
  settingKey k ->
  isArrayIndex k = false ->
  notNull v = true ->
  k <> "" ->
  (k = Trends.lineOrder \/ k = Trends.lineDisplay -> exists a, v = Arr a) ->
  exists w', set k v true w = (Ok tt, w')
             /\ keepsArrays w w'
             /\ onlyWrites [k] w w'
             /\ get k w' = v.
Proof.
  intros Hkey Hi Hv Hk Harr.
  destruct (set_keeps k v w Hkey Hi Hv Hk Harr) as (w' & Hrun & Hkeeps & Hget).
  destruct (set_get k v w Hkey Hi Hv Hk) as (w'' & Hrun' & _ & Hother).
  rewrite Hrun in Hrun'. injection Hrun' as <-.
  exists w'. split; [exact Hrun|]. split; [exact Hkeeps|].
  split; [|exact Hget].
  intros key Hk'. rewrite not_elem_of_cons in Hk'. destruct Hk' as [Hne _].
  rewrite Hother. by destruct (decide (key = k)).
Qed.

Lemma resetClickedPointIdArrays_writes (w : World) :
  exists w', Trends.resetClickedPointIdArrays w = (Ok tt, w')
             /\ keepsArrays w w'
             /\ onlyWrites [Trends.clickedPointIdArray] w w'
             /\ get Trends.clickedPointIdArray w' = Arr [].
Proof.
  unfold Trends.resetClickedPointIdArrays.
  apply set_writes;
    [trendsKey | trendsKey | reflexivity | discriminate
    | intros [?|?]; discriminate].
Qed.

Lemma resetLineOrder_writes (w : World) :
  exists w', Trends.resetLineOrder w = (Ok tt, w')
             /\ keepsArrays w w'
             /\ onlyWrites [Trends.lineOrder] w w'
             /\ get Trends.lineOrder w'
                = Arr ((fun i => Num (ofZ (Z.of_nat i)))
                         <$> seq 0 MaxLineNumber).
Proof.
  unfold Trends.resetLineOrder.
  rewrite (fold_assign_eq (fun i => Num (ofZ (Z.of_nat i)))).
  apply set_writes;
    [trendsKey | trendsKey | reflexivity | discriminate | by eexists].
Qed.

Lemma resetLineDisplay_writes (w : World) :
  exists w', Trends.resetLineDisplay w = (Ok tt, w')
             /\ keepsArrays w w'
             /\ onlyWrites [Trends.lineDisplay] w w'
             /\ get Trends.lineDisplay w'
                = Arr ((fun _ => Bool true) <$> seq 0 MaxLineNumber).
Proof.
  unfold Trends.resetLineDisplay.
  rewrite (fold_assign_eq (fun _ => Bool true)).
  apply set_writes;
    [trendsKey | trendsKey | reflexivity | discriminate | by eexists].
Qed.

Lemma resetLineTitleArray_writes (w : World) :
  exists w', Trends.resetLineTitleArray defaultLegendName w = (Ok tt, w')
             /\ keepsArrays w w'
             /\ onlyWrites [Trends.lineTitleArray; Trends.isLegendEdited] w w'
             /\ get Trends.lineTitleArray w'
                = Arr ((fun i => Str (defaultLegendName (i + 1)))
                         <$> seq 0 MaxLineNumber)
             /\ get Trends.isLegendEdited w' = Prim (Bool false).
Proof.
  unfold Trends.resetLineTitleArray.
  rewrite (fold_assign_eq (fun i => Str (defaultLegendName (i + 1)))).
  match goal with |- context [set _ ?v true >> _] =>
    destruct (set_writes Trends.lineTitleArray v w)
      as (w1 & Hrun1 & Hk1 & Hw1 & Hget1);
      [trendsKey | trendsKey | reflexivity | discriminate
      | intros [?|?]; discriminate |]
  end.
  rewrite (bindM_ok _ _ _ _ _ Hrun1).
  destruct (set_writes Trends.isLegendEdited (Prim (Bool false)) w1)
    as (w2 & Hrun2 & Hk2 & Hw2 & Hget2);
    [trendsKey | trendsKey | reflexivity | discriminate
      | intros [?|?]; discriminate |].
  exists w2. split; [exact Hrun2|].
  split; [by eapply keepsArrays_trans|].
  split; [apply (onlyWrites_trans [_] [_] _ _ _ Hw1 Hw2)|].
  split; [|exact Hget2].
  rewrite Hw2; [exact Hget1|].
  rewrite not_elem_of_cons. split; [discriminate | apply not_elem_of_nil].
Qed.

(** What [onDataChanged] does to the configuration, by cases: nothing when
    the new data have the numbers of columns and of lines of the data held;
    the pins alone are cleared when only the number of columns differs;
    and when the number of lines differs the pins are cleared and the
    order, the visibility and the titles of the lines are put back to their
    defaults for [MaxLineNumber] lines (the order 0, 1, 2, ..., every line
    visible, the default titles, the legend not edited), every other
    setting being kept. *)
Theorem onDataChanged_effect (p : Plotter) (old new : BindingData)
    (yo yn : list LineDataConverted) (w : World) :
  bindingData p = Some old ->
  yData old = Some yo ->
  yData new = Some yn ->
  exists w',
    onDataChanged defaultLegendName p (Some new) w = (Ok tt, w')
    /\ (length yn = length yo ->
        length (xData new) = length (xData old) -> w' = w)
    /\ (length yn = length yo ->
        length (xData new) <> length (xData old) ->
        get Trends.clickedPointIdArray w' = Arr []
        /\ onlyWrites [Trends.clickedPointIdArray] w w')
    /\ (length yn <> length yo ->
        get Trends.clickedPointIdArray w' = Arr []
        /\ get Trends.lineOrder w'
           = Arr ((fun i => Num (ofZ (Z.of_nat i))) <$> seq 0 MaxLineNumber)
        /\ get Trends.lineDisplay w'
           = Arr ((fun _ => Bool true) <$> seq 0 MaxLineNumber)
        /\ get Trends.lineTitleArray w'
           = Arr ((fun i => Str (defaultLegendName (i + 1)))
                    <$> seq 0 MaxLineNumber)
        /\ get Trends.isLegendEdited w' = Prim (Bool false)
        /\ onlyWrites [Trends.clickedPointIdArray; Trends.lineOrder;
                       Trends.lineDisplay; Trends.lineTitleArray;
                       Trends.isLegendEdited] w w').
Proof.
  intros Hp Hyo Hyn. unfold onDataChanged. rewrite Hp, Hyn, Hyo.
  destruct (decide (length (xData new) = length (xData old))) as [Hx|Hx];
    destruct (decide (length yn = length yo)) as [Hy|Hy].
  - rewrite (bool_decide_eq_false_2 (length (xData new) ≠ _)) by tauto.
    rewrite (bool_decide_eq_false_2 (length yn ≠ _)) by tauto.
    exists w. by repeat split.
  - rewrite (bool_decide_eq_false_2 (length (xData new) ≠ _)) by tauto.
    rewrite (bool_decide_eq_true_2 _ Hy).
    change (bindM (ret tt) ?f w) with (f tt w). cbn beta.
    destruct (resetClickedPointIdArrays_writes w) as (w1 & Hr1 & _ & Hw1 & Hg1).
    rewrite (bindM_ok _ _ _ _ _ Hr1).
    destruct (resetLineOrder_writes w1) as (w2 & Hr2 & _ & Hw2 & Hg2).
    rewrite (bindM_ok _ _ _ _ _ Hr2).
    destruct (resetLineDisplay_writes w2) as (w3 & Hr3 & _ & Hw3 & Hg3).
    rewrite (bindM_ok _ _ _ _ _ Hr3).
    destruct (resetLineTitleArray_writes w3) as (w4 & Hr4 & _ & Hw4 & Hg4 & Hg5).
    exists w4. split; [exact Hr4|]. split; [done|]. split; [done|].
    intros _.
    assert (Hne : forall a b c : string, a <> b -> a <> c -> a ∉ [b; c]).
    { intros a b c Hab Hac. rewrite !not_elem_of_cons.
      repeat split; [done | done | apply not_elem_of_nil]. }
    assert (Hne1 : forall a b : string, a <> b -> a ∉ [b]).
    { intros a b Hab. rewrite !not_elem_of_cons.
      split; [done | apply not_elem_of_nil]. }
    split; [rewrite Hw4, Hw3, Hw2 by (apply Hne || apply Hne1; discriminate);
            exact Hg1|].
    split; [rewrite Hw4, Hw3 by (apply Hne || apply Hne1; discriminate);
            exact Hg2|].
    split; [rewrite Hw4 by (apply Hne; discriminate); exact Hg3|].
    split; [exact Hg4|]. split; [exact Hg5|].
    apply (onlyWrites_trans [_] [_; _; _; _] _ _ _ Hw1).
    apply (onlyWrites_trans [_] [_; _; _] _ _ _ Hw2).
    apply (onlyWrites_trans [_] [_; _] _ _ _ Hw3). exact Hw4.
  - rewrite (bool_decide_eq_true_2 _ Hx).
    rewrite (bool_decide_eq_false_2 (length yn ≠ _)) by tauto.
    destruct (resetClickedPointIdArrays_writes w) as (w1 & Hr1 & _ & Hw1 & Hg1).
    rewrite (bindM_ok _ _ _ _ _ Hr1).
    exists w1. split; [reflexivity|]. split; [done|]. split; [done|]. done.
  - rewrite (bool_decide_eq_true_2 _ Hx), (bool_decide_eq_true_2 _ Hy).
    destruct (resetClickedPointIdArrays_writes w) as (w0 & Hr0 & _ & Hw0 & _).
    rewrite (bindM_ok _ _ _ _ _ Hr0).
    destruct (resetClickedPointIdArrays_writes w0) as (w1 & Hr1 & _ & Hw1 & Hg1).
    rewrite (bindM_ok _ _ _ _ _ Hr1).
    destruct (resetLineOrder_writes w1) as (w2 & Hr2 & _ & Hw2 & Hg2).
    rewrite (bindM_ok _ _ _ _ _ Hr2).
    destruct (resetLineDisplay_writes w2) as (w3 & Hr3 & _ & Hw3 & Hg3).
    rewrite (bindM_ok _ _ _ _ _ Hr3).
    destruct (resetLineTitleArray_writes w3) as (w4 & Hr4 & _ & Hw4 & Hg4 & Hg5).
    exists w4. split; [exact Hr4|]. split; [done|]. split; [done|].
    intros _.
    assert (Hne : forall a b c : string, a <> b -> a <> c -> a ∉ [b; c]).
    { intros a b c Hab Hac. rewrite !not_elem_of_cons.
      repeat split; [done | done | apply not_elem_of_nil]. }
    assert (Hne1 : forall a b : string, a <> b -> a ∉ [b]).
    { intros a b Hab. rewrite !not_elem_of_cons.
      split; [done | apply not_elem_of_nil]. }
    split; [rewrite Hw4, Hw3, Hw2 by (apply Hne || apply Hne1; discriminate);
            exact Hg1|].
    split; [rewrite Hw4, Hw3 by (apply Hne || apply Hne1; discriminate);
            exact Hg2|].
    split; [rewrite Hw4 by (apply Hne; discriminate); exact Hg3|].
    split; [exact Hg4|]. split; [exact Hg5|].
    assert (H04 : onlyWrites [Trends.clickedPointIdArray; Trends.lineOrder;
                              Trends.lineDisplay; Trends.lineTitleArray;
                              Trends.isLegendEdited] w0 w4).
    { apply (onlyWrites_trans [_] [_; _; _; _] _ _ _ Hw1).
      apply (onlyWrites_trans [_] [_; _; _] _ _ _ Hw2).
      apply (onlyWrites_trans [_] [_; _] _ _ _ Hw3). exact Hw4. }
    intros key Hkey. rewrite (H04 key Hkey). apply Hw0.
    rewrite !not_elem_of_cons in Hkey.
    rewrite not_elem_of_cons. split; [tauto | apply not_elem_of_nil].
Qed.

Lemma resetUnlessSaved_step (key : string) (reset : M unit)
    (ks : list string) (Q : World -> Prop) (w : World) :
  (forall w0, exists w', reset w0 = (Ok tt, w') /\ keepsArrays w0 w'
                         /\ onlyWrites ks w0 w' /\ Q w') ->
  (truthy (get key w) = true -> Q w) ->
  exists w', resetUnlessSaved key reset w = (Ok tt, w')
             /\ keepsArrays w w'
             /\ onlyWrites ks w w'
             /\ Q w'
             /\ (truthy (get key w) = true -> w' = w).
Proof.
  intros Hreset HQ. unfold resetUnlessSaved.
  destruct (truthy (get key w)) eqn:Ht.
  - exists w. split; [reflexivity|]. split; [apply keepsArrays_refl|].
    split; [apply onlyWrites_refl|]. split; [by apply HQ | done].
  - destruct (Hreset w) as (w' & Hrun & Hk & Hw & Hq).
    exists w'. by repeat (split; [done|]).
Qed.

Lemma arrayOrFalsy_truthy (key : string) (w : World) :
  arrayOrFalsy key w -> truthy (get key w) = true -> isArray key w.
Proof.
  unfold arrayOrFalsy, isArray. intros Hshape Ht.
  destruct (get key w) as [q|a]; [congruence | by exists a].
Qed.

Lemma readLegendEdited_writes (w : World) :
  exists v w',
    readLegendEdited w = (Ok v, w')
    /\ keepsArrays w w'
    /\ onlyWrites [Trends.isLegendEdited] w w'
    /\ truthy v = truthy (get Trends.isLegendEdited w)
    /\ (truthy (get Trends.isLegendEdited w) = true -> w' = w).
Proof.
  unfold readLegendEdited.
  destruct (notNull (get Trends.isLegendEdited w)) eqn:Hn.
  - eexists _, w. split; [reflexivity|]. split; [apply keepsArrays_refl|].
    split; [apply onlyWrites_refl | done].
  - destruct (set_writes Trends.isLegendEdited (Prim (Bool false)) w)
      as (w1 & Hrun1 & Hk1 & Hw1 & _);
      [trendsKey | trendsKey | reflexivity | discriminate
      | intros [?|?]; discriminate |].
    rewrite (bindM_ok _ _ _ _ _ Hrun1). eexists _, w1.
    split; [reflexivity|]. split; [exact Hk1|]. split; [exact Hw1|].
    assert (Hf : truthy (get Trends.isLegendEdited w) = false).
    { destruct (get Trends.isLegendEdited w) as [[| | | |]|]; done. }
    rewrite Hf. by split.
Qed.

(** [initData] and the titles of the lines.  It returns when the
    configuration holds arrays (or nothing) for the order and the
    visibility of the lines, on data as the conversion delivers them.  The
    header of the data becomes the titles unless the legend was edited;
    titles of a legend that was edited are kept as they are stored; and
    where there is neither, the default titles are stored and the legend
    counts as not edited. *)
Theorem initData_titles (p : Plotter) (d : BindingData)
    (y : list LineDataConverted) (w : World) :
  yData d = Some y ->
  Forall seriesInvariant y ->
  arrayOrFalsy Trends.lineOrder w ->
  arrayOrFalsy Trends.lineDisplay w ->
  exists p' w',
    initData defaultLegendName p d w = (Ok p', w')
    /\ (truthy (get Trends.isLegendEdited w) = false ->
        header d <> [] ->
        get Trends.lineTitleArray w' = Arr (header d))
    /\ (truthy (get Trends.isLegendEdited w) = true ->
        truthy (get Trends.lineTitleArray w) = true ->
        get Trends.lineTitleArray w' = get Trends.lineTitleArray w
        /\ get Trends.isLegendEdited w' = get Trends.isLegendEdited w)
    /\ (truthy (get Trends.lineTitleArray w) = false ->
        truthy (get Trends.isLegendEdited w) = true \/ header d = [] ->
        get Trends.lineTitleArray w'
        = Arr ((fun i => Str (defaultLegendName (i + 1)))
                 <$> seq 0 MaxLineNumber)
        /\ get Trends.isLegendEdited w' = Prim (Bool false)).
Proof.
  intros Hy Hinv Ho Hd. unfold initData. rewrite Hy.
  assert (Hne1 : forall a b : string, a <> b -> a ∉ [b]).
  { intros a b Hab. rewrite !not_elem_of_cons.
    split; [done | apply not_elem_of_nil]. }
  destruct (readLegendEdited_writes w)
    as (edited & w2 & Hrun2 & Hk2 & Hw2 & Hed & Hsame2).
  rewrite (bindM_ok _ _ _ _ _ Hrun2).
  remember (negb (truthy edited) && (0 <? length (header d))) as cond
    eqn:Hcond.
  assert (Htitle : exists w3,
             (if cond then set Trends.lineTitleArray (Arr (header d)) true
              else ret tt) w2 = (Ok tt, w3)
             /\ keepsArrays w2 w3
             /\ onlyWrites [Trends.lineTitleArray] w2 w3
             /\ (cond = true -> get Trends.lineTitleArray w3 = Arr (header d))
             /\ (cond = false -> w3 = w2)).
  { destruct cond.
    - destruct (set_writes Trends.lineTitleArray (Arr (header d)) w2)
        as (w3 & Hrun3 & Hk3 & Hw3 & Hg3);
        [trendsKey | trendsKey | reflexivity | discriminate
      | intros [?|?]; discriminate |].
      exists w3. by repeat (split; [done|]).
    - exists w2. split; [reflexivity|]. split; [apply keepsArrays_refl|].
      split; [apply onlyWrites_refl | done]. }
  destruct Htitle as (w3 & Hrun3 & Hk3 & Hw3 & Hset3 & Hsame3).
  rewrite (bindM_ok _ _ _ _ _ Hrun3).
  destruct (resetUnlessSaved_step Trends.clickedPointIdArray
              Trends.resetClickedPointIdArrays [Trends.clickedPointIdArray]
              (fun _ => True) w3) as (w4 & Hrun4 & Hk4 & Hw4 & _ & _).
  { intros w0. destruct (resetClickedPointIdArrays_writes w0)
      as (w' & ? & ? & ? & _). by exists w'. }
  { done. }
  rewrite (bindM_ok _ _ _ _ _ Hrun4).
  assert (Hk14 : keepsArrays w w4)
    by (repeat (eapply keepsArrays_trans; [eassumption|]);
        apply keepsArrays_refl).
  destruct (resetUnlessSaved_step Trends.lineOrder Trends.resetLineOrder
              [Trends.lineOrder] (isArray Trends.lineOrder) w4)
    as (w5 & Hrun5 & Hk5 & Hw5 & Ha5 & _).
  { intros w0. destruct (resetLineOrder_writes w0)
      as (w' & ? & ? & ? & Hg). exists w'. repeat (split; [done|]).
    by eexists. }
  { apply arrayOrFalsy_truthy. by apply (Hk14 Trends.lineOrder); [left|]. }
  rewrite (bindM_ok _ _ _ _ _ Hrun5).
  destruct (resetUnlessSaved_step Trends.lineDisplay Trends.resetLineDisplay
              [Trends.lineDisplay] (isArray Trends.lineDisplay) w5)
    as (w6 & Hrun6 & Hk6 & Hw6 & Ha6 & _).
  { intros w0. destruct (resetLineDisplay_writes w0)
      as (w' & ? & ? & ? & Hg). exists w'. repeat (split; [done|]).
    by eexists. }
  { apply arrayOrFalsy_truthy. apply (Hk5 Trends.lineDisplay); [by right|].
    by apply (Hk14 Trends.lineDisplay); [right|]. }
  rewrite (bindM_ok _ _ _ _ _ Hrun6).
  destruct (resetUnlessSaved_step Trends.lineTitleArray
              (Trends.resetLineTitleArray defaultLegendName)
              [Trends.lineTitleArray; Trends.isLegendEdited]
              (fun w' =>
                 truthy (get Trends.lineTitleArray w6) = false ->
                 get Trends.lineTitleArray w'
                 = Arr ((fun i => Str (defaultLegendName (i + 1)))
                          <$> seq 0 MaxLineNumber)
                 /\ get Trends.isLegendEdited w' = Prim (Bool false)) w6)
    as (w7 & Hrun7 & Hk7 & Hw7 & Hreset7 & Hsame7).
  { intros w0. destruct (resetLineTitleArray_writes w0)
      as (w' & ? & ? & ? & ? & ?). exists w'. by repeat (split; [done|]). }
  { congruence. }
  rewrite (bindM_ok _ _ _ _ _ Hrun7).
  assert (Hao : isArray Trends.lineOrder w7).
  { apply (Hk7 Trends.lineOrder); [by left|].
    by apply (Hk6 Trends.lineOrder); [left|]. }
  assert (Had : isArray Trends.lineDisplay w7)
    by (by apply (Hk7 Trends.lineDisplay); [right|]).
  destruct (resizeStored_spec Trends.lineOrder (length y) w7
              ltac:(split; discriminate) Hao)
    as (w8 & Hrun8 & _ & Hother8).
  rewrite (bindM_ok _ _ _ _ _ Hrun8).
  assert (Had8 : isArray Trends.lineDisplay w8).
  { destruct Had as [a Ha]. exists a. by rewrite Hother8. }
  destruct (resizeStored_spec Trends.lineDisplay (length y) w8
              ltac:(split; discriminate) Had8)
    as (w9 & Hrun9 & _ & Hother9).
  rewrite (bindM_ok _ _ _ _ _ Hrun9).
  match goal with |- context [setMaxAndMin ?q] =>
    destruct (setMaxAndMin_Ok q d y eq_refl Hy Hinv) as (mx & mn & Hmm)
  end.
  unfold liftResult. rewrite Hmm.
  eexists _, w9. split; [reflexivity|].
  (* what the steps from [w3] to [w6] and from [w7] on leave alone *)
  assert (H36 : forall key,
             key = Trends.lineTitleArray \/ key = Trends.isLegendEdited ->
             get key w6 = get key w3).
  { intros key Hkey.
    rewrite (Hw6 key), (Hw5 key), (Hw4 key);
      [reflexivity | | |]; apply Hne1; destruct Hkey as [->| ->]; discriminate. }
  assert (H79 : forall key,
             key = Trends.lineTitleArray \/ key = Trends.isLegendEdited ->
             get key w9 = get key w7).
  { intros key Hkey.
    rewrite Hother9, Hother8;
      [reflexivity | |]; destruct Hkey as [->| ->]; discriminate. }
  split; [|split].
  - intros Hfalse Hhdr.
    assert (Hc : cond = true).
    { rewrite Hcond, Hed, Hfalse. by destruct (header d). }
    assert (H6 : get Trends.lineTitleArray w6 = Arr (header d))
      by (rewrite H36 by (by left); by apply Hset3).
    rewrite H79 by (by left).
    rewrite Hsame7; [exact H6 | by rewrite H6].
  - intros Htrue Htitles.
    assert (Hc : cond = false) by (by rewrite Hcond, Hed, Htrue).
    specialize (Hsame3 Hc). specialize (Hsame2 Htrue). subst w3 w2.
    assert (H6 : truthy (get Trends.lineTitleArray w6) = true)
      by (rewrite H36 by (by left); exact Htitles).
    specialize (Hsame7 H6). subst w7.
    rewrite !H79, !H36 by (first [by left | by right]). by split.
  - intros Htitles Hwhy.
    assert (Hc : cond = false).
    { rewrite Hcond, Hed. destruct Hwhy as [-> | ->]; [done|].
      apply andb_false_r. }
    specialize (Hsame3 Hc). subst w3.
    assert (H2 : get Trends.lineTitleArray w2 = get Trends.lineTitleArray w).
    { apply Hw2, Hne1. discriminate. }
    assert (H6 : truthy (get Trends.lineTitleArray w6) = false)
      by (rewrite H36, H2 by (by left); exact Htitles).
    destruct (Hreset7 H6) as [Ht Hl].
    rewrite !H79 by (first [by left | by right]). by split.
Qed.

End ReconcileFacts.

Section ReconcileExamples.
Import Js TrendsConfig DataConvertor Configuration Spec LineChartPlotter Stored.
Import Examples.

Lemma onDataChanged_effect_witness :
  exists w',
    onDataChanged legendName sheetPlotter (Some threeLines) freshApp
    = (Ok tt, w')
    /\ get Trends.lineOrder w'
       = Arr [Num (ofZ 0); Num (ofZ 1); Num (ofZ 2); Num (ofZ 3); Num (ofZ 4)].
Proof.
  destruct (onDataChanged_effect legendName sheetPlotter sheetBinding
              threeLines [seriesA; seriesB] [seriesA; seriesB; seriesA]
              freshApp eq_refl eq_refl eq_refl)
    as (w' & Hrun & _ & _ & Hreset).
  exists w'. split; [exact Hrun|].
  destruct Hreset as (_ & Ho & _); [simpl; lia|]. exact Ho.
Defined.

End ReconcileExamples.

Section InitDataExamples.
Import Js TrendsConfig DataConvertor Configuration Spec LineChartPlotter Stored.
Import Examples.

Lemma initData_titles_witness :
  exists p' w',
    initData legendName sheetPlotter sheetBinding freshApp = (Ok p', w')
    /\ get Trends.lineTitleArray w' = Arr [Str "A"; Str "B"].
Proof.
  destruct (initData_titles legendName sheetPlotter sheetBinding
              [seriesA; seriesB] freshApp eq_refl)
    as (p' & w' & Hrun & Hhdr & _).
  - destruct (convert_Ok_inv decimalNumeral sheetData sheetBinding eq_refl)
      as [H|(y & Hy & _ & _ & Hall)]; [discriminate|].
    injection Hy as <-. exact Hall.
  - reflexivity.
  - reflexivity.
  - exists p', w'. split; [exact Hrun|].
    apply Hhdr; [reflexivity | discriminate].
Defined.

End InitDataExamples.

(** ** LineChartPlotter.drawCircleGroup *)

Section PinFacts.
Import Js DataConvertor Spec LineIds Pins.

Lemma asIndex_ofZ (n : nat) : asIndex (ofZ (Z.of_nat n)) = Some n.
Proof.
  unfold asIndex, ofZ, inject_Z. cbn [Qden Qnum].
  rewrite Z.mod_1_r, Z.div_1_r.
  rewrite (proj2 (Z.leb_le 0 (Z.of_nat n))) by lia.
  cbn. by rewrite Nat2Z.id.
Qed.

Lemma eqb_ofZ_nat (a b : nat) :
  eqb (ofZ (Z.of_nat a)) (ofZ (Z.of_nat b)) = bool_decide (a = b).
Proof.
  rewrite eqb_ofZ. destruct (Z.eqb_spec (Z.of_nat a) (Z.of_nat b)).
  - symmetry. apply bool_decide_eq_true. lia.
  - symmetry. apply bool_decide_eq_false. lia.
Qed.

(** In a line whose points stand at increasing columns, the search for the
    column of a point of the line finds that point. *)
Lemma findColumn_finds (data : list PointDataOnLine) (pt : PointDataOnLine) :
  StronglySorted lt (originalIndex <$> data) ->
  pt ∈ data ->
  findColumn data (ofZ (Z.of_nat (originalIndex pt))) = Some pt.
Proof.
  induction data as [|x data IH]; intros Hs Hin.
  - by apply elem_of_nil in Hin.
  - cbn [fmap list_fmap] in Hs. apply StronglySorted_inv in Hs as [Hs Hx].
    cbn [findColumn]. rewrite eqb_ofZ_nat.
    apply elem_of_cons in Hin as [->|Hin].
    + by rewrite bool_decide_eq_true_2.
    + rewrite bool_decide_eq_false_2; [by apply IH|].
      rewrite Forall_forall in Hx.
      specialize (Hx (originalIndex pt)).
      assert (originalIndex x < originalIndex pt); [|lia].
      apply Hx. apply list_elem_of_fmap. by exists pt.
Qed.

(** A pin finds its point: from the id that [drawLine] gives to the point
    of a line, [drawCircleGroup] gets back to the line and, in a line as
    the conversion delivers it, to that very point, whose values it shows.
    When the formatted value of the point is [null] it returns before it
    draws; when it is [undefined], as the conversion leaves it for a cell
    past the end of a short row, it throws a [TypeError]. *)
Theorem pin_finds_its_point (y : list LineDataConverted) (l : nat)
    (s : LineDataConverted) (pt : PointDataOnLine) :
  (Z.of_nat l < 10 ^ 21)%Z ->
  (Z.of_nat (originalIndex pt) < 10 ^ 21)%Z ->
  y !! l = Some s ->
  seriesInvariant s ->
  pt ∈ data s ->
  pinnedPoint y (pointId l (originalIndex pt))
  = match pformatted pt with
    | Null => Ok None
    | Undefined => Throw TypeError
    | _ => Ok (Some pt)
    end.
Proof.
  intros _ _ Hl (_ & _ & Hsorted) Hpt. unfold pinnedPoint.
  destruct (ids_read_back l (originalIndex pt)) as (-> & -> & _).
  rewrite asIndex_ofZ. cbn [mbind option_bind]. rewrite Hl.
  by rewrite (findColumn_finds _ _ Hsorted Hpt).
Qed.

Lemma pin_finds_its_point_witness :
  pinnedPoint [Examples.seriesA; Examples.seriesB] (pointId 1 1)
  = Ok (Some (Examples.point 1 "40" 40)).
Proof.
  apply (pin_finds_its_point [Examples.seriesA; Examples.seriesB] 1
           Examples.seriesB (Examples.point 1 "40" 40));
    [reflexivity | reflexivity | reflexivity | | right; by left].
  destruct (convert_Ok_inv decimalNumeral Examples.sheetData
              Examples.sheetBinding eq_refl) as [H|(y & Hy & _ & _ & Hall)];
    [discriminate|].
  injection Hy as <-.
  apply Forall_cons in Hall as [_ Hall].
  by apply Forall_cons in Hall as [HB _].
Defined.

(** The pin of a point whose formatted value is [undefined]. *)
Example pin_of_undefined_throws :
  pinnedPoint
    [{| validDataCount := 1;
        data := [{| originalIndex := 0; pformatted := Undefined;
                    punformatted := ofZ 3 |}] |}]
    (pointId 0 0)
  = Throw TypeError.
Proof. vm_compute. reflexivity. Qed.

End PinFacts.

(** ** Utils.formatNumberWithThousandSeparators *)

Section NumberFormatFacts.
Import Js JsText NumberFormat.

Lemma substring_all (s : string) : String.substring 0 (String.length s) s = s.
Proof.
  rewrite <- (append_nil_r s) at 2. apply substring_head.
Qed.

Lemma substring_tail (a b : string) :
  String.substring (String.length a) (String.length b) (a +:+ b) = b.
Proof.
  rewrite <- (append_nil_r b) at 2. apply substring_middle.
Qed.

(** A string is its first [k] characters followed by the others. *)
Lemma string_split (s : string) (k : nat) :
  k <= String.length s ->
  exists a b, s = a +:+ b /\ String.length a = k
              /\ String.length b = String.length s - k.
Proof.
  revert k. induction s as [|x s IH]; intros k Hk.
  - exists "", "". cbn in *. repeat split; lia.
  - destruct k as [|k].
    + exists "", (String x s). repeat split.
    + cbn [String.length] in Hk.
      destruct (IH k) as (a & b & -> & Ha & Hb); [lia|].
      exists (String x a), b. rewrite append_cons. cbn [String.length].
      repeat split; [lia | exact Hb].
Qed.

(** What [readDigits] reads: the digits at the head of the string. *)
Lemma readDigits_split (s : string) (a : Z) (c : nat) :
  exists ds rest v,
    readDigits s a c = (v, c + String.length ds, rest)
    /\ s = ds +:+ rest
    /\ allDigits ds = true
    /\ match rest with
       | String x _ => digitOf x = None
       | EmptyString => True
       end.
Proof.
  revert a c. induction s as [|x s IH]; intros a c.
  - exists "", "", a. cbn. repeat split. f_equal. f_equal. lia.
  - cbn [readDigits]. destruct (digitOf x) as [k|] eqn:Hx.
    + destruct (IH (10 * a + k)%Z (S c)) as (ds & rest & v & Hr & -> & Hd & Hrest).
      exists (String x ds), rest, v. rewrite Hr, append_cons.
      cbn [String.length allDigits]. rewrite Hx.
      repeat split; [f_equal; f_equal; lia | exact Hd | exact Hrest].
    + exists "", (String x s), a. cbn [String.length allDigits].
      repeat split; [f_equal; f_equal; lia | exact Hx].
Qed.

Lemma allDigits_app (a b : string) :
  allDigits (a +:+ b) = allDigits a && allDigits b.
Proof.
  induction a as [|x a IH]; [reflexivity|].
  rewrite append_cons. cbn [allDigits]. by destruct (digitOf x).
Qed.

(** What the pattern accepts: digits, at least one, and then nothing or a
    point and digits, at least one. *)
Lemma matchesNumber_shape (value : string) :
  matchesNumber value = true ->
  exists ip frac,
    value = ip +:+ frac
    /\ allDigits ip = true
    /\ 1 <= String.length ip
    /\ (frac = "" \/ exists fd, frac = String "." fd /\ allDigits fd = true).
Proof.
  unfold matchesNumber.
  destruct (readDigits_split value 0 0) as (ip & rest & v & -> & -> & Hip & Hrest).
  cbn [Nat.add]. intros H. apply andb_true_iff in H as [Hn H].
  apply Nat.ltb_lt in Hn.
  exists ip, rest. split; [reflexivity|]. split; [exact Hip|].
  split; [lia|].
  destruct rest as [|c frac]; [by left | right].
  apply andb_true_iff in H as [Hc H].
  apply Ascii.eqb_eq in Hc as ->.
  destruct (readDigits_split frac 0 0) as (fd & rest2 & v2 & Hr & -> & Hfd & _).
  rewrite Hr in H. apply andb_true_iff in H as [_ H].
  apply bool_decide_eq_true in H as ->.
  exists (fd +:+ ""). split; [reflexivity|]. by rewrite append_nil_r.
Qed.

Lemma append_inj_r (a b c : string) : a +:+ c = b +:+ c -> a = b.
Proof.
  revert b. induction a as [|x a IH]; intros [|y b] H.
  - reflexivity.
  - apply (f_equal String.length) in H.
    rewrite append_nil_l, append_cons in H. cbn [String.length] in H.
    rewrite length_append in H. lia.
  - apply (f_equal String.length) in H.
    rewrite append_nil_l, append_cons in H. cbn [String.length] in H.
    rewrite length_append in H. lia.
  - rewrite !append_cons in H. injection H as -> H. f_equal. by apply IH.
Qed.

Lemma indexOfFrom_empty (pat : string) (i : Z) :
  pat <> "" -> indexOfFrom pat "" i = (-1)%Z.
Proof. intros H. destruct pat; [done | reflexivity]. Qed.

Lemma commaGroups_cons (g : string) (groups : list string) (frac : string) :
  "," +:+ g +:+ commaGroups groups +:+ frac
  = commaGroups (g :: groups) +:+ frac.
Proof.
  cbn [commaGroups foldr]. fold (commaGroups groups).
  by rewrite !append_assoc.
Qed.

Lemma joined_cons (pre g : string) (groups : list string) (frac : string) :
  (pre +:+ g) +:+ joined groups +:+ frac
  = pre +:+ joined (g :: groups) +:+ frac.
Proof.
  cbn [joined foldr]. fold (joined groups). by rewrite !append_assoc.
Qed.

(** The loop, from a place [index] in the digits before the point: it
    leaves at most three digits in front, and to their right groups of
    three, a comma before each. *)
Lemma separate_spec (turns : nat) (value pre : string)
    (groups : list string) (frac : string) :
  value = pre +:+ joined groups +:+ frac ->
  Forall (fun g => String.length g = 3) groups ->
  String.length pre < turns ->
  exists head groups',
    separate turns value 0 (Z.of_nat (String.length pre))
      (commaGroups groups +:+ frac)
    = Some (Z.of_nat (String.length head), commaGroups groups' +:+ frac)
    /\ value = head +:+ joined groups' +:+ frac
    /\ Forall (fun g => String.length g = 3) groups'
    /\ String.length head <= 3
    /\ (1 <= String.length pre -> 1 <= String.length head).
Proof.
  revert pre groups. induction turns as [|turns IH];
    intros pre groups Hv Hg Hlen; [lia|].
  cbn [separate].
  destruct (Z.ltb_spec 0 (Z.of_nat (String.length pre) - 3)) as [Hbig|Hsmall].
  - destruct (string_split pre (String.length pre - 3))
      as (pre' & g & Hpre & Hpre' & Hglen); [lia|].
    assert (Hg3 : String.length g = 3) by lia.
    assert (Hsub : substr value (Z.of_nat (String.length pre) - 3) (Some 3%Z)
                   = g).
    { unfold substr.
      assert (Hsize : String.length value
                      = String.length pre' + 3
                        + String.length (joined groups +:+ frac)).
      { rewrite Hv, Hpre, !length_append. lia. }
      destruct (Z.ltb_spec (Z.of_nat (String.length pre) - 3) 0); [lia|].
      replace (Z.to_nat (Z.min _ _)) with (String.length pre') by lia.
      replace (Z.to_nat (Z.min _ _)) with (String.length g) by lia.
      rewrite Hv, Hpre, append_assoc. apply substring_middle. }
    rewrite Hsub, commaGroups_cons.
    replace (Z.of_nat (String.length pre) - 3)%Z
      with (Z.of_nat (String.length pre')) by lia.
    destruct (IH pre' (g :: groups)) as (head & groups' & Hrun & Hv' & Hg' & Hh & Hh1).
    + by rewrite Hv, Hpre, joined_cons.
    + by constructor.
    + lia.
    + exists head, groups'. split; [exact Hrun|]. split; [exact Hv'|].
      split; [exact Hg'|]. split; [exact Hh|]. intros _. apply Hh1. lia.
  - exists pre, groups. split; [reflexivity|]. split; [exact Hv|].
    split; [exact Hg|]. split; [lia | done].
Qed.

(** [formatNumberWithThousandSeparators] returns.  A string that is not a
    number without a sign comes back as it is.  Of such a number the digits
    before the point are cut, from the right, in groups of three, with a
    comma before each group and one to three digits in front; what follows
    the point is left as it is. *)
Theorem formatNumberWithThousandSeparators_groups_by_three (value : string) :
  (matchesNumber value = false ->
   formatNumberWithThousandSeparators value = Some value)
  /\ (matchesNumber value = true ->
      exists head groups frac,
        formatNumberWithThousandSeparators value
        = Some (head +:+ commaGroups groups +:+ frac)
        /\ value = head +:+ joined groups +:+ frac
        /\ 1 <= String.length head <= 3
        /\ Forall (fun g => String.length g = 3) groups
        /\ allDigits (head +:+ joined groups) = true
        /\ (frac = "" \/ exists fd, frac = String "." fd
                                    /\ allDigits fd = true)).
Proof.
  unfold formatNumberWithThousandSeparators. split; [by intros ->|].
  intros Hm. rewrite Hm.
  destruct (matchesNumber_shape value Hm) as (ip & frac & Hv & Hip & Hlen & Hfrac).
  assert (Hpoint : indexOf value "."
                   = if bool_decide (frac = "") then (-1)%Z
                     else Z.of_nat (String.length ip)).
  { unfold indexOf. rewrite Hv, indexOfFrom_digits by done.
    destruct Hfrac as [->|(fd & -> & _)].
    - by rewrite indexOfFrom_empty.
    - rewrite bool_decide_eq_false_2 by discriminate.
      rewrite indexOfFrom_here by (rewrite prefix_cons; apply prefix_nil). lia. }
  assert (Hminus : indexOf value "-" = (-1)%Z).
  { unfold indexOf. rewrite Hv, indexOfFrom_digits by done.
    destruct Hfrac as [->|(fd & -> & Hfd)].
    - by rewrite indexOfFrom_empty.
    - rewrite indexOfFrom_ne by discriminate.
      rewrite <- (append_nil_r fd), indexOfFrom_digits by done.
      by rewrite indexOfFrom_empty. }
  assert (Hdpp : (if (0 <=? indexOf value ".")%Z then indexOf value "."
                  else Z.of_nat (String.length value))
                 = Z.of_nat (String.length ip)).
  { rewrite Hpoint. case_bool_decide as Hf.
    - subst frac. rewrite Hv, append_nil_r. reflexivity.
    - destruct (Z.leb_spec 0 (Z.of_nat (String.length ip))); [done | lia]. }
  rewrite Hdpp, Hminus.
  assert (Hres : substr value (Z.of_nat (String.length ip)) None = frac).
  { unfold substr.
    assert (Hsize : String.length value
                    = String.length ip + String.length frac)
      by (by rewrite Hv, length_append).
    destruct (Z.ltb_spec (Z.of_nat (String.length ip)) 0); [lia|].
    replace (Z.to_nat (Z.min _ _)) with (String.length ip) by lia.
    replace (Z.to_nat _) with (String.length frac) by lia.
    rewrite Hv. apply substring_tail. }
  rewrite Hres. change (-1 + 1)%Z with 0%Z.
  destruct (separate_spec (S (String.length value)) value ip [] frac)
    as (head & groups & Hrun & Hv' & Hg & Hh & Hh1).
  { exact Hv. }
  { constructor. }
  { rewrite Hv, length_append. lia. }
  change (commaGroups [] +:+ frac) with frac in Hrun.
  rewrite Hrun. cbn [mbind option_bind fst snd].
  exists head, groups, frac.
  assert (Hhead : substr value 0 (Some (Z.of_nat (String.length head))) = head).
  { unfold substr.
    assert (Hsize : String.length value
                    = String.length head
                      + String.length (joined groups +:+ frac))
      by (by rewrite Hv', length_append).
    cbn [Z.ltb Z.compare].
    replace (Z.to_nat (Z.min 0 _)) with 0 by lia.
    replace (Z.to_nat _) with (String.length head) by lia.
    rewrite Hv'. apply substring_head. }
  rewrite Hhead. split; [reflexivity|]. split; [exact Hv'|].
  split; [split; [by apply Hh1 | exact Hh]|]. split; [exact Hg|].
  split; [|exact Hfrac].
  (* the digits in front of the point are those of [ip] *)
  assert (Heq : head +:+ joined groups = ip); [|by rewrite Heq].
  rewrite Hv, <- append_assoc in Hv'.
  symmetry. by apply (append_inj_r _ _ frac).
Qed.

Lemma formatNumberWithThousandSeparators_groups_by_three_witness :
  exists head groups frac,
    formatNumberWithThousandSeparators "1234567.12345"
    = Some (head +:+ commaGroups groups +:+ frac)
    /\ "1234567.12345" = head +:+ joined groups +:+ frac.
Proof.
  destruct (proj2 (formatNumberWithThousandSeparators_groups_by_three
                     "1234567.12345") eq_refl)
    as (head & groups & frac & Hrun & Hv & _).
  by exists head, groups, frac.
Defined.

(** The example of the source: 1234567.12345 becomes 1,234,567.12345. *)
Example formatNumberWithThousandSeparators_example :
  formatNumberWithThousandSeparators "1234567.12345" = Some "1,234,567.12345"
  /\ formatNumberWithThousandSeparators "999" = Some "999"
  /\ formatNumberWithThousandSeparators "-1234" = Some "-1234".
Proof. vm_compute. repeat split. Qed.

End NumberFormatFacts.

(** ** Configuration.delaySet: two keys *)

Section DelaySetKeysFacts.
Import Js Configuration Spec TimerIds.

Lemma timersFresh_create (h : Host) (ks : list string)
    (doc : option (gmap string value)) :
  timersFresh (create h ks doc).
Proof.
  split; [constructor|]. split.
  - intros k i H. cbn in H. by rewrite lookup_empty in H.
  - intros x k Hx. by apply elem_of_nil in Hx.
Qed.

Lemma timersFresh_delaySet (k : string) (v : value) (d : nat) (w : World) :
  timersFresh w -> timersFresh (delaySet k v d w).
Proof.
  intros (Hold & Hids & Hkey).
  destruct (delaySet_frame k v d w) as (_ & _ & _ & _ & _ & q & Hq & Htm).
  destruct (delaySet_ids k v d w) as [Hnx Hrec].
  rewrite Forall_forall in Hold.
  assert (Hlookup : forall k0 i,
             delaySetTimeOutIDs (delaySet k v d w) !! k0 = Some (Some i) ->
             (k0 = k /\ i = nextTimerId w)
             \/ delaySetTimeOutIDs w !! k0 = Some (Some i)).
  { intros k0 i Hi. destruct Hrec as [Heq|Heq]; rewrite Heq in Hi.
    - by right.
    - destruct (decide (k0 = k)) as [->|Hne].
      + rewrite lookup_insert_eq in Hi. injection Hi as <-. by left.
      + rewrite lookup_insert_ne in Hi by congruence. by right. }
  split; [|split]; rewrite ?Htm, ?Hnx.
  - apply Forall_app. split.
    + apply Forall_forall. intros x Hx. specialize (Hold x (Hq x Hx)). lia.
    + constructor; [cbn; lia | constructor].
  - intros k0 i Hi. destruct (Hlookup k0 i Hi) as [[_ ->]|Hi']; [lia|].
    specialize (Hids k0 i Hi'). lia.
  - intros x k0 Hx Hi. apply elem_of_app in Hx as [Hx|Hx].
    + pose proof (Hold x (Hq x Hx)) as Hlt.
      destruct (Hlookup k0 _ Hi) as [[_ Heq]|Hi']; [lia|].
      by apply Hkey; [apply Hq|].
    + apply list_elem_of_singleton in Hx as ->. cbn in *.
      destruct (Hlookup k0 _ Hi) as [[-> _]|Hi']; [reflexivity|].
      specialize (Hids k0 _ Hi'). lia.
Qed.

(** What a timer callback does to the recorded ids: nothing, or it
    records [null] under its key. *)
Lemma fire_ids (x : Timer) (w : World) :
  delaySetTimeOutIDs (fire x w) = delaySetTimeOutIDs w
  \/ delaySetTimeOutIDs (fire x w) = <[tkey x := None]> (delaySetTimeOutIDs w).
Proof.
  unfold fire, delaySetCallback, bindM, modify.
  destruct (set_frame (tkey x) (tvalue x) w)
    as (r & w' & evs & -> & Hs & _).
  assert (Hids : delaySetTimeOutIDs w' = delaySetTimeOutIDs w).
  { unfold skeleton in Hs. by injection Hs as _ _ _ -> _ _ _ _ _ _. }
  destruct r as [[]|e]; cbn [snd]; [|by left].
  destruct (recordTimer_spec (tkey x) None w') as (_ & _ & _ & _ & Hrec & _).
  rewrite <- Hids. exact Hrec.
Qed.

Lemma timersFresh_fire (x : Timer) (w : World) :
  timersFresh w -> timersFresh (fire x w).
Proof.
  intros (Hold & Hids & Hkey).
  destruct (fire_spec x w) as (_ & _ & _ & Hst & _).
  unfold stage in Hst. injection Hst as _ _ Htm _ Hnx _.
  assert (Hrec : forall k i,
             delaySetTimeOutIDs (fire x w) !! k = Some (Some i) ->
             delaySetTimeOutIDs w !! k = Some (Some i)).
  { intros k i Hi. destruct (fire_ids x w) as [Heq|Heq]; rewrite Heq in Hi.
    - exact Hi.
    - destruct (decide (k = tkey x)) as [->|Hne].
      + by rewrite lookup_insert_eq in Hi.
      + by rewrite lookup_insert_ne in Hi by congruence. }
  split; [|split].
  - by rewrite Htm, Hnx.
  - intros k i Hi. rewrite Hnx. by apply (Hids k), Hrec.
  - intros y k Hy Hi. rewrite Htm in Hy. by apply Hkey; [|apply Hrec].
Qed.

Lemma timersFresh_advance (t : nat) (w : World) :
  timersFresh w -> timersFresh (advance t w).
Proof.
  intros (Hold & Hids & Hkey). unfold advance.
  set (ready := merge_sort _ _).
  set (w0 := withTimers (filter (fun x => t < due x)) w).
  assert (H0 : timersFresh w0).
  { split; [|split]; cbn.
    - apply Forall_forall. intros x Hx.
      apply list_elem_of_filter in Hx as [_ Hx].
      rewrite Forall_forall in Hold. by apply Hold.
    - exact Hids.
    - intros x k Hx. apply list_elem_of_filter in Hx as [_ Hx]. by apply Hkey. }
  assert (Hfold : timersFresh (foldl (fun w x => fire x w) w0 ready)).
  { clearbody w0 ready. clear -H0. revert w0 H0.
    induction ready as [|x xs IH]; intros w0 H0; [exact H0|].
    cbn. apply IH. by apply timersFresh_fire. }
  destruct Hfold as (H1 & H2 & H3). by split.
Qed.



End DelaySetKeysFacts.

Section DelaySetKeysExamples.
Import Js Configuration Spec TimerIds Examples.


(** A delayed write of the length cuts a setting under an array index off:
    the value written under "3" after its delay is gone once the write of
    the length 0, delayed for longer, has been made. *)
Example delaySet_length_cuts_an_index :
  let w2 := delaySet "length" (Prim (Num (ofZ 0))) 2000
              (delaySet "3" (Prim (Str "a")) 1000 freshApp) in
  settings (advance 1000 w2) !! "3" = Some (Prim (Str "a"))
  /\ settings (advance 2000 w2) !! "3" = None.
Proof. vm_compute. repeat split. Qed.

End DelaySetKeysExamples.

(** ** Invariants of the configuration *)

Section ReachFacts.
Import Js Configuration Spec TimerIds Reach.

(** The part of the world that only timers and registrations touch. *)
Lemma same_timers (w w' : World) :
  timers w' = timers w ->
  delaySetTimeOutIDs w' = delaySetTimeOutIDs w ->
  nextTimerId w' = nextTimerId w ->
  ((forall k, k <> "__proto__" -> tracked k w) ->
   forall k, k <> "__proto__" -> tracked k w')
  /\ (timersFresh w -> timersFresh w').
Proof.
  intros Htm Hids Hnx. split.
  - intros Htr k Hk. specialize (Htr k Hk).
    unfold tracked, pendingFor in *. by rewrite Htm, Hids.
  - unfold timersFresh. by rewrite Htm, Hids, Hnx.
Qed.

Lemma set_skeleton (k : string) (v : value) (b : bool) (w : World) :
  skeleton (set k v b w).2 = skeleton w.
Proof.
  destruct (notNull v) eqn:Hv; [|by rewrite (set_null _ _ _ _ Hv)].
  destruct b.
  - by destruct (set_frame k v w) as (r & w' & evs & -> & Hs & _).
  - unfold set. rewrite Hv. cbn [negb]. unfold bindM.
    destruct (assignSetting_spec k v w) as (r & w' & evs & -> & Hs & _).
    by destruct r as [[]|e].
Qed.

Lemma loadAll_timers (w : World) :
  timers (loadAll w).2 = timers w
  /\ delaySetTimeOutIDs (loadAll w).2 = delaySetTimeOutIDs w
  /\ nextTimerId (loadAll w).2 = nextTimerId w
  /\ changeListeners (loadAll w).2 = changeListeners w.
Proof.
  unfold loadAll. destruct (documentSettings w) as [host|] eqn:Hd; [|done].
  unfold bindM, clear, modify.
  set (w0 := withReentryFlag true _).
  destruct (loadKeys_spec host (keys w) w0 eq_refl Hd)
    as (r & w' & evs & -> & Hs & _).
  unfold skeleton in Hs. injection Hs as _ Hl _ Hids Htm _ Hnx _ _ _.
  destruct r as [[]|e]; cbn; by rewrite ?Hl, ?Hids, ?Htm, ?Hnx.
Qed.

(** In every state that a configuration reaches, the configurator is the
    first listener and no listener is registered twice; every key but
    [__proto__] has at most one timer pending, the one recorded for it; and
    the ids of the timers are fresh.  These are the states from which the
    properties of [delaySet] are proved.  (Under [__proto__] the plain
    object records no id, and two timers can be pending.) *)
Theorem reachable_invariants (w : World) :
  reachable w ->
  changeListeners w !! 0 = Some TheConfigurator
  /\ NoDup (changeListeners w)
  /\ (forall k, k <> "__proto__" -> tracked k w)
  /\ timersFresh w.
Proof.
  induction 1 as [h ks doc | l w _ IH | k v b w _ IH | w _ IH
                 | k v d w _ IH | t w _ IH].
  - split; [reflexivity|]. split; [apply NoDup_singleton|].
    split; [intros k _; exact I | apply timersFresh_create].
  - destruct IH as (Hfirst & Hnd & Htr & Hfresh).
    unfold registerListener.
    destruct (bool_decide (l ∈ changeListeners w)) eqn:Hin; [done|].
    apply bool_decide_eq_false in Hin.
    cbn [changeListeners withChangeListeners].
    split; [by apply lookup_app_l_Some|]. split.
    + apply NoDup_app. split; [exact Hnd|]. split; [|apply NoDup_singleton].
      intros x Hx Hx'. apply list_elem_of_singleton in Hx' as ->. done.
    + split; [exact Htr | exact Hfresh].
  - destruct IH as (Hfirst & Hnd & Htr & Hfresh).
    pose proof (set_skeleton k v b w) as Hs. unfold skeleton in Hs.
    injection Hs as _ Hl _ Hids Htm _ Hnx _ _ _.
    destruct (same_timers w (set k v b w).2 Htm Hids Hnx) as [H1 H2].
    rewrite Hl. split; [exact Hfirst|]. split; [exact Hnd|].
    split; [by apply H1 | by apply H2].
  - destruct IH as (Hfirst & Hnd & Htr & Hfresh).
    destruct (loadAll_timers w) as (Htm & Hids & Hnx & Hl).
    destruct (same_timers w (loadAll w).2 Htm Hids Hnx) as [H1 H2].
    rewrite Hl. split; [exact Hfirst|]. split; [exact Hnd|].
    split; [by apply H1 | by apply H2].
  - destruct IH as (Hfirst & Hnd & Htr & Hfresh).
    destruct (delaySet_frame k v d w) as (_ & Hl & _).
    rewrite Hl. split; [exact Hfirst|]. split; [exact Hnd|]. split.
    + intros k0 Hk0. by apply tracked_delaySet; [|apply Htr].
    + by apply timersFresh_delaySet.
  - destruct IH as (Hfirst & Hnd & Htr & Hfresh).
    assert (Hl : changeListeners (advance t w) = changeListeners w).
    { unfold advance.
      pose proof (fires_stage
                    (merge_sort firesBefore
                       (filter (fun x => due x <= t) (timers w)))
                    (withTimers (filter (fun x => t < due x)) w)) as Hst.
      unfold stage in Hst. injection Hst as Hl' _ _ _ _ _. exact Hl'. }
    rewrite Hl. split; [exact Hfirst|]. split; [exact Hnd|]. split.
    + intros k0 Hk0. by apply tracked_advance, Htr.
    + by apply timersFresh_advance.
Qed.

Lemma reachable_invariants_witness :
  NoDup (changeListeners
           (advance 400 (delaySet "theme" (Prim (Str "light")) 1000
                           (loadAll Examples.freshApp).2)))
  /\ tracked "theme"
       (advance 400 (delaySet "theme" (Prim (Str "light")) 1000
                       (loadAll Examples.freshApp).2)).
Proof.
  destruct (reachable_invariants
              (advance 400 (delaySet "theme" (Prim (Str "light")) 1000
                              (loadAll Examples.freshApp).2)))
    as (_ & Hnd & Htr & _).
  - apply reach_advance, reach_delaySet, reach_loadAll.
    apply reach_registerListener, reach_create.
  - split; [exact Hnd | apply Htr; discriminate].
Defined.

(** Under [__proto__] two timers are pending in a state that two calls of
    [delaySet] reach. *)
Example reachable_proto_two_timers :
  length (pendingFor "__proto__"
            (delaySet "__proto__" (Prim (Str "light")) 1000
               (delaySet "__proto__" (Prim (Str "dark")) 1000
                  Examples.freshApp))) = 2.
Proof. vm_compute. reflexivity. Qed.

End ReachFacts.

(** ** Utils.stringFormat *)

Section StringFormatFacts.
Import Js JsText StringFormat.

Variable numberToString : number -> string.

Lemma scan_braceFree (params : list prim) (s rest : string) :
  braceFree s = true ->
  scan numberToString params (s +:+ rest) None
  = s +:+ scan numberToString params rest None.
Proof.
  induction s as [|c s IH]; intros Hs; [reflexivity|].
  cbn [braceFree] in Hs. apply andb_true_iff in Hs as [Hc Hs].
  apply negb_true_iff in Hc.
  rewrite !append_cons. cbn [scan]. rewrite Hc. by rewrite IH.
Qed.

Lemma scan_digits (params : list prim) (ds' ds rest : string) :
  allDigits ds' = true ->
  scan numberToString params (ds' +:+ rest) (Some ds)
  = scan numberToString params rest (Some (ds +:+ ds')).
Proof.
  revert ds. induction ds' as [|c ds' IH]; intros ds Hd.
  - by rewrite append_nil_l, append_nil_r.
  - apply allDigits_cons in Hd as [Hc Hd].
    rewrite append_cons. cbn [scan].
    destruct (digitOf c) as [k|]; [|done].
    rewrite IH by exact Hd. by rewrite append_assoc, append_cons, append_nil_l.
Qed.

(** [stringFormat] leaves a text without an opening brace as it is, and
    replaces a placeholder [{i}] by the text of the parameter [i] (nothing
    for [null] and [undefined]); a placeholder for which there is no
    parameter stays as it is.  The text after the placeholder is formatted
    in the same way. *)
Theorem stringFormat_replaces_placeholders (params : list prim) :
  (forall s, braceFree s = true -> stringFormat numberToString s params = s)
  /\ (forall pre i post,
        braceFree pre = true ->
        stringFormat numberToString
          (pre +:+ "{" +:+ natToString i +:+ "}" +:+ post) params
        = pre
          +:+ match params !! i with
              | Some v => textOf numberToString v
              | None => "{" +:+ natToString i +:+ "}"
              end
          +:+ stringFormat numberToString post params).
Proof.
  unfold stringFormat. split.
  - intros s Hs. rewrite <- (append_nil_r s) at 1.
    rewrite scan_braceFree by exact Hs. cbn [scan]. apply append_nil_r.
  - intros pre i post Hpre. rewrite scan_braceFree by exact Hpre. f_equal.
    destruct (natToString_spec i) as (Hall & Hne & Hread).
    rewrite append_cons, append_nil_l. cbn [scan].
    rewrite Ascii.eqb_refl, scan_digits, append_nil_l by exact Hall.
    rewrite append_cons, append_nil_l. cbn [scan digitOf].
    change (digitOf "}") with (@None Z). cbn iota.
    rewrite Ascii.eqb_refl, (bool_decide_eq_false_2 _ Hne). cbn [andb negb].
    f_equal. unfold replacement. rewrite Hread.
    destruct (Z.leb_spec (Z.of_nat (length params) + 1) (Z.of_nat i + 1))
      as [Hout|Hin].
    + rewrite lookup_ge_None_2 by lia. reflexivity.
    + rewrite Nat2Z.id.
      destruct (lookup_lt_is_Some_2 params i) as [v ->]; [lia|]. reflexivity.
Qed.

End StringFormatFacts.

Section StringFormatExamples.
Import Js JsText StringFormat.

Lemma stringFormat_replaces_placeholders_witness :
  stringFormat (fun _ => "3") ("Line " +:+ "{" +:+ natToString 0 +:+ "}" +:+ "")
    [Num (ofZ 3)]
  = "Line " +:+ "3" +:+ stringFormat (fun _ => "3") "" [Num (ofZ 3)].
Proof.
  apply (proj2 (stringFormat_replaces_placeholders (fun _ => "3")
                  [Num (ofZ 3)]) "Line " 0 "").
  reflexivity.
Defined.

(** Placeholders, and braces that are none. *)
Example stringFormat_example :
  stringFormat (fun _ => "?") "{0} of {1}, {2}, {x}, {} and {1"
    [Str "a"; Null]
  = "a of , {2}, {x}, {} and {1".
Proof. vm_compute. reflexivity. Qed.

End StringFormatExamples.

(** ** Visualizer.revisualize: requests close in time give one drawing *)

Section VisualizerFacts.
Import Visualizer.

Context {D : Type}.

Lemma callbacks_idle (v : state D) (ready : list VTimer) :
  visualizationRequestPending v = false ->
  foldl (fun v _ => callback v) v ready = v.
Proof.
  intros Hp. induction ready as [|x ready IH]; [reflexivity|].
  simpl. unfold callback at 2. rewrite Hp. exact IH.
Qed.

Lemma callbacks_draw_once (v : state D) (ready : list VTimer) (d : D) :
  ready <> [] ->
  visualizationRequestPending v = true ->
  cachedData v = Some d ->
  drawn (foldl (fun v _ => callback v) v ready) = drawn v ++ [d].
Proof.
  intros Hne Hp Hd. destruct ready as [|x ready]; [done|].
  simpl. unfold callback at 2. rewrite Hp, Hd.
  by rewrite callbacks_idle.
Qed.

Lemma filter_nothing {A} (P : A -> Prop) `{!forall x, Decision (P x)}
    (l : list A) :
  Forall (fun x => ~ P x) l -> filter P l = [].
Proof.
  induction 1 as [|x l Hx _ IH]; [reflexivity|].
  by rewrite filter_cons_False.
Qed.

(** What holds between the first request, at [t1], and the moment its timer
    fires. *)
Definition waiting (t1 : nat) (d : D) (v : state D) : Prop :=
  visualizationRequestPending v = true /\
  cachedData v = Some d /\
  drawn v = [] /\
  t1 <= vnow v /\
  Forall (fun x => t1 + 100 <= vdue x) (vtimers v) /\
  Exists (fun x => vdue x = t1 + 100) (vtimers v).

Lemma advance_early (t1 t : nat) (d : D) (v : state D) :
  waiting t1 d v -> t < t1 + 100 ->
  waiting t1 d (advance t v) /\ vtimers (advance t v) = vtimers v.
Proof.
  intros (Hp & Hd & Hdr & Hnow & Hall & Hex) Ht.
  unfold advance.
  rewrite (filter_nothing (fun x => vdue x <= t)).
  2:{ eapply Forall_impl; [exact Hall|]. cbn. intros x Hx. lia. }
  rewrite (filter_all (fun x => t < vdue x)).
  2:{ eapply Forall_impl; [exact Hall|]. cbn. intros x Hx. lia. }
  cbn. split; [|reflexivity].
  repeat split; try assumption. cbn. lia.
Qed.

Lemma visualize_waiting (t1 : nat) (d d' : D) (v : state D) :
  waiting t1 d v -> waiting t1 d' (visualize (Some d') v).
Proof.
  intros (Hp & Hd & Hdr & Hnow & Hall & Hex).
  unfold waiting, visualize, revisualize; cbn.
  split; [reflexivity|]. split; [reflexivity|].
  split; [exact Hdr|]. split; [exact Hnow|]. split.
  - apply Forall_app. split; [exact Hall|].
    apply Forall_singleton. cbn. lia.
  - apply Exists_app. by left.
Qed.

Lemma requests_waiting (t1 : nat) (rs : list (nat * D)) (d : D)
    (v : state D) :
  waiting t1 d v ->
  Forall (fun r => r.1 < t1 + 100) rs ->
  waiting t1 (List.last (snd <$> rs) d) (requests rs v).
Proof.
  revert d v. induction rs as [|[t d'] rs IH]; intros d v Hw Hrs.
  - exact Hw.
  - apply Forall_cons in Hrs as [Ht Hrs]. cbn in Ht.
    destruct (advance_early t1 t d v Hw Ht) as [Hw' _].
    pose proof (IH d' _ (visualize_waiting t1 d d' _ Hw') Hrs) as Hend.
    cbn [requests fst snd].
    replace (List.last (snd <$> (t, d') :: rs) d)
      with (List.last (snd <$> rs) d'); [exact Hend|].
    cbn [fmap list_fmap snd]. clear.
    destruct rs as [|r rs]; [reflexivity|].
    cbn [fmap list_fmap]. generalize (r.2) (snd <$> rs). clear.
    intros a l. revert a. induction l as [|b l IH]; intros a; [reflexivity|].
    cbn. cbn in IH. destruct l; [reflexivity|]. apply (IH b).
Qed.

Lemma first_request_waiting (t1 : nat) (d : D) :
  waiting t1 d (visualize (Some d) (advance t1 (create D))).
Proof.
  unfold waiting, visualize, revisualize, advance, create; cbn.
  do 3 (split; [reflexivity|]). split; [lia|]. split.
  - apply Forall_singleton. cbn. lia.
  - apply Exists_cons_hd. cbn. lia.
Qed.

Lemma waiting_outcome (t1 T : nat) (d : D) (v : state D) :
  waiting t1 d v ->
  drawn (advance T v) = if decide (t1 + 100 <= T) then [d] else [].
Proof.
  intros Hw. destruct (decide (t1 + 100 <= T)) as [Hlate|Hearly].
  - destruct Hw as (Hp & Hd & Hdr & Hnow & Hall & Hex).
    unfold advance.
    rewrite (callbacks_draw_once _ _ d); cbn; [by rewrite Hdr|..|done|done].
    intros Hnil.
    apply Exists_exists in Hex as (x & Hx & Hdue).
    assert (Hin : x ∈ merge_sort firesBefore
                        (filter (fun x => vdue x <= T) (vtimers v))).
    { rewrite merge_sort_Permutation. apply list_elem_of_filter.
      split; [lia | exact Hx]. }
    rewrite Hnil in Hin. by apply elem_of_nil in Hin.
  - destruct (advance_early t1 T d v Hw) as [(_ & _ & Hdr & _) _]; [lia|].
    exact Hdr.
Qed.

(** Calls of [visualize] that all come less than 100 ms after the first one
    give one drawing only: nothing is drawn before the timer of the first
    call fires, 100 ms after it; then the data of the last call are drawn,
    once, and the timers of the later calls draw nothing more. *)
Theorem revisualize_merges_close_requests (t1 : nat) (d1 : D)
    (rs : list (nat * D)) (T : nat) :
  Forall (fun r => r.1 < t1 + 100) rs ->
  drawn (advance T (requests ((t1, d1) :: rs) (create D)))
  = if decide (t1 + 100 <= T) then [List.last (snd <$> rs) d1] else [].
Proof.
  intros Hrs. apply waiting_outcome.
  cbn [requests fst snd].
  apply requests_waiting; [apply first_request_waiting | exact Hrs].
Qed.

End VisualizerFacts.

Lemma revisualize_merges_close_requests_witness :
  Forall (fun r : nat * nat => r.1 < 10 + 100) [(40, 7); (109, 8)] /\
  Visualizer.drawn
    (Visualizer.advance 500
       (Visualizer.requests [(10, 6); (40, 7); (109, 8)]
          (Visualizer.create nat))) = [8].
Proof.
  assert (H : Forall (fun r : nat * nat => r.1 < 10 + 100)
                [(40, 7); (109, 8)]).
  { repeat constructor; cbn; lia. }
  split; [exact H|].
  exact (revisualize_merges_close_requests 10 6 [(40, 7); (109, 8)] 500 H).
Defined.
